(** * claude_cli.py: a shallow embedding and its checked properties

    The program is a command-line assistant: it classifies files by
    extension, assembles prompts from templates, sends one request per
    prompt to a completion service and prints or stores the reply; three
    batch modes mirror a directory tree into a sibling output tree.

    The embedding follows [claude_cli.py] function by function.

    - Python [str] values are [string]s; [lower] and [upper] act on the
      ASCII letters (names outside ASCII are outside the model).
    - A [pathlib.Path] is the list of its components, relative to the
      current directory: [Path("a/b.py")] is [["a"; "b.py"]] and [Path(".")]
      is [[]].  Separators are POSIX; symbolic links are outside the
      model, and a leading separator is dropped (every path is read from
      one origin).  [".."] is not resolved: it is kept as a component that
      names no entry of a well-formed file system, so that paths with
      [".."] are outside the model; the properties whose truth depends on
      it say so in a hypothesis.  [suffix] is the one of Python 3.8 to 3.13
      ([rfind] of the dot in the final component).
    - The file system is a finite map from paths to nodes.  A regular file
      carries the text its bytes decode to as UTF-8, or [None] when they
      are not valid UTF-8; reading in text mode translates the line ends.
      Enumeration follows the order of the map, which stands for the order
      of the platform.  The texts of the errors of the operating system are
      those of CPython on POSIX; the text of a decoding error names the
      offending byte, which the model does not keep, and is left open.
    - Effects are threaded through a state-and-exception monad over a
      [world]: the file system, what was printed, and the requests sent to
      the completion service.  The service is an arbitrary function of the
      call number and the request.
    - Keyword parameters with defaults are passed explicitly.
    - The test of the credential at import time is left out: every
      function below runs after it has passed. *)

From Stdlib Require Import Ascii ZArith QArith Bool Lia.
From stdpp Require Import base option list gmap strings pretty.

Local Open Scope stdpp_scope.

(** ** Strings *)

Definition nl : string := String "010"%char "".

Definition is_upper (c : ascii) : bool :=
  (65 <=? nat_of_ascii c)%nat && (nat_of_ascii c <=? 90)%nat.

Definition is_lower (c : ascii) : bool :=
  (97 <=? nat_of_ascii c)%nat && (nat_of_ascii c <=? 122)%nat.

Definition lower_char (c : ascii) : ascii :=
  if is_upper c then ascii_of_nat (nat_of_ascii c + 32) else c.

Definition upper_char (c : ascii) : ascii :=
  if is_lower c then ascii_of_nat (nat_of_ascii c - 32) else c.

(** [s.lower()] *)
Fixpoint lower (s : string) : string :=
  match s with
  | "" => ""
  | String c s' => String (lower_char c) (lower s')
  end.

(** [s.upper()] *)
Fixpoint upper (s : string) : string :=
  match s with
  | "" => ""
  | String c s' => String (upper_char c) (upper s')
  end.

(** [sep.join(l)] *)
Fixpoint join (sep : string) (l : list string) : string :=
  match l with
  | [] => ""
  | [x] => x
  | x :: l' => x +:+ sep +:+ join sep l'
  end.

(** [s.startswith(pre)] *)
Fixpoint startswith (pre s : string) : bool :=
  match pre, s with
  | "", _ => true
  | String a pre', String b s' => Ascii.eqb a b && startswith pre' s'
  | String _ _, "" => false
  end.

(** [needle in hay] *)
Fixpoint contains (needle hay : string) : bool :=
  startswith needle hay ||
  match hay with
  | "" => false
  | String _ hay' => contains needle hay'
  end.

(** [c in s] for a character [c] *)
Fixpoint has_char (c : ascii) (s : string) : bool :=
  match s with
  | "" => false
  | String a s' => Ascii.eqb a c || has_char c s'
  end.

(** [s.endswith(suffix)] *)
Fixpoint endswith (suffix s : string) : bool :=
  String.eqb suffix s ||
  match s with
  | "" => false
  | String _ s' => endswith suffix s'
  end.

(** [s[i:]] *)
Fixpoint drop_str (i : nat) (s : string) : string :=
  match i, s with
  | O, _ => s
  | S i', String _ s' => drop_str i' s'
  | S _, "" => ""
  end.

(** [s.rfind(".")], with [None] for Python's [-1] *)
Fixpoint rfind_dot (s : string) : option nat :=
  match s with
  | "" => None
  | String c s' =>
      match rfind_dot s' with
      | Some i => Some (S i)
      | None => if Ascii.eqb c "."%char then Some 0%nat else None
      end
  end.

(** [s.split(sep)] for a one-character separator *)
Fixpoint split_on (sep : ascii) (s : string) : list string :=
  match s with
  | "" => [""]
  | String c s' =>
      if Ascii.eqb c sep then "" :: split_on sep s'
      else match split_on sep s' with
           | [] => [String c ""]
           | h :: t => String c h :: t
           end
  end.

Definition in_strs (x : string) (l : list string) : bool :=
  existsb (String.eqb x) l.

(** What reading in text mode ([newline=None]) makes of the line ends:
    ["\r\n"] and a lone ["\r"] are read as ["\n"]. *)
Fixpoint universal_newlines (s : string) : string :=
  match s with
  | "" => ""
  | String c s' =>
      if Ascii.eqb c "013" then
        String "010"
               match s' with
               | String c' s'' =>
                   if Ascii.eqb c' "010" then universal_newlines s''
                   else universal_newlines s'
               | "" => ""
               end
      else String c (universal_newlines s')
  end.

Definition hex_digit (n : nat) : ascii :=
  nth n [ "0"; "1"; "2"; "3"; "4"; "5"; "6"; "7"; "8"; "9";
          "a"; "b"; "c"; "d"; "e"; "f" ]%char "0"%char.

(** One character of [repr(s)], inside the quotes [quote]. *)
Definition repr_char (quote c : ascii) : string :=
  let n := nat_of_ascii c in
  if Ascii.eqb c quote || Ascii.eqb c "\" then String "\" (String c "")
  else if Ascii.eqb c "009" then "\t"
  else if Ascii.eqb c "010" then "\n"
  else if Ascii.eqb c "013" then "\r"
  else if (n <? 32)%nat || (n =? 127)%nat then
    String "\" (String "x" (String (hex_digit (n / 16)) (String (hex_digit (n mod 16)) "")))
  else String c "".

Fixpoint repr_body (quote : ascii) (s : string) : string :=
  match s with
  | "" => ""
  | String c s' => repr_char quote c +:+ repr_body quote s'
  end.

(** [repr(s)] of an ASCII string: single quotes, unless the string holds a
    single quote and no double quote. *)
Definition repr_str (s : string) : string :=
  let quote := if has_char "039" s && negb (has_char "034" s)
               then "034"%char else "039"%char in
  String quote (repr_body quote s +:+ String quote "").

(** ** pathlib *)

(** A path is the list of its components. *)
Abbreviation path := (list string).

Definition is_component (c : string) : bool :=
  negb (String.eqb c "") && negb (String.eqb c ".").

(** [Path(s)]: split at the separators, drop empty and ["."] components. *)
Definition Path (s : string) : path :=
  List.filter is_component (split_on "/"%char s).

(** [str(p)] *)
Definition str (p : path) : string :=
  match p with
  | [] => "."
  | _ => join "/" p
  end.

(** [p.name] *)
Definition name (p : path) : string := default "" (last p).

(** [p.parent] *)
Definition parent (p : path) : path := removelast p.

(** [p.suffix] *)
Definition suffix (p : path) : string :=
  let n := name p in
  match rfind_dot n with
  | Some i =>
      if (0 <? i)%nat && (i <? String.length n - 1)%nat then drop_str i n else ""
  | None => ""
  end.

(** ** LANGUAGE SUPPORT *)

Definition SUPPORTED_EXTS : list string :=
  [ ".py"; ".pyw";
    ".c"; ".cpp"; ".cc"; ".cxx"; ".h"; ".hpp";
    ".java";
    ".kt"; ".kts";
    ".js"; ".jsx";
    ".ts"; ".tsx";
    ".cs";
    ".go";
    ".rs";
    ".php";
    ".html"; ".htm";
    ".css";
    ".json";
    ".yaml"; ".yml";
    ".xml" ].

(** [p.suffix.lower() in SUPPORTED_EXTS] *)
Definition has_supported_ext (p : path) : bool :=
  in_strs (lower (suffix p)) SUPPORTED_EXTS.

Definition detect_language (p : path) : string :=
  let ext := lower (suffix p) in
  if in_strs ext [".py"; ".pyw"] then "python"
  else if in_strs ext [".c"; ".cpp"; ".cc"; ".cxx"; ".h"; ".hpp"] then "cpp"
  else if String.eqb ext ".java" then "java"
  else if in_strs ext [".kt"; ".kts"] then "kotlin"
  else if in_strs ext [".js"; ".jsx"] then "javascript"
  else if in_strs ext [".ts"; ".tsx"] then "typescript"
  else if String.eqb ext ".cs" then "csharp"
  else if String.eqb ext ".go" then "go"
  else if String.eqb ext ".rs" then "rust"
  else if String.eqb ext ".php" then "php"
  else if in_strs ext [".html"; ".htm"] then "html"
  else if String.eqb ext ".css" then "css"
  else if String.eqb ext ".json" then "json"
  else if in_strs ext [".yaml"; ".yml"] then "yaml"
  else if String.eqb ext ".xml" then "xml"
  else "text".

(** The static table of section 4.1 of the specification, written out from
    its words: each supported extension with its tag.  [detect_language] is
    compared with a lookup in this table. *)
Definition language_table : list (string * string) :=
  [ (".py", "python"); (".pyw", "python");
    (".c", "cpp"); (".cpp", "cpp"); (".cc", "cpp"); (".cxx", "cpp");
    (".h", "cpp"); (".hpp", "cpp");
    (".java", "java");
    (".kt", "kotlin"); (".kts", "kotlin");
    (".js", "javascript"); (".jsx", "javascript");
    (".ts", "typescript"); (".tsx", "typescript");
    (".cs", "csharp");
    (".go", "go");
    (".rs", "rust");
    (".php", "php");
    (".html", "html"); (".htm", "html");
    (".css", "css");
    (".json", "json");
    (".yaml", "yaml"); (".yml", "yaml");
    (".xml", "xml") ].

Definition language_tags : list string :=
  [ "python"; "cpp"; "java"; "kotlin"; "javascript"; "typescript"; "csharp";
    "go"; "rust"; "php"; "html"; "css"; "json"; "yaml"; "xml" ].

Fixpoint table_lookup (ext : string) (t : list (string * string)) : option string :=
  match t with
  | [] => None
  | (e, tag) :: t' => if String.eqb ext e then Some tag else table_lookup ext t'
  end.

(** ** Exceptions and results *)

Inductive exn_class :=
  | FileNotFoundError | IsADirectoryError | NotADirectoryError | FileExistsError
  | UnicodeDecodeError | ValueError | IndexError | AttributeError
  | AuthenticationError | RateLimitError | APIConnectionError | APIStatusError
  | KeyboardInterrupt.

(** [issubclass(cls, Exception)]: everything here but [KeyboardInterrupt],
    which derives from [BaseException] only. *)
Definition is_Exception (c : exn_class) : bool :=
  match c with
  | KeyboardInterrupt => false
  | _ => true
  end.

(** An exception value: its class and [str(e)]. *)
Record exn := Exn { exn_cls : exn_class; exn_str : string }.

Inductive result (A : Type) :=
  | Ok (a : A)
  | Raised (e : exn).
Arguments Ok {A} a.
Arguments Raised {A} e.

(** ** The world *)

Inductive node :=
  | Dir
  | File (text : option string).

Global Instance node_eq_dec : EqDecision node.
Proof. solve_decision. Defined.

Record message := Message { role : string; content : string }.

Record request := Request {
  model : string;
  req_max_tokens : Z;
  req_temperature : Q;
  messages : list message }.

Inductive block :=
  | TextBlock (text : string)
  | OtherBlock (class_name : string).

Record response := Response { blocks : list block }.

Inductive outcome :=
  | Returns (r : response)
  | Raises (e : exn).

Record world := World {
  fs : gmap path node;
  cwd : string;
  stdout : list string;
  calls : list request }.

Definition set_fs (m : gmap path node) (w : world) : world :=
  World m (cwd w) (stdout w) (calls w).

(** ** The monad: state passing with exceptions *)

Definition M (A : Type) : Type := world → result A * world.

Definition ret {A} (a : A) : M A := λ w, (Ok a, w).

Definition raise {A} (c : exn_class) (msg : string) : M A :=
  λ w, (Raised (Exn c msg), w).

Definition bind {A B} (m : M A) (k : A → M B) : M B :=
  λ w, match m w with
       | (Ok a, w') => k a w'
       | (Raised e, w') => (Raised e, w')
       end.

Notation "x <- m ;; k" := (bind m (λ x, k))
  (at level 100, m at next level, right associativity).
Notation "m ;;; k" := (bind m (λ _, k))
  (at level 100, right associativity).

(** [try: body / except Exception as e: handler(e)] *)
Definition try_except {A} (body : M A) (handler : exn → M A) : M A :=
  λ w, match body w with
       | (Ok a, w') => (Ok a, w')
       | (Raised e, w') =>
           if is_Exception (exn_cls e) then handler e w' else (Raised e, w')
       end.

(** [print(s)] *)
Definition print (s : string) : M unit :=
  λ w, (Ok tt, World (fs w) (cwd w) (stdout w ++ [s]) (calls w)).

(** ** pathlib on the file system *)

Definition under (root p : path) : Prop := root `prefix_of` p ∧ root ≠ p.

Definition with_name (p : path) (n : string) : M path :=
  match p with
  | [] => raise ValueError "PosixPath('.') has an empty name"
  | _ => ret (parent p ++ [n])
  end.

Fixpoint strip_prefix (root p : path) : option path :=
  match root, p with
  | [], _ => Some p
  | r :: root', c :: p' => if String.eqb r c then strip_prefix root' p' else None
  | _ :: _, [] => None
  end.

(** [p.relative_to(root)] *)
Definition relative_to (p root : path) : M path :=
  match strip_prefix root p with
  | Some rel => ret rel
  | None => raise ValueError (str p +:+ " is not in the subpath of " +:+ str root)
  end.

Definition exists_ (p : path) : M bool :=
  λ w, (Ok (bool_decide (is_Some (fs w !! p))), w).

Definition is_dir_in (m : gmap path node) (p : path) : bool :=
  match m !! p with
  | Some Dir => true
  | _ => false
  end.

Definition is_dir (p : path) : M bool :=
  λ w, (Ok (is_dir_in (fs w) p), w).

Definition is_file_in (m : gmap path node) (p : path) : bool :=
  match m !! p with
  | Some (File _) => true
  | _ => false
  end.

Definition is_file (p : path) : M bool :=
  λ w, (Ok (is_file_in (fs w) p), w).

(** [root.rglob("*")]: every entry below [root], in the order in which the
    file system lists them. *)
Definition entries_under (root : path) (m : gmap path node) : list path :=
  filter (under root) (map_to_list m).*1.

Definition rglob (root : path) : M (list path) :=
  λ w, (Ok (entries_under root (fs w)), w).

(** An error of the operating system at [p], as CPython renders it:
    [[Errno 21] Is a directory: 'proj'] *)
Definition os_error (c : exn_class) (errno_ what : string) (p : path) : exn :=
  Exn c ("[Errno " +:+ errno_ +:+ "] " +:+ what +:+ ": " +:+ repr_str (str p)).

Definition ENOENT : path → exn := os_error FileNotFoundError "2" "No such file or directory".
Definition EEXIST : path → exn := os_error FileExistsError "17" "File exists".
Definition ENOTDIR : path → exn := os_error NotADirectoryError "20" "Not a directory".
Definition EISDIR : path → exn := os_error IsADirectoryError "21" "Is a directory".

(** The error of decoding bytes that are not valid UTF-8.  The text of the
    real exception goes on with the offending byte and its position, which
    the model does not keep: no property below states this text. *)
Definition decode_error : exn :=
  Exn UnicodeDecodeError "'utf-8' codec can't decode byte".

(** [p.read_text(encoding="utf-8")]: the file is opened in text mode, so
    that the line ends of the decoded text are translated. *)
Definition read_text (p : path) : M string :=
  λ w, match fs w !! p with
       | None => (Raised (ENOENT p), w)
       | Some Dir => (Raised (EISDIR p), w)
       | Some (File None) => (Raised decode_error, w)
       | Some (File (Some s)) => (Ok (universal_newlines s), w)
       end.

(** [p.mkdir(parents=True, exist_ok=True)], walking down from the current
    directory: [done] is the part of the path already known to be a
    directory, [todo] what is left to create or to find.  A regular file
    at [p] itself is [EEXIST], one above it [ENOTDIR]; both are reported
    for [p], the path [os.mkdir] was called with. *)
Fixpoint mkdir_from (done todo : path) (m : gmap path node) : result (gmap path node) :=
  match todo with
  | [] => Ok m
  | c :: todo' =>
      let q := done ++ [c] in
      match m !! q with
      | Some Dir => mkdir_from q todo' m
      | Some (File _) =>
          Raised (match todo' with
                  | [] => EEXIST q
                  | _ => ENOTDIR (q ++ todo')
                  end)
      | None => mkdir_from q todo' (<[q := Dir]> m)
      end
  end.

Definition mkdir_parents (p : path) : M unit :=
  λ w, match mkdir_from [] p (fs w) with
       | Ok m => (Ok tt, set_fs m w)
       | Raised e => (Raised e, w)
       end.

(** [p.write_text(s, encoding="utf-8")]: on POSIX the text is stored as
    it is (["\n"] is the line end of the platform). *)
Definition write_text (p : path) (s : string) : M unit :=
  λ w, match fs w !! p with
       | Some Dir => (Raised (EISDIR p), w)
       | _ =>
           match p, fs w !! parent p with
           | _ :: _, Some Dir => (Ok tt, set_fs (<[p := File (Some s)]> (fs w)) w)
           | _ :: _, Some (File _) => (Raised (ENOTDIR p), w)
           | _, _ => (Raised (ENOENT p), w)
           end
       end.

(** [p.resolve()], rendered *)
Definition resolve (p : path) : M string :=
  λ w, (Ok (match p with [] => cwd w | _ => cwd w +:+ "/" +:+ str p end), w).

(** ** CONFIG *)

Definition MODEL_NAME : string := "claude-3-haiku-20240307".

(** The defaults of [call_claude]'s keyword parameters. *)
Definition DEFAULT_MAX_TOKENS : Z := 4096.
Definition DEFAULT_TEMPERATURE : Q := 1 # 10.

(** [iter_code_files(root)].  The generator is consumed while the batch
    loop writes.  For a root without [".."] every write goes below the
    output root, a sibling of [root] that is never below it, so that the
    walk does not meet what the loop writes (lemma [mirrored_entries]) and
    the files can be listed up front.  For a root that ends in [".."] the
    output root lies inside the tree that is walked, and the source walks
    into its own output; such roots are outside the model (they name no
    directory of a well-formed file system). *)
Definition iter_code_files (root : path) : M (list path) :=
  ps <- rglob root ;;
  λ w, (Ok (List.filter (λ p, is_file_in (fs w) p && has_supported_ext p) ps), w).

(** ** FILE HELPERS *)

Definition read_file (path_ : string) : M string :=
  let p := Path path_ in
  found <- exists_ p ;;
  if negb found then raise FileNotFoundError ("File not found: " +:+ path_)
  else read_text p.

(** ** The command line *)

Record Args := {
  prompt : option string;
  file : option string;
  explain : option string;
  fix_ : option string;
  refactor : option string;
  analyze_folder : option string;
  project_qa : option string;
  question : option string;
  generate_file : option string;
  diff : option (string * string);
  fix_folder : option string;
  refactor_folder : option string;
  rewrite_folder : option string;
  out : option string;
  max_tokens : Z;
  temperature : Q }.

(** Python's truth value of an optional string: [None] and [""] are false. *)
Definition truthy (o : option string) : bool :=
  match o with
  | Some s => negb (String.eqb s "")
  | None => false
  end.

(** The value of a flag that is known to be set. *)
Definition value (o : option string) : string := default "" o.

(** What [build_parser] yields for an empty command line. *)
Definition default_args : Args :=
  {| prompt := None; file := None; explain := None; fix_ := None;
     refactor := None; analyze_folder := None; project_qa := None;
     question := None; generate_file := None; diff := None;
     fix_folder := None; refactor_folder := None; rewrite_folder := None;
     out := None; max_tokens := 4096; temperature := 1 # 10 |}.

Definition write_output_if_needed (args : Args) (content_ : string) : M unit :=
  if negb (truthy (out args)) then print content_
  else
    let out_path := Path (value (out args)) in
    mkdir_parents (parent out_path) ;;;
    write_text out_path content_ ;;;
    abs <- resolve out_path ;;
    print (nl +:+ "[OK] Written to " +:+ abs +:+ nl).

(** ** PROMPT BUILDERS (ONE-SHOT / EXPLAIN) *)

Definition build_single_prompt (args : Args) : M string :=
  if truthy (file args) then
    text <- read_file (value (file args)) ;;
    let user_prompt := if truthy (prompt args) then value (prompt args) else "" in
    ret ("You are an expert senior software engineer." +:+ nl
         +:+ "File: " +:+ value (file args) +:+ nl +:+ nl
         +:+ text +:+ nl +:+ nl
         +:+ "User request: " +:+ user_prompt)
  else ret (if truthy (prompt args) then value (prompt args) else "").

Definition build_explain_prompt (path_ : string) : M string :=
  text <- read_file path_ ;;
  ret ("Explain the following file in full detail:" +:+ nl
       +:+ "- overall purpose" +:+ nl
       +:+ "- key functions/classes" +:+ nl
       +:+ "- how data flows" +:+ nl
       +:+ "- important design decisions" +:+ nl
       +:+ "- potential pitfalls" +:+ nl +:+ nl
       +:+ "Path: " +:+ path_ +:+ nl +:+ nl
       +:+ text).

(** ** PROMPT BUILDERS (LANGUAGE-AWARE FIX / REFACTOR / REWRITE) *)

Definition _lang_header_fix (lang : string) : string :=
  if String.eqb lang "python" then
    "You are a senior Python engineer." +:+ nl
    +:+ "Fix all bugs, inefficiencies, missing checks, and anti-patterns." +:+ nl
    +:+ "Preserve EXACT external behavior and public API." +:+ nl +:+ nl
  else if String.eqb lang "cpp" then
    "You are a senior C++17 engineer." +:+ nl
    +:+ "Fix all bugs, undefined behavior, memory issues, and anti-patterns." +:+ nl
    +:+ "Prefer RAII, smart pointers, const-correctness, and modern STL." +:+ nl
    +:+ "Preserve observable behavior and public interface." +:+ nl +:+ nl
  else if String.eqb lang "java" then
    "You are a senior Java engineer." +:+ nl
    +:+ "Fix all bugs and anti-patterns using modern Java best practices." +:+ nl
    +:+ "Preserve behavior and public API." +:+ nl +:+ nl
  else if String.eqb lang "kotlin" then
    "You are a senior Kotlin/Android engineer." +:+ nl
    +:+ "Fix all bugs and improve safety using idiomatic Kotlin." +:+ nl
    +:+ "Preserve behavior and public API." +:+ nl +:+ nl
  else if in_strs lang ["javascript"; "typescript"] then
    "You are a senior " +:+ lang +:+ " engineer." +:+ nl
    +:+ "Fix all bugs, race conditions, and performance issues." +:+ nl
    +:+ "Use modern language features and best practices." +:+ nl
    +:+ "Preserve the observable behavior." +:+ nl +:+ nl
  else if in_strs lang ["html"; "css"] then
    "You are a senior " +:+ upper lang +:+ " engineer." +:+ nl
    +:+ "Clean up structure, fix obvious issues, and keep the same visual behavior."
    +:+ nl +:+ nl
  else
    "You are a senior software engineer." +:+ nl
    +:+ "Fix all obvious bugs, inefficiencies, missing checks, and anti-patterns." +:+ nl
    +:+ "Preserve the same external behavior and semantics." +:+ nl +:+ nl.

Definition _lang_header_refactor (lang : string) : string :=
  if String.eqb lang "python" then
    "You are a senior Python engineer." +:+ nl
    +:+ "Refactor this file for readability, maintainability, structure, and comments."
    +:+ nl
    +:+ "Maintain EXACT external behavior." +:+ nl +:+ nl
  else if String.eqb lang "cpp" then
    "You are a senior C++17 engineer." +:+ nl
    +:+ "Refactor for clarity, RAII, const-correctness, and better structure." +:+ nl
    +:+ "Keep the public API and semantics unchanged." +:+ nl +:+ nl
  else if String.eqb lang "java" then
    "You are a senior Java engineer." +:+ nl
    +:+ "Refactor using clean OOP design, clear naming, and modern Java patterns." +:+ nl
    +:+ "Maintain existing behavior and public API." +:+ nl +:+ nl
  else if String.eqb lang "kotlin" then
    "You are a senior Kotlin/Android engineer." +:+ nl
    +:+ "Refactor to idiomatic Kotlin, improving null-safety and readability." +:+ nl
    +:+ "Preserve behavior and signatures." +:+ nl +:+ nl
  else if in_strs lang ["javascript"; "typescript"] then
    "You are a senior " +:+ lang +:+ " engineer." +:+ nl
    +:+ "Refactor for readability, modularity, and maintainability." +:+ nl
    +:+ "Use modern language features. Preserve behavior." +:+ nl +:+ nl
  else if in_strs lang ["html"; "css"] then
    "You are a senior " +:+ upper lang +:+ " engineer." +:+ nl
    +:+ "Refactor for cleaner structure, semantics, and maintainability." +:+ nl
    +:+ "Keep the same visual behavior." +:+ nl +:+ nl
  else
    "You are a senior software engineer." +:+ nl
    +:+ "Refactor this file for readability, maintainability, structure, and comments."
    +:+ nl
    +:+ "Maintain the same external behavior." +:+ nl +:+ nl.

Definition _lang_header_rewrite (lang : string) : string :=
  let base :=
    "You are a principal-level software architect." +:+ nl
    +:+ "Completely REWRITE this module with a modern, clean, modular architecture." +:+ nl
    +:+ "You MAY:" +:+ nl
    +:+ "- change function and class names" +:+ nl
    +:+ "- split large functions into smaller ones" +:+ nl
    +:+ "- introduce classes or interfaces where appropriate" +:+ nl
    +:+ "- reorganize responsibilities (I/O vs core logic vs config)" +:+ nl
    +:+ "- move script-style code into a main() or classes" +:+ nl
    +:+ "- remove dead code and legacy hacks" +:+ nl
    +:+ "You MUST:" +:+ nl
    +:+ "- preserve the overall PURPOSE of the module" +:+ nl
    +:+ "- keep it usable in the same general context" +:+ nl
    +:+ "- write idiomatic, production-quality code for this language" +:+ nl
    +:+ "- add clear docstrings/comments where helpful" +:+ nl +:+ nl in
  if String.eqb lang "python" then
    base +:+ "Language: Python. Use modern Python best practices (type hints, clear modules)."
    +:+ nl +:+ nl
  else if String.eqb lang "cpp" then
    base +:+ "Language: C++17. Use RAII, smart pointers, STL, and avoid raw new/delete where possible."
    +:+ nl +:+ nl
  else if String.eqb lang "java" then
    base +:+ "Language: Java. Use clear packages, interfaces, and patterns." +:+ nl +:+ nl
  else if String.eqb lang "kotlin" then
    base +:+ "Language: Kotlin. Use idiomatic Kotlin with data classes, extension functions, and proper null-safety."
    +:+ nl +:+ nl
  else if in_strs lang ["javascript"; "typescript"] then
    base +:+ "Language: " +:+ lang
    +:+ ". Use modern modules, async/await, and clear separation of concerns."
    +:+ nl +:+ nl
  else if in_strs lang ["html"; "css"] then
    base +:+ "Language: " +:+ upper lang
    +:+ ". Use semantic structure and maintain visual intent." +:+ nl +:+ nl
  else base +:+ "Language: generic code/text." +:+ nl +:+ nl.

(** The last line of the rewrite template. *)
Definition REWRITE_DIRECTIVE : string :=
  "Now output ONLY the full rewritten file content." +:+ nl.

Definition build_fix_prompt (path_ : string) : M string :=
  let p := Path path_ in
  let lang := detect_language p in
  text <- read_file path_ ;;
  let header := _lang_header_fix lang in
  ret (header
       +:+ "File path: " +:+ path_ +:+ nl +:+ nl
       +:+ "Current content:" +:+ nl
       +:+ "----------------" +:+ nl
       +:+ text +:+ nl
       +:+ "----------------" +:+ nl).

Definition build_refactor_prompt (path_ : string) : M string :=
  let p := Path path_ in
  let lang := detect_language p in
  text <- read_file path_ ;;
  let header := _lang_header_refactor lang in
  ret (header
       +:+ "File path: " +:+ path_ +:+ nl +:+ nl
       +:+ "Current content:" +:+ nl
       +:+ "----------------" +:+ nl
       +:+ text +:+ nl
       +:+ "----------------" +:+ nl).

Definition build_rewrite_prompt (path_ : string) : M string :=
  let p := Path path_ in
  let lang := detect_language p in
  text <- read_file path_ ;;
  let header := _lang_header_rewrite lang in
  ret (header
       +:+ "Original file path: " +:+ path_ +:+ nl +:+ nl
       +:+ "Original file content:" +:+ nl
       +:+ "----------------------" +:+ nl
       +:+ text +:+ nl
       +:+ "----------------------" +:+ nl
       +:+ "Now output ONLY the full rewritten file content." +:+ nl).

(** ** PROJECT-LEVEL PROMPTS *)

(** ["\n".join(str(p) for p in folder_path.rglob("*") if p.is_file())] *)
Definition file_list_of (folder_path : path) : M string :=
  ps <- rglob folder_path ;;
  λ w, (Ok (join nl (map str (List.filter (is_file_in (fs w)) ps))), w).

Definition build_folder_analysis_prompt (folder : string) : M string :=
  let folder_path := Path folder in
  file_list <- file_list_of folder_path ;;
  ret ("You are a principal-level software architect." +:+ nl
       +:+ "Analyze the ENTIRE project located at:" +:+ nl +:+ str folder_path +:+ nl +:+ nl
       +:+ "Files included:" +:+ nl
       +:+ file_list +:+ nl +:+ nl
       +:+ "For EVERY important code file, provide:" +:+ nl
       +:+ "- purpose summary" +:+ nl
       +:+ "- logic explanation" +:+ nl
       +:+ "- major bugs or risks" +:+ nl
       +:+ "- inefficiencies" +:+ nl
       +:+ "- weak architecture" +:+ nl
       +:+ "- security issues" +:+ nl
       +:+ "- dead code" +:+ nl
       +:+ "- concrete refactor recommendations" +:+ nl +:+ nl
       +:+ "Then propose:" +:+ nl
       +:+ "- improved folder structure" +:+ nl
       +:+ "- improved module boundaries" +:+ nl
       +:+ "- improved architecture" +:+ nl
       +:+ "- cleanup and modernization plan" +:+ nl).

Definition build_project_qa_prompt (folder question_ : string) : M string :=
  let folder_path := Path folder in
  file_list <- file_list_of folder_path ;;
  ret ("You are an expert senior engineer. Answer questions about this codebase."
       +:+ nl +:+ nl
       +:+ "Project root: " +:+ str folder_path +:+ nl +:+ nl
       +:+ "Files:" +:+ nl +:+ file_list +:+ nl +:+ nl
       +:+ "User question:" +:+ nl +:+ question_).

Definition build_diff_prompt (file_a file_b : string) : M string :=
  text_a <- read_file file_a ;;
  text_b <- read_file file_b ;;
  ret ("You are an expert senior engineer. Compare the following two files." +:+ nl
       +:+ "Provide:" +:+ nl
       +:+ "- a unified diff" +:+ nl
       +:+ "- summary of functional changes" +:+ nl
       +:+ "- improvements introduced" +:+ nl
       +:+ "- potential regressions" +:+ nl
       +:+ "- style / architecture changes" +:+ nl
       +:+ "- recommendations for further improvements" +:+ nl +:+ nl
       +:+ "File A: " +:+ file_a +:+ nl +:+ text_a +:+ nl +:+ nl
       +:+ "File B: " +:+ file_b +:+ nl +:+ text_b +:+ nl +:+ nl
       +:+ "Now produce the full analysis.").

Section Program.

(** The completion service behind [client.messages.create]: what the
    [n]-th call of the run (counting from 0) does with a request. *)
Variable service : nat → request → outcome.

(** ** CLAUDE CALL *)

(** [client.messages.create(...)] *)
Definition messages_create (req : request) : M response :=
  λ w, let w' := World (fs w) (cwd w) (stdout w) (calls w ++ [req]) in
       match service (length (calls w)) req with
       | Returns r => (Ok r, w')
       | Raises e => (Raised e, w')
       end.

(** [response.content[0]] *)
Definition first_block (r : response) : M block :=
  match blocks r with
  | b :: _ => ret b
  | [] => raise IndexError "list index out of range"
  end.

(** [block.text] *)
Definition block_text (b : block) : M string :=
  match b with
  | TextBlock t => ret t
  | OtherBlock cls => raise AttributeError ("'" +:+ cls +:+ "' object has no attribute 'text'")
  end.

Definition call_claude (msgs : list message) (max_tokens_ : Z) (temperature_ : Q)
    : M string :=
  try_except
    (response_ <- messages_create
                    {| model := MODEL_NAME;
                       req_max_tokens := max_tokens_;
                       req_temperature := temperature_;
                       messages := msgs |} ;;
     b <- first_block response_ ;;
     block_text b)
    (λ e, ret ("[API ERROR] " +:+ exn_str e)).

Definition user_message (prompt_ : string) : list message :=
  [ {| role := "user"; content := prompt_ |} ].

(** ** EXECUTION MODES *)

Definition run_one_shot (args : Args) : M unit :=
  prompt_ <- build_single_prompt args ;;
  reply <- call_claude (user_message prompt_) (max_tokens args) (temperature args) ;;
  write_output_if_needed args reply.

Definition run_explain (args : Args) : M unit :=
  prompt_ <- build_explain_prompt (value (explain args)) ;;
  reply <- call_claude (user_message prompt_) DEFAULT_MAX_TOKENS DEFAULT_TEMPERATURE ;;
  write_output_if_needed args reply.

Definition run_fix (args : Args) : M unit :=
  prompt_ <- build_fix_prompt (value (fix_ args)) ;;
  reply <- call_claude (user_message prompt_) DEFAULT_MAX_TOKENS DEFAULT_TEMPERATURE ;;
  write_output_if_needed args reply.

Definition run_refactor (args : Args) : M unit :=
  prompt_ <- build_refactor_prompt (value (refactor args)) ;;
  reply <- call_claude (user_message prompt_) DEFAULT_MAX_TOKENS DEFAULT_TEMPERATURE ;;
  write_output_if_needed args reply.

Definition run_analyze_folder (args : Args) : M unit :=
  prompt_ <- build_folder_analysis_prompt (value (analyze_folder args)) ;;
  reply <- call_claude (user_message prompt_) (max_tokens args) (temperature args) ;;
  write_output_if_needed args reply.

Definition run_project_qa (args : Args) : M unit :=
  prompt_ <- build_project_qa_prompt (value (project_qa args)) (value (question args)) ;;
  reply <- call_claude (user_message prompt_) DEFAULT_MAX_TOKENS DEFAULT_TEMPERATURE ;;
  write_output_if_needed args reply.

Definition run_generate_file (args : Args) : M unit :=
  let prompt_ :=
    "Generate the requested file. Output ONLY valid file content." +:+ nl +:+ nl
    +:+ "User specification:" +:+ nl +:+ value (generate_file args) in
  reply <- call_claude (user_message prompt_) DEFAULT_MAX_TOKENS DEFAULT_TEMPERATURE ;;
  write_output_if_needed args reply.

Definition run_diff (args : Args) : M unit :=
  let '(file_a, file_b) := default ("", "") (diff args) in
  prompt_ <- build_diff_prompt file_a file_b ;;
  reply <- call_claude (user_message prompt_) DEFAULT_MAX_TOKENS DEFAULT_TEMPERATURE ;;
  write_output_if_needed args reply.

(** What differs between the three folder-wide modes: the suffix of the
    output root, the words of the messages, and the prompt builder. *)
Record batch_mode := {
  out_suffix : string;
  info_verb : string;
  warn_line : option string;
  build_prompt : string → M string;
  ok_verb : string;
  done_verb : string }.

Definition fix_mode : batch_mode :=
  {| out_suffix := "_fixed"; info_verb := "Fixing"; warn_line := None;
     build_prompt := build_fix_prompt; ok_verb := "Fixed"; done_verb := "Fixed" |}.

Definition refactor_mode : batch_mode :=
  {| out_suffix := "_refactored"; info_verb := "Refactoring"; warn_line := None;
     build_prompt := build_refactor_prompt; ok_verb := "Refactored";
     done_verb := "Refactored" |}.

Definition rewrite_mode : batch_mode :=
  {| out_suffix := "_rewritten"; info_verb := "REWRITING";
     warn_line :=
       Some ("[WARN] This is an aggressive mode. Resulting code may not be drop-in compatible."
             +:+ nl);
     build_prompt := build_rewrite_prompt; ok_verb := "Rewrote";
     done_verb := "Rewrote" |}.

(** The body of the [for src in iter_code_files(root)] loop. *)
Definition process_file (mode : batch_mode) (args : Args) (root out_root src : path)
    : M unit :=
  rel <- relative_to src root ;;
  let dst := out_root ++ rel in
  mkdir_parents (parent dst) ;;;
  prompt_ <- build_prompt mode (str src) ;;
  reply <- call_claude (user_message prompt_) (max_tokens args) (temperature args) ;;
  write_text dst reply ;;;
  print ("[OK] " +:+ ok_verb mode +:+ " " +:+ str src +:+ " -> " +:+ str dst).

(** The loop itself, threading [count]. *)
Fixpoint process_files (mode : batch_mode) (args : Args) (root out_root : path)
    (files : list path) (count : nat) : M nat :=
  match files with
  | [] => ret count
  | src :: files' =>
      process_file mode args root out_root src ;;;
      process_files mode args root out_root files' (S count)
  end.

Definition done_line (mode : batch_mode) (count : nat) (out_root : path) : string :=
  nl +:+ "[DONE] " +:+ done_verb mode +:+ " " +:+ pretty count
  +:+ " file(s). Output project folder:" +:+ nl +:+ "  " +:+ str out_root +:+ nl.

Definition error_line (root : path) : string :=
  "[ERROR] Folder not found or not a directory: " +:+ str root.

(** [run_fix_folder], [run_refactor_folder] and [run_rewrite_folder] are
    the same text up to the [batch_mode]. *)
Definition run_folder (mode : batch_mode) (folder : string) (args : Args) : M unit :=
  let root := Path folder in
  found <- exists_ root ;;
  isdir <- is_dir root ;;
  if negb found || negb isdir then print (error_line root)
  else
    out_root <- with_name root (name root +:+ out_suffix mode) ;;
    print ("[INFO] " +:+ info_verb mode +:+ " all supported code files in:" +:+ nl
           +:+ "  " +:+ str root +:+ nl +:+ "[INFO] Output folder:" +:+ nl
           +:+ "  " +:+ str out_root +:+ nl) ;;;
    match warn_line mode with Some l => print l | None => ret tt end ;;;
    files <- iter_code_files root ;;
    count <- process_files mode args root out_root files 0 ;;
    print (done_line mode count out_root).

Definition run_fix_folder (args : Args) : M unit :=
  run_folder fix_mode (value (fix_folder args)) args.

Definition run_refactor_folder (args : Args) : M unit :=
  run_folder refactor_mode (value (refactor_folder args)) args.

Definition run_rewrite_folder (args : Args) : M unit :=
  run_folder rewrite_mode (value (rewrite_folder args)) args.

(** ** MAIN *)

Inductive mode :=
  | ModeExplain | ModeFix | ModeRefactor | ModeAnalyzeFolder | ModeProjectQA
  | ModeGenerateFile | ModeDiff
  | ModeFixFolder | ModeRefactorFolder | ModeRewriteFolder | ModeOneShot.

(** The chain of tests in [main]: the first flag that holds wins. *)
Definition select_mode (args : Args) : mode :=
  if truthy (explain args) then ModeExplain
  else if truthy (fix_ args) then ModeFix
  else if truthy (refactor args) then ModeRefactor
  else if truthy (analyze_folder args) then ModeAnalyzeFolder
  else if truthy (project_qa args) && truthy (question args) then ModeProjectQA
  else if truthy (generate_file args) then ModeGenerateFile
  else if bool_decide (is_Some (diff args)) then ModeDiff
  else if truthy (fix_folder args) then ModeFixFolder
  else if truthy (refactor_folder args) then ModeRefactorFolder
  else if truthy (rewrite_folder args) then ModeRewriteFolder
  else ModeOneShot.

Definition run_mode (m : mode) : Args → M unit :=
  match m with
  | ModeExplain => run_explain
  | ModeFix => run_fix
  | ModeRefactor => run_refactor
  | ModeAnalyzeFolder => run_analyze_folder
  | ModeProjectQA => run_project_qa
  | ModeGenerateFile => run_generate_file
  | ModeDiff => run_diff
  | ModeFixFolder => run_fix_folder
  | ModeRefactorFolder => run_refactor_folder
  | ModeRewriteFolder => run_rewrite_folder
  | ModeOneShot => run_one_shot
  end.

Definition main (args : Args) : M unit := run_mode (select_mode args) args.

End Program.

(** * The vocabulary of the properties *)

(** ** Conditions on the file system *)

Definition fs_forall (f : path → node → bool) (m : gmap path node) : bool :=
  forallb (λ pn, f pn.1 pn.2) (map_to_list m).

(** A name a directory entry can have: not empty, not ["."] or [".."], no
    separator inside. *)
Definition valid_name (c : string) : bool :=
  is_component c && negb (String.eqb c "..") && negb (has_char "/" c).

(** Every entry but the current directory lies in a directory and has a
    valid name; the current directory is a directory. *)
Definition well_formed (m : gmap path node) : bool :=
  fs_forall (λ p n,
    match p with
    | [] => match n with Dir => true | File _ => false end
    | _ => is_dir_in m (parent p) && valid_name (name p)
    end) m.

(** Every file below [root] that the batch modes pick up is valid UTF-8. *)
Definition sources_readable (root : path) (m : gmap path node) : bool :=
  fs_forall (λ p n,
    implb (bool_decide (under root p) && has_supported_ext p)
          (match n with File None => false | _ => true end)) m.

(** Nothing exists at [q] or below it. *)
Definition absent (q : path) (m : gmap path node) : bool :=
  fs_forall (λ p _, negb (bool_decide (q `prefix_of` p))) m.

(** The output root of a batch mode: [root.with_name(root.name + suffix)]. *)
Definition output_root (mode : batch_mode) (root : path) : path :=
  parent root ++ [name root +:+ out_suffix mode].

(** The service raises nothing but subclasses of [Exception]. *)
Definition raises_only_Exception (service : nat → request → outcome) : Prop :=
  ∀ n req e, service n req = Raises e → is_Exception (exn_cls e) = true.

(** The service fails on every call. *)
Definition always_fails (service : nat → request → outcome) : Prop :=
  ∀ n req, ∃ e, service n req = Raises e ∧ is_Exception (exn_cls e) = true.

(** The text [call_claude] returns for a failure described by [desc]. *)
Definition error_sentinel (desc : string) : string := "[API ERROR] " +:+ desc.

(** The world after one request has been sent. *)
Definition sent (req : request) (w : world) : world :=
  World (fs w) (cwd w) (stdout w) (calls w ++ [req]).

(** The three folder-wide modes: the function, its parameters, and the
    flag that names the folder. *)
Definition folder_modes (service : nat → request → outcome) (args : Args)
    : list ((Args → M unit) * batch_mode * string) :=
  [ (run_fix_folder service, fix_mode, value (fix_folder args));
    (run_refactor_folder service, refactor_mode, value (refactor_folder args));
    (run_rewrite_folder service, rewrite_mode, value (rewrite_folder args)) ].

(** The output tree mirrors the input tree [m0]: outside the output root
    the file system is as it was; a file below the output root stands at
    the relative path of a supported file of the input and holds a reply
    (of which [P] is known); a directory below the output root stands at
    the relative path of a directory of the input. *)
Definition mirrored (mode : batch_mode) (root : path) (m0 : gmap path node)
    (P : string → Prop) (m : gmap path node) : Prop :=
  (∀ q, ¬ output_root mode root `prefix_of` q → m !! q = m0 !! q) ∧
  (∀ rel t, m !! (output_root mode root ++ rel) = Some (File t) →
     is_file_in m0 (root ++ rel) = true ∧ has_supported_ext (root ++ rel) = true ∧
     ∃ s, t = Some s ∧ P s) ∧
  (∀ rel, m !! (output_root mode root ++ rel) = Some Dir →
     m0 !! (root ++ rel) = Some Dir).

(** The lines a batch run prints before the loop. *)
Definition banner (mode : batch_mode) (root : path) : list string :=
  ("[INFO] " +:+ info_verb mode +:+ " all supported code files in:" +:+ nl
   +:+ "  " +:+ str root +:+ nl +:+ "[INFO] Output folder:" +:+ nl
   +:+ "  " +:+ str (output_root mode root) +:+ nl)
  :: match warn_line mode with Some l => [l] | None => [] end.

(** The progress line of one file. *)
Definition ok_line (mode : batch_mode) (root src rel : path) : string :=
  "[OK] " +:+ ok_verb mode +:+ " " +:+ str src +:+ " -> "
  +:+ str (output_root mode root ++ rel).

(** What kind of node stands at a place. *)
Definition kind_of (o : option node) : option bool :=
  match o with
  | None => None
  | Some Dir => Some true
  | Some (File _) => Some false
  end.

(** Two file systems with the same nodes, up to the text of the files
    below [out]. *)
Definition similar (out : path) (m1 m2 : gmap path node) : Prop :=
  ∀ q, kind_of (m1 !! q) = kind_of (m2 !! q) ∧
       (¬ out `prefix_of` q → m1 !! q = m2 !! q).

(** Two worlds that differ in the text of the files below [out] only. *)
Definition alike (out : path) (w1 w2 : world) : Prop :=
  similar out (fs w1) (fs w2) ∧ cwd w1 = cwd w2 ∧
  stdout w1 = stdout w2 ∧ calls w1 = calls w2.

(** ** Requests *)

(** A computation that leaves the world as it is. *)
Definition reads_only {A} (m : M A) : Prop :=
  ∀ w r w', m w = (r, w') → w' = w.

(** A computation that sends no request. *)
Definition silent {A} (m : M A) : Prop :=
  ∀ w r w', m w = (r, w') → calls w' = calls w.

(** The shape of the modes that send one request. *)
Definition single_call (service : nat → request → outcome) (build : M string)
    (mt : Z) (t : Q) (args : Args) : M unit :=
  prompt_ <- build ;;
  reply <- call_claude service (user_message prompt_) mt t ;;
  write_output_if_needed args reply.

(** The modes that send one request, with the sampling parameters their
    request carries. *)
Definition single_call_modes (service : nat → request → outcome) (args : Args)
    : list ((Args → M unit) * Z * Q) :=
  [ (run_one_shot service, max_tokens args, temperature args);
    (run_analyze_folder service, max_tokens args, temperature args);
    (run_explain service, DEFAULT_MAX_TOKENS, DEFAULT_TEMPERATURE);
    (run_fix service, DEFAULT_MAX_TOKENS, DEFAULT_TEMPERATURE);
    (run_refactor service, DEFAULT_MAX_TOKENS, DEFAULT_TEMPERATURE);
    (run_project_qa service, DEFAULT_MAX_TOKENS, DEFAULT_TEMPERATURE);
    (run_generate_file service, DEFAULT_MAX_TOKENS, DEFAULT_TEMPERATURE);
    (run_diff service, DEFAULT_MAX_TOKENS, DEFAULT_TEMPERATURE) ].

(** ** Prompts and listings *)

(** The files the listing names. *)
Definition listed_files (root : path) (m : gmap path node) : list path :=
  List.filter (is_file_in m) (entries_under root m).

(** The sentence of the rewrite directive, without its newline. *)
Definition DIRECTIVE_SENTENCE : string :=
  "Now output ONLY the full rewritten file content.".

(** [s[:-1]] *)
Fixpoint chop (s : string) : string :=
  match s with
  | "" => ""
  | String c s' => match s' with "" => "" | _ => String c (chop s') end
  end.

(** The text both templates put after the header. *)
Definition content_block (path_ text : string) : string :=
  "File path: " +:+ path_ +:+ nl +:+ nl
  +:+ "Current content:" +:+ nl
  +:+ "----------------" +:+ nl
  +:+ text +:+ nl
  +:+ "----------------" +:+ nl.

(** ** Command lines *)

(** The command line with the [--project-qa] flag taken away. *)
Definition without_project_qa (args : Args) : Args :=
  {| prompt := prompt args; file := file args; explain := explain args;
     fix_ := fix_ args; refactor := refactor args;
     analyze_folder := analyze_folder args; project_qa := None;
     question := question args; generate_file := generate_file args;
     diff := diff args; fix_folder := fix_folder args;
     refactor_folder := refactor_folder args;
     rewrite_folder := rewrite_folder args; out := out args;
     max_tokens := max_tokens args; temperature := temperature args |}.

(** The sampling parameters of the requests a run has sent. *)
Definition sampling_of (rw : result unit * world) : list (Z * Q) :=
  map (λ r, (req_max_tokens r, req_temperature r)) (calls rw.2).

(** ** Sample worlds and services *)

Definition failing_service (n : nat) (_ : request) : outcome :=
  Raises (Exn RateLimitError ("rate limit exceeded (call " +:+ pretty n +:+ ")")).

Definition echo_service (_ : nat) (_ : request) : outcome :=
  Returns (Response [TextBlock "OK"]).

Definition sample_fs : gmap path node :=
  list_to_map
    [ ([], Dir);
      (["proj"], Dir);
      (["proj"; "a.py"], File (Some "print(1)"));
      (["proj"; "sub"], Dir);
      (["proj"; "sub"; "b.KT"], File (Some "fun main() {}"));
      (["proj"; "sub"; "notes.txt"], File (Some "hello"));
      (["proj"; "sub"; "empty"], Dir) ].

Definition sample_world : world := World sample_fs "/home/user" [] [].

(** A tree with a source file that is not valid UTF-8. *)
Definition latin1_fs : gmap path node :=
  list_to_map
    [ ([], Dir);
      (["legacy"], Dir);
      (["legacy"; "main.c"], File None) ].

Definition latin1_world : world := World latin1_fs "/home/user" [] [].

(** A carriage return. *)
Definition cr : string := String "013" "".

(** A file with the line ends of DOS, the last one a lone carriage
    return. *)
Definition crlf_fs : gmap path node :=
  list_to_map
    [ ([], Dir);
      (["dos.py"], File (Some ("a = 1" +:+ cr +:+ nl +:+ "b = 2" +:+ cr))) ].

Definition crlf_world : world := World crlf_fs "/home/user" [] [].

(** A file whose text is the last line of the rewrite template. *)
Definition directive_fs : gmap path node :=
  list_to_map
    [ ([], Dir);
      (["a.py"], File (Some ("Now output ONLY the full rewritten file content." +:+ nl))) ].

Definition directive_world : world := World directive_fs "/home/user" [] [].

Definition qa_without_question : Args :=
  {| prompt := Some "what does this do?"; file := None; explain := None;
     fix_ := None; refactor := None; analyze_folder := None;
     project_qa := Some "proj"; question := None; generate_file := None;
     diff := None; fix_folder := None; refactor_folder := None;
     rewrite_folder := None; out := None; max_tokens := 4096;
     temperature := 1 # 10 |}.

(** [--project-qa proj --generate-file "a Makefile"], no [--question]. *)
Definition qa_then_generate : Args :=
  {| prompt := None; file := None; explain := None;
     fix_ := None; refactor := None; analyze_folder := None;
     project_qa := Some "proj"; question := None;
     generate_file := Some "a Makefile"; diff := Some ("proj/a.py", "proj/a.py");
     fix_folder := Some "proj"; refactor_folder := None;
     rewrite_folder := None; out := None; max_tokens := 4096;
     temperature := 1 # 10 |}.

(** [--project-qa proj --fix-folder proj --rewrite-folder proj], no
    [--question]. *)
Definition qa_then_fix_folder : Args :=
  {| prompt := Some "hello"; file := None; explain := None;
     fix_ := None; refactor := None; analyze_folder := None;
     project_qa := Some "proj"; question := None;
     generate_file := None; diff := None;
     fix_folder := Some "proj"; refactor_folder := None;
     rewrite_folder := Some "proj"; out := None; max_tokens := 4096;
     temperature := 1 # 10 |}.

Definition fix_missing_folder : Args :=
  {| prompt := None; file := None; explain := None; fix_ := None;
     refactor := None; analyze_folder := None; project_qa := None;
     question := None; generate_file := None; diff := None;
     fix_folder := Some "nowhere"; refactor_folder := None;
     rewrite_folder := None; out := None; max_tokens := 4096;
     temperature := 1 # 10 |}.

Definition explain_with_flags : Args :=
  {| prompt := None; file := None; explain := Some "proj/a.py"; fix_ := None;
     refactor := None; analyze_folder := None; project_qa := None;
     question := None; generate_file := None; diff := None;
     fix_folder := None; refactor_folder := None; rewrite_folder := None;
     out := None; max_tokens := 100; temperature := 7 # 10 |}.

Definition analyze_with_flags : Args :=
  {| prompt := None; file := None; explain := None; fix_ := None;
     refactor := None; analyze_folder := Some "proj"; project_qa := None;
     question := None; generate_file := None; diff := None;
     fix_folder := None; refactor_folder := None; rewrite_folder := None;
     out := None; max_tokens := 100; temperature := 7 # 10 |}.

Definition fix_proj : Args :=
  {| prompt := None; file := None; explain := None; fix_ := None;
     refactor := None; analyze_folder := None; project_qa := None;
     question := None; generate_file := None; diff := None;
     fix_folder := Some "proj"; refactor_folder := None;
     rewrite_folder := None; out := None; max_tokens := 4096;
     temperature := 1 # 10 |}.

Definition fix_legacy : Args :=
  {| prompt := None; file := None; explain := None; fix_ := None;
     refactor := None; analyze_folder := None; project_qa := None;
     question := None; generate_file := None; diff := None;
     fix_folder := Some "legacy"; refactor_folder := None;
     rewrite_folder := None; out := None; max_tokens := 4096;
     temperature := 1 # 10 |}.

(** ** Requests of a run *)

(** A computation whose requests all satisfy [Q]: it extends the log of
    requests, and only by requests that satisfy [Q]. *)
Definition sends {A} (Q : request → Prop) (m : M A) : Prop :=
  ∀ w r w', m w = (r, w') → ∃ new, calls w' = calls w ++ new ∧ Forall Q new.

(** The same with at most one request. *)
Definition sends_once {A} (Q : request → Prop) (m : M A) : Prop :=
  ∀ w r w', m w = (r, w') →
    ∃ new, calls w' = calls w ++ new ∧ Forall Q new ∧ length new ≤ 1.

(** A request for the model of the configuration that holds exactly one
    message, of role ["user"]. *)
Definition well_addressed (q : request) : Prop :=
  model q = MODEL_NAME ∧
  ∃ prompt_, messages q = [ {| role := "user"; content := prompt_ |} ].

(** A request that carries the sampling parameters [mt] and [t]. *)
Definition sampled (mt : Z) (t : Q) (q : request) : Prop :=
  well_addressed q ∧ req_max_tokens q = mt ∧ req_temperature q = t.

(** The modes that send one request: the function, the prompt it builds,
    and the sampling parameters of its request. *)
Definition single_modes (service : nat → request → outcome) (args : Args)
    : list ((Args → M unit) * M string * Z * Q) :=
  [ (run_one_shot service, build_single_prompt args,
     max_tokens args, temperature args);
    (run_explain service, build_explain_prompt (value (explain args)),
     DEFAULT_MAX_TOKENS, DEFAULT_TEMPERATURE);
    (run_fix service, build_fix_prompt (value (fix_ args)),
     DEFAULT_MAX_TOKENS, DEFAULT_TEMPERATURE);
    (run_refactor service, build_refactor_prompt (value (refactor args)),
     DEFAULT_MAX_TOKENS, DEFAULT_TEMPERATURE);
    (run_analyze_folder service,
     build_folder_analysis_prompt (value (analyze_folder args)),
     max_tokens args, temperature args);
    (run_project_qa service,
     build_project_qa_prompt (value (project_qa args)) (value (question args)),
     DEFAULT_MAX_TOKENS, DEFAULT_TEMPERATURE);
    (run_generate_file service,
     ret ("Generate the requested file. Output ONLY valid file content." +:+ nl +:+ nl
          +:+ "User specification:" +:+ nl +:+ value (generate_file args)),
     DEFAULT_MAX_TOKENS, DEFAULT_TEMPERATURE);
    (run_diff service,
     build_diff_prompt (default ("", "") (diff args)).1 (default ("", "") (diff args)).2,
     DEFAULT_MAX_TOKENS, DEFAULT_TEMPERATURE) ].

(** The modes that read one file, with the flag that names it; one-shot
    mode is among them when [--file] is given. *)
Definition file_modes (service : nat → request → outcome) (args : Args)
    : list ((Args → M unit) * string) :=
  [ (run_explain service, value (explain args));
    (run_fix service, value (fix_ args));
    (run_refactor service, value (refactor args)) ]
  ++ (if truthy (file args) then [(run_one_shot service, value (file args))] else []).

(** The batch modes among the modes of [main]. *)
Definition batch_modes : list mode :=
  [ModeFixFolder; ModeRefactorFolder; ModeRewriteFolder].

(** ** What a run keeps *)

(** A computation that maintains [Inv], whether it returns or raises. *)
Definition preserves {A : Type} (Inv : world → Prop) (m : M A) : Prop :=
  ∀ w r w', m w = (r, w') → Inv w → Inv w'.

(** Outside [out], the file system [m] is [m0]. *)
Definition unchanged_outside (out : path) (m0 m : gmap path node) : Prop :=
  ∀ q, ¬ out `prefix_of` q → m !! q = m0 !! q.

(** ** Languages and templates *)

(** The languages for which the templates have a branch of their own. *)
Definition HEADER_LANGUAGES : list string :=
  [ "python"; "cpp"; "java"; "kotlin"; "javascript"; "typescript"; "html"; "css" ].

(** ** Further command lines *)

Definition explain_a : Args :=
  {| prompt := None; file := None; explain := Some "proj/a.py"; fix_ := None;
     refactor := None; analyze_folder := None; project_qa := None;
     question := None; generate_file := None; diff := None;
     fix_folder := None; refactor_folder := None; rewrite_folder := None;
     out := None; max_tokens := 4096; temperature := 1 # 10 |}.

Definition explain_missing : Args :=
  {| prompt := None; file := None; explain := Some "proj/missing.py"; fix_ := None;
     refactor := None; analyze_folder := None; project_qa := None;
     question := None; generate_file := None; diff := None;
     fix_folder := None; refactor_folder := None; rewrite_folder := None;
     out := None; max_tokens := 4096; temperature := 1 # 10 |}.

Definition explain_to_file : Args :=
  {| prompt := None; file := None; explain := Some "proj/a.py"; fix_ := None;
     refactor := None; analyze_folder := None; project_qa := None;
     question := None; generate_file := None; diff := None;
     fix_folder := None; refactor_folder := None; rewrite_folder := None;
     out := Some "notes/a/explained.md"; max_tokens := 4096; temperature := 1 # 10 |}.

Definition explain_to_directory : Args :=
  {| prompt := None; file := None; explain := Some "proj/a.py"; fix_ := None;
     refactor := None; analyze_folder := None; project_qa := None;
     question := None; generate_file := None; diff := None;
     fix_folder := None; refactor_folder := None; rewrite_folder := None;
     out := Some "proj/sub"; max_tokens := 4096; temperature := 1 # 10 |}.

(** The prompt of [--explain proj/a.py] in the sample world. *)
Definition explain_a_prompt : string :=
  "Explain the following file in full detail:" +:+ nl
  +:+ "- overall purpose" +:+ nl
  +:+ "- key functions/classes" +:+ nl
  +:+ "- how data flows" +:+ nl
  +:+ "- important design decisions" +:+ nl
  +:+ "- potential pitfalls" +:+ nl +:+ nl
  +:+ "Path: proj/a.py" +:+ nl +:+ nl
  +:+ "print(1)".

Definition diff_a_b : Args :=
  {| prompt := None; file := None; explain := None; fix_ := None;
     refactor := None; analyze_folder := None; project_qa := None;
     question := None; generate_file := None;
     diff := Some ("proj/a.py", "proj/sub/notes.txt");
     fix_folder := None; refactor_folder := None; rewrite_folder := None;
     out := None; max_tokens := 4096; temperature := 1 # 10 |}.

Definition analyze_missing : Args :=
  {| prompt := None; file := None; explain := None; fix_ := None;
     refactor := None; analyze_folder := Some "nowhere"; project_qa := None;
     question := None; generate_file := None; diff := None;
     fix_folder := None; refactor_folder := None; rewrite_folder := None;
     out := None; max_tokens := 4096; temperature := 1 # 10 |}.

Definition fix_here : Args :=
  {| prompt := None; file := None; explain := None; fix_ := None;
     refactor := None; analyze_folder := None; project_qa := None;
     question := None; generate_file := None; diff := None;
     fix_folder := Some "./"; refactor_folder := None;
     rewrite_folder := None; out := None; max_tokens := 4096;
     temperature := 1 # 10 |}.

(** ** The replies, the prompts and the samples of the later properties *)

(** What [call_claude] returns for an outcome of the service that it does
    not let through: the text of the first block, or the error sentinel. *)
Definition reply_of (o : outcome) : string :=
  match o with
  | Returns r =>
      match blocks r with
      | TextBlock t :: _ => t
      | OtherBlock cls :: _ =>
          "[API ERROR] '" +:+ cls +:+ "' object has no attribute 'text'"
      | [] => "[API ERROR] list index out of range"
      end
  | Raises e => "[API ERROR] " +:+ exn_str e
  end.

(** The three batch modes with the word of their summary line. *)
Definition folder_modes_verbs (service : nat → request → outcome) (args : Args)
    : list ((Args → M unit) * batch_mode * string * string) :=
  [ (run_fix_folder service, fix_mode, value (fix_folder args), "Fixed");
    (run_refactor_folder service, refactor_mode, value (refactor_folder args),
     "Refactored");
    (run_rewrite_folder service, rewrite_mode, value (rewrite_folder args),
     "Rewrote") ].

(** The prompt of analyze-folder for the folder rendered as [root], when
    no file is listed: the template of the source with an empty list. *)
Definition analysis_prompt_without_files (root : string) : string :=
  "You are a principal-level software architect." +:+ nl
  +:+ "Analyze the ENTIRE project located at:" +:+ nl +:+ root +:+ nl +:+ nl
  +:+ "Files included:" +:+ nl +:+ nl +:+ nl
  +:+ "For EVERY important code file, provide:" +:+ nl
  +:+ "- purpose summary" +:+ nl
  +:+ "- logic explanation" +:+ nl
  +:+ "- major bugs or risks" +:+ nl
  +:+ "- inefficiencies" +:+ nl
  +:+ "- weak architecture" +:+ nl
  +:+ "- security issues" +:+ nl
  +:+ "- dead code" +:+ nl
  +:+ "- concrete refactor recommendations" +:+ nl +:+ nl
  +:+ "Then propose:" +:+ nl
  +:+ "- improved folder structure" +:+ nl
  +:+ "- improved module boundaries" +:+ nl
  +:+ "- improved architecture" +:+ nl
  +:+ "- cleanup and modernization plan" +:+ nl.

(** The prompt of project-qa, when no file is listed. *)
Definition qa_prompt_without_files (root question_ : string) : string :=
  "You are an expert senior engineer. Answer questions about this codebase."
  +:+ nl +:+ nl
  +:+ "Project root: " +:+ root +:+ nl +:+ nl
  +:+ "Files:" +:+ nl +:+ nl +:+ nl
  +:+ "User question:" +:+ nl +:+ question_.

(** The two modes over a folder that have no guard: the function, the
    folder, the prompt it sends when no file is listed, and the sampling
    parameters of its request. *)
Definition unguarded_modes (service : nat → request → outcome) (args : Args)
    : list ((Args → M unit) * string * string * Z * Q) :=
  [ (run_analyze_folder service, value (analyze_folder args),
     analysis_prompt_without_files (str (Path (value (analyze_folder args)))),
     max_tokens args, temperature args);
    (run_project_qa service, value (project_qa args),
     qa_prompt_without_files (str (Path (value (project_qa args))))
       (value (question args)),
     DEFAULT_MAX_TOKENS, DEFAULT_TEMPERATURE) ].

(** What a request shows of itself: the model, the sampling parameters
    and the roles of its messages. *)
Definition envelope (q : request) : string * Z * Q * list string :=
  (model q, req_max_tokens q, req_temperature q, map role (messages q)).

(** [--fix-folder proj --max-tokens 100 --temperature 0.7] *)
Definition fix_proj_with_flags : Args :=
  {| prompt := None; file := None; explain := None; fix_ := None;
     refactor := None; analyze_folder := None; project_qa := None;
     question := None; generate_file := None; diff := None;
     fix_folder := Some "proj"; refactor_folder := None;
     rewrite_folder := None; out := None; max_tokens := 100;
     temperature := 7 # 10 |}.

(** A service that numbers its replies. *)
Definition counting_service (n : nat) (_ : request) : outcome :=
  Returns (Response [TextBlock ("reply " +:+ pretty n)]).

(** A tree in which one of three sources is not valid UTF-8. *)
Definition mixed_fs : gmap path node :=
  list_to_map
    [ ([], Dir);
      (["mixed"], Dir);
      (["mixed"; "a.py"], File (Some "print(1)"));
      (["mixed"; "b.py"], File None);
      (["mixed"; "c.py"], File (Some "print(3)")) ].

Definition mixed_world : world := World mixed_fs "/home/user" [] [].

Definition fix_mixed : Args :=
  {| prompt := None; file := None; explain := None; fix_ := None;
     refactor := None; analyze_folder := None; project_qa := None;
     question := None; generate_file := None; diff := None;
     fix_folder := Some "mixed"; refactor_folder := None;
     rewrite_folder := None; out := None; max_tokens := 4096;
     temperature := 1 # 10 |}.

(** * Properties *)

(** ** The language classifier *)

Example detect_language_examples :
  detect_language (Path "src/Main.KT") = "kotlin" ∧
  detect_language (Path "a/b/index.html") = "html" ∧
  detect_language (Path "Makefile") = "text" ∧
  detect_language (Path ".py") = "text" ∧
  detect_language (Path "archive.tar.gz") = "text" ∧
  detect_language (Path "x.") = "text".
Proof. vm_compute. repeat split. Qed.

(** The keys of the table are the supported extensions. *)
Lemma language_table_keys : language_table.*1 = SUPPORTED_EXTS.
Proof. reflexivity. Qed.

Lemma language_table_tags ext tag :
  table_lookup ext language_table = Some tag → tag ∈ language_tags.
Proof.
  unfold language_table, language_tags; cbn [table_lookup].
  repeat (destruct (String.eqb ext _);
          [intros [= <-]; rewrite list_elem_of_In; cbn; tauto|]).
  discriminate.
Qed.

(** The chain of tests is the lookup in the table, for any extension. *)
Lemma detect_language_by_ext (p : path) :
  detect_language p
  = default "text" (table_lookup (lower (suffix p)) language_table).
Proof.
  unfold detect_language, language_table, in_strs.
  generalize (lower (suffix p)); intros ext.
  cbn [existsb table_lookup].
  repeat (destruct (String.eqb ext _); [reflexivity|cbn [orb]]).
  reflexivity.
Qed.

(** C4. The classifier is a total function of the path (a definition by
    cases, with no effect on the world): when the lower-cased extension is
    in the static table the result is the table's tag, one of the fifteen
    language tags; when the extension is not in the table, and in
    particular when the name has no extension, the result is ["text"]. *)
Theorem detect_language_total (p : path) :
  (∀ tag, table_lookup (lower (suffix p)) language_table = Some tag →
          detect_language p = tag ∧ tag ∈ language_tags) ∧
  (table_lookup (lower (suffix p)) language_table = None →
   detect_language p = "text") ∧
  (suffix p = "" → detect_language p = "text").
Proof.
  rewrite detect_language_by_ext. split; [|split].
  - intros tag Htag. rewrite Htag. split; [done|].
    by eapply language_table_tags.
  - by intros ->.
  - by intros ->.
Qed.

(** The classifier on [src/Main.KT]. *)
Lemma detect_language_total_witness :
  detect_language ["src"; "Main.KT"] = "kotlin" ∧ "kotlin" ∈ language_tags.
Proof.
  apply (proj1 (detect_language_total ["src"; "Main.KT"]) "kotlin").
  reflexivity.
Defined.

(** ** The completion client *)

Section Client.
Variable service : nat → request → outcome.

(** What [call_claude] does, by cases on what the service does. *)
Lemma call_claude_cases msgs mt temp w :
  let req := Request MODEL_NAME mt temp msgs in
  call_claude service msgs mt temp w =
  match service (length (calls w)) req with
  | Raises e =>
      if is_Exception (exn_cls e)
      then (Ok (error_sentinel (exn_str e)), sent req w)
      else (Raised e, sent req w)
  | Returns r =>
      match blocks r with
      | [] => (Ok (error_sentinel "list index out of range"), sent req w)
      | TextBlock t :: _ => (Ok t, sent req w)
      | OtherBlock cls :: _ =>
          (Ok (error_sentinel ("'" +:+ cls +:+ "' object has no attribute 'text'")),
           sent req w)
      end
  end.
Proof.
  intros req.
  unfold call_claude, try_except, bind, messages_create, first_block, block_text.
  fold req. destruct (service (length (calls w)) req) as [[bs]|e]; cbn.
  - destruct bs as [|[t|cls] bs]; reflexivity.
  - reflexivity.
Qed.

(** C2. Whatever failure the service call raises (any subclass of
    [Exception]: authentication, rate limit, connection, status), and
    whenever the reply is malformed (no block, or a first block without
    text), [call_claude] returns normally a string made of the error marker
    followed by the description of the failure; when the reply starts with
    a text block it returns that block's text.  It never raises an
    [Exception] itself. *)
Theorem call_claude_fail_soft msgs mt temp w :
  let req := Request MODEL_NAME mt temp msgs in
  (∀ e, service (length (calls w)) req = Raises e →
        is_Exception (exn_cls e) = true →
        call_claude service msgs mt temp w
        = (Ok ("[API ERROR] " +:+ exn_str e), sent req w)) ∧
  (∀ r, service (length (calls w)) req = Returns r →
        (∀ t bs, blocks r ≠ TextBlock t :: bs) →
        ∃ desc, call_claude service msgs mt temp w
                = (Ok ("[API ERROR] " +:+ desc), sent req w)) ∧
  (∀ r t bs, service (length (calls w)) req = Returns r →
        blocks r = TextBlock t :: bs →
        call_claude service msgs mt temp w = (Ok t, sent req w)) ∧
  (∀ e w', call_claude service msgs mt temp w = (Raised e, w') →
        is_Exception (exn_cls e) = false).
Proof.
  intros req. pose proof (call_claude_cases msgs mt temp w) as H.
  cbv zeta in H. fold req in H. repeat split.
  - intros e He Hexc. by rewrite H, He, Hexc.
  - intros r Hr Hbad. rewrite H, Hr.
    destruct (blocks r) as [|[t|cls] bs]; [by eexists| |by eexists].
    by destruct (Hbad t bs).
  - intros r t bs Hr Hb. by rewrite H, Hr, Hb.
  - intros e w'. rewrite H.
    destruct (service _ req) as [r|e0].
    + by destruct (blocks r) as [|[t|cls] bs].
    + destruct (is_Exception (exn_cls e0)) eqn:E; [done|]. by intros [= <- _].
Qed.

End Client.

(** A rate-limit failure, captured. *)
Lemma call_claude_fail_soft_witness :
  call_claude failing_service (user_message "hi") 4096 (1 # 10) sample_world
  = (Ok "[API ERROR] rate limit exceeded (call 0)",
     sent (Request MODEL_NAME 4096 (1 # 10) (user_message "hi")) sample_world).
Proof.
  apply (proj1 (call_claude_fail_soft failing_service (user_message "hi")
                  4096 (1 # 10) sample_world)
               (Exn RateLimitError "rate limit exceeded (call 0)"));
    reflexivity.
Defined.

(** ** Mode selection *)

(** C10. With [--project-qa] but no [--question], project-QA mode is not
    selected, whatever else the command line holds: the selection is the
    one made without the [--project-qa] flag.  When none of the four
    earlier tests ([--explain], [--fix], [--refactor], [--analyze-folder])
    holds, the tests that come after the one of project-QA decide, in their
    order: [--generate-file], then [--diff], then [--fix-folder], then
    [--refactor-folder], then [--rewrite-folder]; and when none of them
    holds either, the invocation runs in one-shot mode. *)
Theorem project_qa_needs_question service (args : Args) :
  question args = None →
  select_mode args ≠ ModeProjectQA ∧
  select_mode args = select_mode (without_project_qa args) ∧
  (truthy (explain args) = false → truthy (fix_ args) = false →
   truthy (refactor args) = false → truthy (analyze_folder args) = false →
   (truthy (generate_file args) = true →
      select_mode args = ModeGenerateFile ∧
      main service args = run_generate_file service args) ∧
   (truthy (generate_file args) = false →
      (is_Some (diff args) →
         select_mode args = ModeDiff ∧ main service args = run_diff service args) ∧
      (diff args = None →
         (truthy (fix_folder args) = true →
            select_mode args = ModeFixFolder ∧
            main service args = run_fix_folder service args) ∧
         (truthy (fix_folder args) = false →
            (truthy (refactor_folder args) = true →
               select_mode args = ModeRefactorFolder ∧
               main service args = run_refactor_folder service args) ∧
            (truthy (refactor_folder args) = false →
               (truthy (rewrite_folder args) = true →
                  select_mode args = ModeRewriteFolder ∧
                  main service args = run_rewrite_folder service args) ∧
               (truthy (rewrite_folder args) = false →
                  select_mode args = ModeOneShot ∧
                  main service args = run_one_shot service args)))))).
Proof.
  intros Hq. unfold main, select_mode. cbn. rewrite Hq. cbn.
  rewrite andb_false_r. split; [|split].
  - destruct (truthy (explain args)); [done|].
    destruct (truthy (fix_ args)); [done|].
    destruct (truthy (refactor args)); [done|].
    destruct (truthy (analyze_folder args)); [done|].
    destruct (truthy (generate_file args)); [done|].
    destruct (bool_decide (is_Some (diff args))); [done|].
    destruct (truthy (fix_folder args)); [done|].
    destruct (truthy (refactor_folder args)); [done|].
    destruct (truthy (rewrite_folder args)); done.
  - done.
  - intros -> -> -> ->. split.
    { by intros ->. }
    intros ->. split.
    { intros Hd. by rewrite bool_decide_eq_true_2. }
    intros ->. rewrite bool_decide_eq_false_2 by (by intros [? [=]]). split.
    { by intros ->. }
    intros ->. split.
    { by intros ->. }
    intros ->. split; by intros ->.
Qed.

(** [--project-qa proj] without [--question]: with a positional prompt
    the run is a one-shot run; with [--generate-file] it is a run of
    generate-file, the first of the later tests; with [--fix-folder] it is
    a run of fix-folder. *)
Lemma project_qa_needs_question_witness :
  (select_mode qa_without_question ≠ ModeProjectQA ∧
   select_mode qa_without_question = ModeOneShot ∧
   main echo_service qa_without_question = run_one_shot echo_service qa_without_question) ∧
  (select_mode qa_then_generate ≠ ModeProjectQA ∧
   select_mode qa_then_generate = ModeGenerateFile ∧
   main echo_service qa_then_generate = run_generate_file echo_service qa_then_generate) ∧
  (select_mode qa_then_fix_folder ≠ ModeProjectQA ∧
   select_mode qa_then_fix_folder = ModeFixFolder ∧
   main echo_service qa_then_fix_folder = run_fix_folder echo_service qa_then_fix_folder).
Proof.
  destruct (project_qa_needs_question echo_service qa_without_question eq_refl)
    as (H1 & _ & H3).
  destruct (project_qa_needs_question echo_service qa_then_generate eq_refl)
    as (G1 & _ & G3).
  destruct (project_qa_needs_question echo_service qa_then_fix_folder eq_refl)
    as (F1 & _ & F3).
  split; [|split].
  - split; [exact H1|].
    destruct (H3 eq_refl eq_refl eq_refl eq_refl) as [_ H].
    destruct (H eq_refl) as [_ H']. destruct (H' eq_refl) as [_ H''].
    destruct (H'' eq_refl) as [_ K]. destruct (K eq_refl) as [_ K'].
    exact (K' eq_refl).
  - split; [exact G1|].
    destruct (G3 eq_refl eq_refl eq_refl eq_refl) as [G _]. exact (G eq_refl).
  - split; [exact F1|].
    destruct (F3 eq_refl eq_refl eq_refl eq_refl) as [_ F].
    destruct (F eq_refl) as [_ F']. destruct (F' eq_refl) as [F'' _].
    exact (F'' eq_refl).
Defined.

(** ** The guard of the batch modes *)

Section Guard.
Variable service : nat → request → outcome.

Lemma run_folder_guard mode folder args w :
  fs w !! Path folder ≠ Some Dir →
  run_folder service mode folder args w
  = (Ok tt, World (fs w) (cwd w) (stdout w ++ [error_line (Path folder)]) (calls w)).
Proof.
  intros Hnd. unfold run_folder, bind, exists_, is_dir, is_dir_in.
  destruct (fs w !! Path folder) as [[|t]|] eqn:E.
  - done.
  - rewrite bool_decide_eq_true_2 by eauto. reflexivity.
  - rewrite bool_decide_eq_false_2 by (intros [? [=]]). reflexivity.
Qed.

(** C9. When the root of a batch mode does not exist or is not a
    directory, [run_fix_folder], [run_refactor_folder] and
    [run_rewrite_folder] return normally after printing one error line:
    the file system is unchanged (no output root, no output file) and no
    request is sent to the completion service. *)
Theorem batch_guard (args : Args) (w : world) (run : Args → M unit) (folder : string) :
  (run, folder) ∈ [ (run_fix_folder service, value (fix_folder args));
                    (run_refactor_folder service, value (refactor_folder args));
                    (run_rewrite_folder service, value (rewrite_folder args)) ] →
  fs w !! Path folder = None ∨ (∃ t, fs w !! Path folder = Some (File t)) →
  ∃ w', run args w = (Ok tt, w') ∧
        fs w' = fs w ∧ calls w' = calls w ∧
        stdout w' = stdout w ++ [error_line (Path folder)].
Proof.
  intros Hrun Hbad.
  assert (fs w !! Path folder ≠ Some Dir) as Hnd.
  { destruct Hbad as [->|[t ->]]; discriminate. }
  rewrite !elem_of_cons, elem_of_nil in Hrun.
  destruct Hrun as [[= -> ->]|[[= -> ->]|[[= -> ->]|[]]]];
    (eexists; split; [by apply run_folder_guard|done]).
Qed.

End Guard.

(** [--fix-folder nowhere]. *)
Lemma batch_guard_witness :
  ∃ w', run_fix_folder echo_service fix_missing_folder sample_world = (Ok tt, w') ∧
        fs w' = fs sample_world ∧ calls w' = calls sample_world ∧
        stdout w' = ["[ERROR] Folder not found or not a directory: nowhere"].
Proof.
  apply (batch_guard echo_service fix_missing_folder sample_world
           (run_fix_folder echo_service) "nowhere").
  - apply list_elem_of_here.
  - left. reflexivity.
Defined.

(** Membership in an explicit list, after evaluation. *)
Ltac in_list := repeat first [left; reflexivity | right].
Ltac not_in_list :=
  let H := fresh in
  intros H; repeat (destruct H as [H|H]; [discriminate H|]); exact H.

(** ** Strings: concatenation, suffixes and occurrences *)

Lemma str_app_cons (x : ascii) (a b : string) :
  String x a +:+ b = String x (a +:+ b).
Proof. reflexivity. Qed.

Lemma str_app_assoc (a b c : string) : (a +:+ b) +:+ c = a +:+ b +:+ c.
Proof. induction a as [|x a IH]; [done|]. by rewrite !str_app_cons, IH. Qed.

Lemma str_app_nil_r (a : string) : a +:+ "" = a.
Proof. induction a as [|x a IH]; [done|]. by rewrite str_app_cons, IH. Qed.

Lemma str_app_length (a b : string) :
  String.length (a +:+ b) = String.length a + String.length b.
Proof. induction a as [|x a IH]; [done|]. rewrite str_app_cons. cbn. by rewrite IH. Qed.

Lemma endswith_spec (suffix_ s : string) :
  endswith suffix_ s = true ↔ ∃ pre, s = pre +:+ suffix_.
Proof.
  induction s as [|c s IH]; cbn.
  - rewrite orb_false_r, String.eqb_eq. split.
    + intros ->. by exists "".
    + intros [[|??] H]; [done|discriminate].
  - rewrite orb_true_iff, String.eqb_eq, IH. split.
    + intros [->|[pre ->]]; [by exists ""|by exists (String c pre)].
    + intros [[|x pre] H]; cbn in H; [by left|].
      injection H as -> ->. right. by exists pre.
Qed.

Lemma endswith_app (pre suffix_ : string) : endswith suffix_ (pre +:+ suffix_) = true.
Proof. apply endswith_spec. by exists pre. Qed.

(** The file system's entries below a root. *)
Lemma elem_of_entries_under (root : path) (m : gmap path node) (p : path) :
  p ∈ entries_under root m ↔ under root p ∧ is_Some (m !! p).
Proof.
  unfold entries_under. rewrite list_elem_of_filter, list_elem_of_fmap.
  split.
  - intros [Hu [[q n] [-> Hin]]]. apply elem_of_map_to_list in Hin. eauto.
  - intros [Hu [n Hn]]. split; [done|]. exists (p, n). split; [done|].
    by apply elem_of_map_to_list.
Qed.

Lemma NoDup_entries_under (root : path) (m : gmap path node) : NoDup (entries_under root m).
Proof. apply NoDup_filter, NoDup_fst_map_to_list. Qed.

Lemma elem_of_List_filter {A} (f : A → bool) (l : list A) x :
  x ∈ List.filter f l ↔ x ∈ l ∧ f x = true.
Proof. rewrite !list_elem_of_In. apply filter_In. Qed.

Lemma NoDup_List_filter {A} (f : A → bool) (l : list A) :
  NoDup l → NoDup (List.filter f l).
Proof.
  induction 1 as [|x l Hx Hl IH]; cbn; [constructor|].
  destruct (f x) eqn:E; [|done]. constructor; [|done].
  rewrite elem_of_List_filter. tauto.
Qed.

Lemma is_file_in_spec (m : gmap path node) (p : path) :
  is_file_in m p = true ↔ ∃ t, m !! p = Some (File t).
Proof.
  unfold is_file_in. destruct (m !! p) as [[|t]|]; split;
    try done; try (by intros [? [=]]); eauto.
Qed.

(** ** The listing of the directory-level modes *)

Lemma elem_of_listed_files (root : path) (m : gmap path node) (p : path) :
  p ∈ listed_files root m ↔ under root p ∧ ∃ t, m !! p = Some (File t).
Proof.
  unfold listed_files.
  rewrite elem_of_List_filter, elem_of_entries_under, is_file_in_spec.
  split; [tauto|]. intros [Hu [t Ht]]. eauto.
Qed.

Lemma file_list_of_eq (root : path) (w : world) :
  file_list_of root w = (Ok (join nl (map str (listed_files root (fs w)))), w).
Proof. reflexivity. Qed.



(** ** The file accessor *)

Lemma read_file_unfold (path_ : string) (w : world) :
  read_file path_ w =
  match fs w !! Path path_ with
  | None => (Raised (Exn FileNotFoundError ("File not found: " +:+ path_)), w)
  | Some Dir => (Raised (EISDIR (Path path_)), w)
  | Some (File None) => (Raised decode_error, w)
  | Some (File (Some s)) => (Ok (universal_newlines s), w)
  end.
Proof.
  unfold read_file, bind, exists_, read_text.
  destruct (fs w !! Path path_) as [[|[s|]]|] eqn:E; cbn; rewrite ?E; reflexivity.
Qed.

(** Reading never changes the world. *)
Lemma read_file_world (path_ : string) (w w' : world) r :
  read_file path_ w = (r, w') → w' = w.
Proof.
  rewrite read_file_unfold.
  destruct (fs w !! Path path_) as [[|[s|]]|]; by intros [= _ <-].
Qed.

(** C8, as the code has it.  [read_file] raises [FileNotFoundError] exactly
    when the path does not exist, and then with its own message, from the
    test made before the read.  When the path is a regular file that holds
    valid UTF-8 it returns the decoded text with the line ends translated
    (["\r\n"] and ["\r"] are read as ["\n"]) and leaves the world as it
    was.  For an existing directory the read itself raises
    [IsADirectoryError], and for a file that is not valid UTF-8 it raises
    [UnicodeDecodeError]. *)
Theorem read_file_not_found (path_ : string) (w : world) :
  ((∃ msg w', read_file path_ w = (Raised (Exn FileNotFoundError msg), w'))
   ↔ fs w !! Path path_ = None) ∧
  (fs w !! Path path_ = None →
   read_file path_ w
   = (Raised (Exn FileNotFoundError ("File not found: " +:+ path_)), w)) ∧
  (∀ s, fs w !! Path path_ = Some (File (Some s)) →
        read_file path_ w = (Ok (universal_newlines s), w)) ∧
  (fs w !! Path path_ = Some Dir →
   ∃ msg, read_file path_ w = (Raised (Exn IsADirectoryError msg), w)) ∧
  (fs w !! Path path_ = Some (File None) →
   ∃ msg, read_file path_ w = (Raised (Exn UnicodeDecodeError msg), w)).
Proof.
  rewrite read_file_unfold. unfold EISDIR, os_error, decode_error.
  split; [|split; [|split; [|split]]].
  - destruct (fs w !! Path path_) as [[|[s|]]|]; split; try done;
      try (by intros (? & ? & [=])); eauto.
  - by intros ->.
  - by intros s ->.
  - intros ->. by eexists.
  - intros ->. by eexists.
Qed.

(** An existing file, a missing one, a file with the line ends of DOS, a
    directory and a file that is not valid UTF-8. *)
Lemma read_file_not_found_witness :
  read_file "proj/sub/b.KT" sample_world = (Ok "fun main() {}", sample_world) ∧
  read_file "proj/missing.py" sample_world
  = (Raised (Exn FileNotFoundError "File not found: proj/missing.py"), sample_world) ∧
  read_file "dos.py" crlf_world
  = (Ok ("a = 1" +:+ nl +:+ "b = 2" +:+ nl), crlf_world) ∧
  (∃ msg, read_file "proj" sample_world
          = (Raised (Exn IsADirectoryError msg), sample_world)) ∧
  (∃ msg, read_file "legacy/main.c" latin1_world
          = (Raised (Exn UnicodeDecodeError msg), latin1_world)).
Proof.
  destruct (read_file_not_found "proj/sub/b.KT" sample_world) as (_ & _ & Hok & _).
  destruct (read_file_not_found "proj/missing.py" sample_world) as (_ & Hmiss & _).
  destruct (read_file_not_found "dos.py" crlf_world) as (_ & _ & Hdos & _).
  destruct (read_file_not_found "proj" sample_world) as (_ & _ & _ & Hdir & _).
  destruct (read_file_not_found "legacy/main.c" latin1_world) as (_ & _ & _ & _ & Hbad).
  split; [apply (Hok "fun main() {}"); vm_compute; reflexivity|].
  split; [apply Hmiss; vm_compute; reflexivity|].
  split; [apply (Hdos ("a = 1" +:+ cr +:+ nl +:+ "b = 2" +:+ cr)); vm_compute; reflexivity|].
  split; [apply Hdir|apply Hbad]; vm_compute; reflexivity.
Defined.

(** C8 as stated fails.  [proj] and [legacy/main.c] exist, and [read_file]
    returns no contents for them; [dos.py] exists, and what [read_file]
    returns is not the full contents: the carriage returns are gone. *)
Lemma read_file_existing_path_raises :
  is_Some (fs sample_world !! Path "proj") ∧
  read_file "proj" sample_world
  = (Raised (Exn IsADirectoryError "[Errno 21] Is a directory: 'proj'"), sample_world) ∧
  is_Some (fs latin1_world !! Path "legacy/main.c") ∧
  (∃ msg, read_file "legacy/main.c" latin1_world
          = (Raised (Exn UnicodeDecodeError msg), latin1_world)) ∧
  fs crlf_world !! Path "dos.py"
  = Some (File (Some ("a = 1" +:+ cr +:+ nl +:+ "b = 2" +:+ cr))) ∧
  read_file "dos.py" crlf_world = (Ok ("a = 1" +:+ nl +:+ "b = 2" +:+ nl), crlf_world).
Proof.
  split; [|split; [|split; [|split; [|split]]]].
  - vm_compute. eauto.
  - vm_compute. reflexivity.
  - vm_compute. eauto.
  - eexists. vm_compute. reflexivity.
  - vm_compute. reflexivity.
  - vm_compute. reflexivity.
Qed.

(** ** Sampling parameters *)

Lemma reads_only_silent {A} (m : M A) : reads_only m → silent m.
Proof. intros H w r w' Hm. by rewrite (H _ _ _ Hm). Qed.

Lemma reads_only_ret {A} (a : A) : reads_only (ret a).
Proof. by intros w r w' [= _ <-]. Qed.

Lemma reads_only_bind {A B} (m : M A) (k : A → M B) :
  reads_only m → (∀ a, reads_only (k a)) → reads_only (bind m k).
Proof.
  intros Hm Hk w r w'. unfold bind. destruct (m w) as [[a|e] w1] eqn:E.
  - intros H. apply Hk in H. apply Hm in E. congruence.
  - intros [= _ <-]. by apply Hm in E.
Qed.

Lemma silent_bind {A B} (m : M A) (k : A → M B) :
  silent m → (∀ a, silent (k a)) → silent (bind m k).
Proof.
  intros Hm Hk w r w'. unfold bind. destruct (m w) as [[a|e] w1] eqn:E.
  - intros H. apply Hk in H. apply Hm in E. congruence.
  - intros [= _ <-]. by apply Hm in E.
Qed.

Lemma reads_only_read_file (path_ : string) : reads_only (read_file path_).
Proof. intros w r w' H. by eapply read_file_world. Qed.

Lemma reads_only_file_list_of (p : path) : reads_only (file_list_of p).
Proof. intros w r w'. rewrite file_list_of_eq. by intros [= _ <-]. Qed.

Lemma silent_print (s : string) : silent (print s).
Proof. by intros w r w' [= _ <-]. Qed.

Lemma silent_mkdir_parents (p : path) : silent (mkdir_parents p).
Proof.
  intros w r w'. unfold mkdir_parents.
  destruct (mkdir_from [] p (fs w)); by intros [= _ <-].
Qed.

Lemma silent_write_text (p : path) (s : string) : silent (write_text p s).
Proof.
  intros w r w'. unfold write_text.
  destruct (fs w !! p) as [[|t]|]; destruct p as [|c p];
    try destruct (fs w !! parent (c :: p)) as [[|t']|]; by intros [= _ <-].
Qed.

Lemma silent_write_output (args : Args) (content_ : string) :
  silent (write_output_if_needed args content_).
Proof.
  unfold write_output_if_needed. destruct (negb (truthy (out args))).
  - apply silent_print.
  - apply silent_bind; [apply silent_mkdir_parents|]. intros _.
    apply silent_bind; [apply silent_write_text|]. intros _.
    apply silent_bind; [by intros w r w' [= _ <-]|]. intros abs.
    apply silent_print.
Qed.

Lemma single_call_requests service build mt t args w :
  reads_only build →
  calls (single_call service build mt t args w).2 = calls w ∨
  ∃ prompt_, calls (single_call service build mt t args w).2
             = calls w ++ [Request MODEL_NAME mt t (user_message prompt_)].
Proof.
  intros Hb. unfold single_call, bind.
  destruct (build w) as [[prompt_|e] w1] eqn:E; apply Hb in E as ->; [|by left].
  right. exists prompt_. rewrite call_claude_cases. cbv zeta.
  set (req := Request MODEL_NAME mt t (user_message prompt_)).
  assert (∀ s, calls (write_output_if_needed args s (sent req w)).2
               = calls w ++ [req]) as Hout.
  { intros s. destruct (write_output_if_needed args s (sent req w)) as [r w2] eqn:E.
    by apply silent_write_output in E. }
  destruct (service _ req) as [r|e].
  - destruct (blocks r) as [|[s|cls] bs]; apply Hout.
  - destruct (is_Exception (exn_cls e)); [apply Hout|done].
Qed.

Ltac reads_only_tac :=
  repeat first
    [ apply reads_only_ret
    | apply reads_only_read_file
    | apply reads_only_file_list_of
    | apply reads_only_bind; [|intros ?] ].

(** One-shot and analyze-folder send the values of the command line;
    explain, fix, refactor, project-qa, generate-file and diff send 4096
    and 0.1 whatever the command line says. *)
Lemma single_call_sampling service (args : Args) (w : world) run mt t :
  (run, mt, t) ∈ single_call_modes service args →
  ∀ r, r ∈ calls (run args w).2 →
       r ∈ calls w ∨ (req_max_tokens r = mt ∧ req_temperature r = t).
Proof.
  intros Hrun.
  assert (∃ build, reads_only build ∧ run args = single_call service build mt t args)
    as (build & Hb & ->).
  { unfold single_call_modes in Hrun. rewrite !elem_of_cons, elem_of_nil in Hrun.
    destruct Hrun as [H|[H|[H|[H|[H|[H|[H|[H|[]]]]]]]]]; injection H as -> -> ->.
    - exists (build_single_prompt args). split; [|done].
      unfold build_single_prompt. destruct (truthy (file args)); reads_only_tac.
    - exists (build_folder_analysis_prompt (value (analyze_folder args))).
      split; [|done]. unfold build_folder_analysis_prompt. reads_only_tac.
    - exists (build_explain_prompt (value (explain args))). split; [|done].
      unfold build_explain_prompt. reads_only_tac.
    - exists (build_fix_prompt (value (fix_ args))). split; [|done].
      unfold build_fix_prompt. reads_only_tac.
    - exists (build_refactor_prompt (value (refactor args))). split; [|done].
      unfold build_refactor_prompt. reads_only_tac.
    - exists (build_project_qa_prompt (value (project_qa args)) (value (question args))).
      split; [|done]. unfold build_project_qa_prompt. reads_only_tac.
    - eexists (ret _). split; [apply reads_only_ret|]. reflexivity.
    - unfold run_diff. destruct (default ("", "") (diff args)) as [file_a file_b].
      exists (build_diff_prompt file_a file_b). split; [|done].
      unfold build_diff_prompt. reads_only_tac. }
  intros r Hr.
  destruct (single_call_requests service build mt t args w Hb) as [H|[p H]];
    rewrite H in Hr; [by left|].
  apply elem_of_app in Hr as [Hr|Hr%list_elem_of_singleton]; [by left|].
  right. by subst r.
Qed.

(** C5, at a failing input.  [--explain proj/a.py --max-tokens 100
    --temperature 0.7] sends its request with 4096 and 0.1, the defaults
    of [call_claude]: [run_explain] does not pass the flags on, while
    [run_analyze_folder] with the same flags sends 100 and 0.7. *)
Lemma explain_ignores_sampling_flags :
  select_mode explain_with_flags = ModeExplain ∧
  max_tokens explain_with_flags = 100%Z ∧
  temperature explain_with_flags = 7 # 10 ∧
  sampling_of (main echo_service explain_with_flags sample_world)
  = [(4096%Z, 1 # 10)] ∧
  sampling_of (main echo_service analyze_with_flags sample_world)
  = [(100%Z, 7 # 10)].
Proof. vm_compute. repeat split. Qed.

(** ** Occurrences of a string in a concatenation *)

Lemma startswith_app_mono (n x z : string) :
  startswith n x = true → startswith n (x +:+ z) = true.
Proof.
  revert x. induction n as [|a n IH]; intros x H; [reflexivity|].
  destruct x as [|b x]; [discriminate H|].
  rewrite str_app_cons. cbn in *.
  destruct (Ascii.eqb a b); [by apply IH|done].
Qed.

Lemma startswith_app_sep (n x y : string) (c : ascii) :
  has_char c n = false →
  startswith n (x +:+ String c y) = true → startswith n x = true.
Proof.
  revert x. induction n as [|a n IH]; intros x Hc H; [reflexivity|].
  cbn in Hc. apply orb_false_iff in Hc as [Hac Hn].
  destruct x as [|b x].
  - change ("" +:+ String c y) with (String c y) in H.
    cbn in H. by rewrite Hac in H.
  - rewrite str_app_cons in H. cbn in *.
    destruct (Ascii.eqb a b); [by apply IH|done].
Qed.

Lemma startswith_app_weaken (a b s : string) :
  startswith (a +:+ b) s = true → startswith a s = true.
Proof.
  revert s. induction a as [|x a IH]; intros s H; [reflexivity|].
  destruct s as [|y s]; [discriminate H|].
  rewrite str_app_cons in H. cbn in *.
  destruct (Ascii.eqb x y); [by apply IH|done].
Qed.

Lemma contains_app_weaken (a b s : string) :
  contains (a +:+ b) s = true → contains a s = true.
Proof.
  induction s as [|y s IH]; cbn -[startswith].
  - rewrite !orb_false_r. apply startswith_app_weaken.
  - rewrite !orb_true_iff.
    intros [H|H]; [left; by eapply startswith_app_weaken|right; auto].
Qed.

(** A string without the character [c] occurs in [x c y] exactly when it
    occurs in [x] or in [y]. *)
Lemma contains_app_sep (n x y : string) (c : ascii) :
  has_char c n = false →
  contains n (x +:+ String c y) = contains n x || contains n y.
Proof.
  intros Hc. induction x as [|b x IH].
  - change ("" +:+ String c y) with (String c y). cbn -[startswith].
    destruct n as [|a n]; [done|].
    cbn in Hc. apply orb_false_iff in Hc as [Hac _].
    cbn. by rewrite Hac.
  - rewrite str_app_cons. cbn -[startswith]. rewrite IH.
    destruct (startswith n (String b x)) eqn:E1.
    + apply (startswith_app_mono _ _ (String c y)) in E1.
      rewrite str_app_cons in E1. by rewrite E1.
    + destruct (startswith n (String b (x +:+ String c y))) eqn:E2; [|done].
      rewrite <- str_app_cons in E2. apply startswith_app_sep in E2; [|done].
      congruence.
Qed.

(** Line by line: a string without a newline occurs in a text exactly when
    it occurs in one of its lines. *)
Lemma contains_lines (n : string) (ls : list string) :
  has_char "010" n = false → ls ≠ [] →
  contains n (join nl ls) = existsb (contains n) ls.
Proof.
  intros Hc. induction ls as [|l ls IH]; [done|]. intros _.
  destruct ls as [|l' ls].
  - cbn -[contains]. by rewrite orb_false_r.
  - change (join nl (l :: l' :: ls)) with (l +:+ String "010" (join nl (l' :: ls))).
    rewrite contains_app_sep by done. rewrite IH by done. reflexivity.
Qed.

(** Two suffixes of one string: one is a suffix of the other. *)
Lemma suffix_comparable (x b pre d : string) :
  x +:+ b = pre +:+ d → endswith b d = true ∨ endswith d b = true.
Proof.
  revert pre. induction x as [|c x IH]; intros pre H.
  - right. apply endswith_spec. by exists pre.
  - destruct pre as [|c' pre].
    + left. apply endswith_spec. by exists (String c x).
    + rewrite !str_app_cons in H. injection H as _ H. by eapply IH.
Qed.

(** ** The prompts of fix, refactor and rewrite *)

Lemma chop_app_nl (pre : string) : chop (pre +:+ nl) = pre.
Proof.
  induction pre as [|c pre IH]; [done|].
  rewrite str_app_cons. cbn [chop]. rewrite IH.
  by destruct pre.
Qed.

Lemma chop_nl (s : string) : endswith nl s = true → s = chop s +:+ nl.
Proof. intros [pre ->]%endswith_spec. by rewrite chop_app_nl. Qed.

Lemma in_strs_two (x a b : string) : in_strs x [a; b] = true → x = a ∨ x = b.
Proof.
  unfold in_strs. cbn. rewrite orb_false_r, orb_true_iff, !String.eqb_eq. tauto.
Qed.

(** Case analysis on the language tag as the header functions make it. *)
Ltac header_cases lang :=
  let E := fresh "E" in
  let E' := fresh "E" in
  repeat (destruct (String.eqb lang _); [vm_compute; done|]);
  (destruct (in_strs lang ["javascript"; "typescript"]) eqn:E;
   [apply in_strs_two in E as [-> | ->]; vm_compute; done|]);
  (destruct (in_strs lang ["html"; "css"]) eqn:E';
   [apply in_strs_two in E' as [-> | ->]; vm_compute; done|]);
  vm_compute; done.

Lemma header_fix_closed (lang : string) :
  endswith nl (_lang_header_fix lang) = true ∧
  contains DIRECTIVE_SENTENCE (chop (_lang_header_fix lang)) = false.
Proof. unfold _lang_header_fix. header_cases lang. Qed.

Lemma header_refactor_closed (lang : string) :
  endswith nl (_lang_header_refactor lang) = true ∧
  contains DIRECTIVE_SENTENCE (chop (_lang_header_refactor lang)) = false.
Proof. unfold _lang_header_refactor. header_cases lang. Qed.

Lemma content_block_lines (h path_ text : string) :
  (h +:+ nl) +:+ content_block path_ text
  = join nl [ h; "File path: " +:+ path_; ""; "Current content:";
              "----------------"; text; "----------------"; "" ].
Proof. unfold content_block. cbn [join]. rewrite !str_app_assoc. reflexivity. Qed.

Lemma contains_file_path_line (path_ : string) :
  contains DIRECTIVE_SENTENCE ("File path: " +:+ path_)
  = contains DIRECTIVE_SENTENCE path_.
Proof.
  change ("File path: " +:+ path_) with ("File path" +:+ String ":" (String " " path_)).
  rewrite contains_app_sep by reflexivity. reflexivity.
Qed.

(** Where the sentence of the directive can occur in a fix or refactor
    prompt: in the path or in the file's text, nowhere else. *)
Lemma contains_sentence_block (header path_ text : string) :
  endswith nl header = true →
  contains DIRECTIVE_SENTENCE (chop header) = false →
  contains DIRECTIVE_SENTENCE (header +:+ content_block path_ text)
  = contains DIRECTIVE_SENTENCE path_ || contains DIRECTIVE_SENTENCE text.
Proof.
  intros Hnl Hh. rewrite (chop_nl header Hnl) at 1.
  rewrite content_block_lines, contains_lines by done.
  cbn [existsb]. rewrite Hh, contains_file_path_line.
  change (contains DIRECTIVE_SENTENCE "") with false.
  change (contains DIRECTIVE_SENTENCE "Current content:") with false.
  change (contains DIRECTIVE_SENTENCE "----------------") with false.
  cbn [orb]. by rewrite !orb_false_r.
Qed.

Lemma block_not_directive_end (header path_ text : string) :
  endswith REWRITE_DIRECTIVE (header +:+ content_block path_ text) = false.
Proof.
  destruct (endswith _ _) eqn:E; [|done].
  apply endswith_spec in E as [pre E].
  assert (header +:+ content_block path_ text
          = (header +:+ "File path: " +:+ path_ +:+ nl +:+ nl
             +:+ "Current content:" +:+ nl +:+ "----------------" +:+ nl +:+ text)
            +:+ (nl +:+ "----------------" +:+ nl)) as Hsplit.
  { unfold content_block. rewrite !str_app_assoc. reflexivity. }
  rewrite Hsplit in E. by apply suffix_comparable in E as [H|H].
Qed.

Lemma build_fix_prompt_eq (path_ text : string) (w : world) :
  read_file path_ w = (Ok text, w) →
  build_fix_prompt path_ w
  = (Ok (_lang_header_fix (detect_language (Path path_)) +:+ content_block path_ text), w).
Proof. intros H. unfold build_fix_prompt, bind. by rewrite H. Qed.

Lemma build_refactor_prompt_eq (path_ text : string) (w : world) :
  read_file path_ w = (Ok text, w) →
  build_refactor_prompt path_ w
  = (Ok (_lang_header_refactor (detect_language (Path path_))
         +:+ content_block path_ text), w).
Proof. intros H. unfold build_refactor_prompt, bind. by rewrite H. Qed.

Lemma build_rewrite_prompt_eq (path_ text : string) (w : world) :
  read_file path_ w = (Ok text, w) →
  build_rewrite_prompt path_ w
  = (Ok ((_lang_header_rewrite (detect_language (Path path_))
          +:+ "Original file path: " +:+ path_ +:+ nl +:+ nl
          +:+ "Original file content:" +:+ nl
          +:+ "----------------------" +:+ nl
          +:+ text +:+ nl
          +:+ "----------------------" +:+ nl)
         +:+ REWRITE_DIRECTIVE), w).
Proof.
  intros H. unfold build_rewrite_prompt, bind. rewrite H. cbn.
  unfold ret. rewrite !str_app_assoc. reflexivity.
Qed.

(** C6, as the code has it.  For every path whose file can be read, the
    rewrite prompt ends with the directive, whatever the language; the fix
    and the refactor prompt never end with it, and the sentence of the
    directive occurs in them exactly when it occurs in the path or in the
    file's text, which they embed: the templates themselves never add
    it. *)
Theorem rewrite_directive_only (path_ text : string) (w : world)
    (build : string → M string) :
  read_file path_ w = (Ok text, w) →
  build ∈ [build_fix_prompt; build_refactor_prompt] →
  (∃ body, build_rewrite_prompt path_ w = (Ok (body +:+ REWRITE_DIRECTIVE), w)) ∧
  (∃ p, build path_ w = (Ok p, w) ∧
        endswith REWRITE_DIRECTIVE p = false ∧
        contains DIRECTIVE_SENTENCE p
        = contains DIRECTIVE_SENTENCE path_ || contains DIRECTIVE_SENTENCE text ∧
        (contains REWRITE_DIRECTIVE p = true →
         contains DIRECTIVE_SENTENCE path_ = true ∨
         contains DIRECTIVE_SENTENCE text = true)).
Proof.
  intros Hread Hbuild. split.
  { eexists. by apply build_rewrite_prompt_eq. }
  assert (∃ header, build path_ w = (Ok (header +:+ content_block path_ text), w) ∧
                    endswith nl header = true ∧
                    contains DIRECTIVE_SENTENCE (chop header) = false)
    as (header & -> & Hnl & Hh).
  { rewrite !elem_of_cons, elem_of_nil in Hbuild.
    destruct Hbuild as [->|[->|[]]]; eexists; split.
    - by apply build_fix_prompt_eq.
    - apply header_fix_closed.
    - by apply build_refactor_prompt_eq.
    - apply header_refactor_closed. }
  eexists. split; [done|]. split; [apply block_not_directive_end|].
  pose proof (contains_sentence_block header path_ text Hnl Hh) as Hc.
  split; [done|]. intros HD.
  apply (contains_app_weaken DIRECTIVE_SENTENCE nl) in HD.
  rewrite Hc in HD. by apply orb_true_iff in HD.
Qed.

(** The prompts of [proj/a.py]. *)
Lemma rewrite_directive_only_witness :
  (∃ body, build_rewrite_prompt "proj/a.py" sample_world
           = (Ok (body +:+ REWRITE_DIRECTIVE), sample_world)) ∧
  (∃ p, build_fix_prompt "proj/a.py" sample_world = (Ok p, sample_world) ∧
        endswith REWRITE_DIRECTIVE p = false ∧
        contains DIRECTIVE_SENTENCE p
        = contains DIRECTIVE_SENTENCE "proj/a.py" || contains DIRECTIVE_SENTENCE "print(1)" ∧
        (contains REWRITE_DIRECTIVE p = true →
         contains DIRECTIVE_SENTENCE "proj/a.py" = true ∨
         contains DIRECTIVE_SENTENCE "print(1)" = true)).
Proof.
  apply (rewrite_directive_only "proj/a.py" "print(1)" sample_world build_fix_prompt).
  - vm_compute. reflexivity.
  - apply list_elem_of_here.
Defined.

(** C6 as stated fails: the fix and the refactor prompt of a file whose
    text is the directive contain the directive. *)
Lemma fix_prompt_may_contain_directive :
  ∃ p q,
    build_fix_prompt "a.py" directive_world = (Ok p, directive_world) ∧
    contains REWRITE_DIRECTIVE p = true ∧
    build_refactor_prompt "a.py" directive_world = (Ok q, directive_world) ∧
    contains REWRITE_DIRECTIVE q = true.
Proof. do 2 eexists. vm_compute. repeat split. Qed.

(** ** Paths *)

Lemma under_spec (root p : path) :
  under root p ↔ ∃ rel, rel ≠ [] ∧ p = root ++ rel.
Proof.
  unfold under. split.
  - intros [[rel ->] Hne]. exists rel. split; [|done].
    intros ->. by rewrite app_nil_r in Hne.
  - intros (rel & Hne & ->). split; [by exists rel|].
    intros H. apply Hne. rewrite <- (app_nil_r root) in H at 1.
    by apply app_inv_head in H.
Qed.

Lemma name_snoc (p : path) (c : string) : name (p ++ [c]) = c.
Proof. unfold name. by rewrite last_snoc. Qed.

Lemma parent_snoc (p : path) (c : string) : parent (p ++ [c]) = p.
Proof. apply removelast_last. Qed.

Lemma path_snoc (p : path) : p ≠ [] → p = parent p ++ [name p].
Proof.
  destruct p as [|c p _] using rev_ind; [done|]. intros _.
  by rewrite parent_snoc, name_snoc.
Qed.

Lemma name_app (p rel : path) : rel ≠ [] → name (p ++ rel) = name rel.
Proof.
  destruct rel as [|c rel _] using rev_ind; [done|]. intros _.
  by rewrite app_assoc, !name_snoc.
Qed.

Lemma parent_app (p rel : path) : rel ≠ [] → parent (p ++ rel) = p ++ parent rel.
Proof.
  destruct rel as [|c rel _] using rev_ind; [done|]. intros _.
  by rewrite app_assoc, !parent_snoc.
Qed.

Lemma suffix_app (p rel : path) : rel ≠ [] → suffix (p ++ rel) = suffix rel.
Proof. intros H. unfold suffix. by rewrite name_app. Qed.

Lemma strip_prefix_app (root rel : path) : strip_prefix root (root ++ rel) = Some rel.
Proof.
  induction root as [|c root IH]; [done|]. cbn. by rewrite String.eqb_refl.
Qed.

(** [Path(str(p))] is [p] when the components are names. *)
Lemma split_on_no_sep (c : ascii) (s : string) :
  has_char c s = false → split_on c s = [s].
Proof.
  induction s as [|x s IH]; [done|]. cbn.
  intros [Hx Hs]%orb_false_iff. rewrite Hx, IH by done. done.
Qed.

Lemma split_on_app (c : ascii) (s t : string) :
  has_char c s = false → split_on c (s +:+ String c t) = s :: split_on c t.
Proof.
  induction s as [|x s IH].
  - intros _. change ("" +:+ String c t) with (String c t). cbn.
    by rewrite Ascii.eqb_refl.
  - cbn [has_char]. intros [Hx Hs]%orb_false_iff.
    rewrite str_app_cons. cbn [split_on]. rewrite Hx, IH by done. done.
Qed.

Lemma split_on_join (ls : list string) :
  ls ≠ [] → Forall (λ c, has_char "/" c = false) ls →
  split_on "/" (join "/" ls) = ls.
Proof.
  induction ls as [|l ls IH]; [done|]. intros _ Hall.
  apply Forall_cons in Hall as [Hl Hls]. destruct ls as [|l' ls].
  - by apply split_on_no_sep.
  - change (join "/" (l :: l' :: ls)) with (l +:+ String "/" (join "/" (l' :: ls))).
    rewrite split_on_app by done. by rewrite IH.
Qed.

Lemma Path_str (p : path) :
  Forall (λ c, valid_name c = true) p → Path (str p) = p.
Proof.
  intros Hall. destruct p as [|c p]; [done|].
  unfold Path, str. rewrite split_on_join.
  - generalize (c :: p) Hall. clear. intros p.
    induction 1 as [|c p Hc _ IH]; [done|]. cbn.
    apply andb_true_iff in Hc as [[-> _]%andb_true_iff _]. by rewrite IH.
  - done.
  - eapply Forall_impl; [done|]. cbn. intros x [_ H]%andb_true_iff.
    by apply negb_true_iff.
Qed.

(** ** Well-formed file systems *)

Lemma fs_forall_spec (f : path → node → bool) (m : gmap path node) :
  fs_forall f m = true ↔ ∀ p n, m !! p = Some n → f p n = true.
Proof.
  unfold fs_forall. rewrite forallb_forall. split.
  - intros H p n Hp. apply (H (p, n)), list_elem_of_In. by apply elem_of_map_to_list.
  - intros H [p n] Hin. apply list_elem_of_In, elem_of_map_to_list in Hin. by apply H.
Qed.

Lemma is_dir_in_spec (m : gmap path node) (p : path) :
  is_dir_in m p = true ↔ m !! p = Some Dir.
Proof. unfold is_dir_in. by destruct (m !! p) as [[|t]|]. Qed.

Lemma well_formed_parent (m : gmap path node) (p : path) (n : node) :
  well_formed m = true → m !! p = Some n → p ≠ [] →
  m !! parent p = Some Dir ∧ valid_name (name p) = true.
Proof.
  intros Hwf Hp Hne. unfold well_formed in Hwf.
  rewrite fs_forall_spec in Hwf. specialize (Hwf p n Hp).
  destruct p; [done|]. apply andb_true_iff in Hwf as [H1 H2].
  by apply is_dir_in_spec in H1.
Qed.

(** Above every entry there are directories only. *)
Lemma well_formed_above (m : gmap path node) (q rel : path) (n : node) :
  well_formed m = true → m !! (q ++ rel) = Some n → rel ≠ [] →
  m !! q = Some Dir.
Proof.
  intros Hwf. revert n. induction rel as [|c rel IH] using rev_ind; [done|].
  intros n Hp _. rewrite app_assoc in Hp.
  destruct (well_formed_parent m _ n Hwf Hp) as [Hpar _].
  { by destruct (q ++ rel). }
  rewrite parent_snoc in Hpar. destruct rel as [|c' rel'].
  - by rewrite app_nil_r in Hpar.
  - by eapply IH.
Qed.

Lemma well_formed_names (m : gmap path node) (p : path) (n : node) :
  well_formed m = true → m !! p = Some n →
  Forall (λ c, valid_name c = true) p.
Proof.
  intros Hwf. revert n. induction p as [|c p IH] using rev_ind; [done|].
  intros n Hp. destruct (well_formed_parent m _ n Hwf Hp) as [Hpar Hname].
  { by destruct p. }
  rewrite parent_snoc in Hpar. rewrite name_snoc in Hname.
  apply Forall_app. split; [by eapply IH|]. by constructor.
Qed.

(** ** Creating directories *)

Lemma under_snoc_cases (done_ : path) (c : string) (todo q : path) :
  under done_ q → q `prefix_of` done_ ++ c :: todo →
  q = done_ ++ [c] ∨ (under (done_ ++ [c]) q ∧ q `prefix_of` (done_ ++ [c]) ++ todo).
Proof.
  intros (rel & Hne & ->)%under_spec Hpre.
  apply prefix_app_inv in Hpre. destruct rel as [|c' rel]; [done|].
  pose proof (prefix_cons_inv_1 _ _ _ _ Hpre) as ->.
  apply prefix_cons_inv_2 in Hpre. destruct rel as [|c'' rel].
  - by left.
  - right. split.
    + apply under_spec. exists (c'' :: rel). split; [done|].
      by rewrite <- app_assoc.
    + rewrite <- !app_assoc. cbn. by apply prefix_app, prefix_cons.
Qed.

Lemma under_snoc_weaken (done_ : path) (c : string) (q : path) :
  under (done_ ++ [c]) q → under done_ q.
Proof.
  intros (rel & Hne & ->)%under_spec. apply under_spec.
  exists (c :: rel). split; [done|]. by rewrite <- app_assoc.
Qed.

(** [mkdir_from] succeeds when no regular file is in the way; it then
    makes a directory of every missing step and changes nothing else. *)
Lemma mkdir_from_ok (todo done_ : path) (m : gmap path node) :
  (∀ q, under done_ q → q `prefix_of` done_ ++ todo →
        m !! q = None ∨ m !! q = Some Dir) →
  ∃ m', mkdir_from done_ todo m = Ok m' ∧
        (∀ q, under done_ q → q `prefix_of` done_ ++ todo → m' !! q = Some Dir) ∧
        (∀ q, m' !! q = m !! q ∨
              (m !! q = None ∧ m' !! q = Some Dir ∧
               under done_ q ∧ q `prefix_of` done_ ++ todo)).
Proof.
  revert done_ m. induction todo as [|c todo IH]; intros done_ m Hfree.
  { exists m. split; [done|]. split; [|by left].
    intros q [Hpre Hne] Hq. rewrite app_nil_r in Hq.
    destruct Hne. by apply (anti_symm prefix). }
  assert (under done_ (done_ ++ [c])) as Hu0.
  { apply under_spec. by exists [c]. }
  assert (done_ ++ [c] `prefix_of` done_ ++ c :: todo) as Hp0.
  { apply prefix_app, prefix_cons, prefix_nil. }
  assert (done_ ++ c :: todo = (done_ ++ [c]) ++ todo) as Hfull.
  { by rewrite <- app_assoc. }
  cbn [mkdir_from]. cbv zeta.
  destruct (Hfree _ Hu0 Hp0) as [Hq0|Hq0]; rewrite Hq0.
  - (* the step is missing: it is created *)
    destruct (IH (done_ ++ [c]) (<[done_ ++ [c] := Dir]> m)) as (m' & Hrun & Hdir & Hrest).
    { intros q Hu Hq. rewrite lookup_insert_ne by (intros <-; by destruct Hu).
      apply Hfree; [by eapply under_snoc_weaken|by rewrite Hfull]. }
    exists m'. split; [done|]. split.
    + intros q Hu Hq. destruct (under_snoc_cases _ _ _ _ Hu Hq) as [->|[Hu' Hq']].
      * destruct (Hrest (done_ ++ [c])) as [H|(H & _)].
        -- by rewrite H, lookup_insert_eq.
        -- by rewrite lookup_insert_eq in H.
      * by apply Hdir.
    + intros q. destruct (decide (q = done_ ++ [c])) as [->|Hne].
      * right. split; [done|]. split; [|done].
        destruct (Hrest (done_ ++ [c])) as [H|(H & _)].
        -- by rewrite H, lookup_insert_eq.
        -- by rewrite lookup_insert_eq in H.
      * destruct (Hrest q) as [H|(H1 & H2 & H3 & H4)].
        -- left. by rewrite H, lookup_insert_ne.
        -- right. rewrite lookup_insert_ne in H1 by done.
           split; [done|]. split; [done|].
           split; [by eapply under_snoc_weaken|by rewrite Hfull].
  - (* the step is a directory already *)
    destruct (IH (done_ ++ [c]) m) as (m' & Hrun & Hdir & Hrest).
    { intros q Hu Hq.
      apply Hfree; [by eapply under_snoc_weaken|by rewrite Hfull]. }
    exists m'. split; [done|]. split.
    + intros q Hu Hq. destruct (under_snoc_cases _ _ _ _ Hu Hq) as [->|[Hu' Hq']].
      * destruct (Hrest (done_ ++ [c])) as [H|(H & _)]; congruence.
      * by apply Hdir.
    + intros q. destruct (Hrest q) as [H|(H1 & H2 & H3 & H4)]; [by left|].
      right. split; [done|]. split; [done|].
      split; [by eapply under_snoc_weaken|by rewrite Hfull].
Qed.

(** ** The monad, step by step *)

Lemma bind_Ok {A B} (m : M A) (k : A → M B) (w w' : world) (a : A) :
  m w = (Ok a, w') → bind m k w = k a w'.
Proof. unfold bind. by intros ->. Qed.

Lemma bind_Raised {A B} (m : M A) (k : A → M B) (w w' : world) (e : exn) :
  m w = (Raised e, w') → bind m k w = (Raised e, w').
Proof. unfold bind. by intros ->. Qed.

Lemma write_text_ok (p : path) (s : string) (w : world) :
  fs w !! p ≠ Some Dir → p ≠ [] → fs w !! parent p = Some Dir →
  write_text p s w = (Ok tt, set_fs (<[p := File (Some s)]> (fs w)) w).
Proof.
  intros Hnd Hne Hpar. unfold write_text.
  destruct p as [|c p]; [done|].
  destruct (fs w !! (c :: p)) as [[|t]|]; [done| |]; by rewrite Hpar.
Qed.

Lemma with_name_ok (p : path) (n : string) :
  p ≠ [] → with_name p n = ret (parent p ++ [n]).
Proof. by destruct p. Qed.

Lemma str_app_eq_l (a b : string) : a +:+ b = a → b = "".
Proof.
  induction a as [|c a IH]; [done|]. rewrite str_app_cons. intros [= H]. auto.
Qed.

(** ** One batch run *)

Section Batch.
Variable service : nat → request → outcome.
Variable mode : batch_mode.
Variable args : Args.
Variable root : path.
(** The file system before the run. *)
Variable m0 : gmap path node.
(** What is known of every reply of the completion client. *)
Variable P : string → Prop.

Hypothesis Hsuffix : out_suffix mode ≠ "".
Hypothesis Hbuild : ∀ path_ text w,
  read_file path_ w = (Ok text, w) → ∃ p, build_prompt mode path_ w = (Ok p, w).
Hypothesis Hreply : ∀ msgs mt t w,
  ∃ r, call_claude service msgs mt t w = (Ok r, sent (Request MODEL_NAME mt t msgs) w)
       ∧ P r.
Hypothesis Hwf : well_formed m0 = true.
Hypothesis Hroot : m0 !! root = Some Dir.
Hypothesis Hne : root ≠ [].

Local Abbreviation out_root := (output_root mode root).
Local Abbreviation mirrored := (mirrored mode root m0 P).
Local Abbreviation ok_line := (ok_line mode root).
Local Abbreviation banner := (banner mode root).

Lemma out_root_not_above (rel : path) : ¬ out_root `prefix_of` root ++ rel.
Proof.
  unfold output_root. rewrite (path_snoc root Hne) at 3.
  rewrite <- app_assoc. intros H%prefix_app_inv.
  apply prefix_cons_inv_1 in H. by apply str_app_eq_l in H.
Qed.

Lemma out_root_strict_prefix (q : path) :
  q `prefix_of` out_root → q ≠ out_root → ∃ k, k ≠ [] ∧ root = q ++ k.
Proof.
  unfold output_root. intros [k Hk] Hneq.
  destruct k as [|c k _] using rev_ind.
  { rewrite app_nil_r in Hk. by destruct Hneq. }
  rewrite app_assoc in Hk. apply app_inj_tail in Hk as [Hk _].
  exists (k ++ [name root]). split; [by destruct k|].
  rewrite app_assoc, <- Hk. by apply path_snoc.
Qed.

Lemma out_root_nonempty : out_root ≠ [].
Proof. unfold output_root. by destruct (parent root). Qed.

(** What lies on the way to a destination is a directory or missing. *)
Lemma way_is_free (m : gmap path node) (rel : path) (n : node) (q : path) :
  mirrored m → rel ≠ [] → m0 !! (root ++ rel) = Some n →
  q `prefix_of` out_root ++ parent rel →
  (q `prefix_of` out_root ∧ q ≠ out_root ∧ m !! q = Some Dir) ∨
  (∃ r k, q = out_root ++ r ∧ rel = r ++ k ∧ k ≠ [] ∧
          m0 !! (root ++ r) = Some Dir ∧ (m !! q = None ∨ m !! q = Some Dir)).
Proof.
  intros (Hframe & Hfile & Hdir) Hrel Hsrc [k Hk].
  apply app_eq_inv in Hk as [(r & Hq & ->)|(r & -> & Hr)].
  - destruct r as [|c r].
    + (* the output root itself *)
      rewrite app_nil_r in Hq. subst q. right. exists [], rel.
      rewrite !app_nil_r. split; [done|]. split; [done|]. split; [done|].
      split; [done|].
      destruct (m !! out_root) as [[|t]|] eqn:E; [by right| |by left].
      rewrite <- (app_nil_r out_root) in E.
      apply Hfile in E as [E _]. apply is_file_in_spec in E as [t' E].
      rewrite app_nil_r in E. congruence.
    + (* above the output root *)
      left. assert (q `prefix_of` out_root) as Hpre by (by eexists).
      assert (q ≠ out_root) as Hneq.
      { intros ->. rewrite <- (app_nil_r out_root) in Hq at 1.
        by apply app_inv_head in Hq. }
      split; [done|]. split; [done|].
      destruct (out_root_strict_prefix q Hpre Hneq) as (k' & Hk' & Hroot').
      rewrite Hframe.
      * apply (well_formed_above m0 q k' Dir); [done| |done]. by rewrite <- Hroot'.
      * intros Hback. apply Hneq. by apply (anti_symm prefix).
  - (* below the output root *)
    right. exists r, (k ++ [name rel]).
    assert (rel = r ++ k ++ [name rel]) as Hsplit.
    { rewrite app_assoc, <- Hr. by apply path_snoc. }
    assert (m0 !! (root ++ r) = Some Dir) as Hr0.
    { apply (well_formed_above m0 _ (k ++ [name rel]) n); [done| |by destruct k].
      by rewrite <- app_assoc, <- Hsplit. }
    split; [done|]. split; [done|]. split; [by destruct k|]. split; [done|].
    destruct (m !! (out_root ++ r)) as [[|t]|] eqn:E; [by right| |by left].
    apply Hfile in E as [E _]. apply is_file_in_spec in E as [t' E]. congruence.
Qed.

(** One turn of the loop. *)
Lemma process_file_ok (rel : path) (text : string) (w : world) :
  mirrored (fs w) → rel ≠ [] →
  m0 !! (root ++ rel) = Some (File (Some text)) →
  has_supported_ext (root ++ rel) = true →
  ∃ w', process_file service mode args root out_root (root ++ rel) w = (Ok tt, w') ∧
        mirrored (fs w') ∧
        (∀ q, is_file_in (fs w) q = true → is_file_in (fs w') q = true) ∧
        is_file_in (fs w') (out_root ++ rel) = true ∧
        cwd w' = cwd w ∧
        stdout w' = stdout w ++ [ok_line (root ++ rel) rel] ∧
        length (calls w') = S (length (calls w)).
Proof.
  intros Hm Hrel Hsrc Hext.
  pose proof Hm as (Hframe & Hfile & Hdir).
  set (dst := out_root ++ rel).
  assert (parent dst = out_root ++ parent rel) as Hpar by (by apply parent_app).
  (* the directories *)
  destruct (mkdir_from_ok (parent dst) [] (fs w)) as (m1 & Hmk & Hmade & Hkept).
  { intros q _ Hq. cbn in Hq. rewrite Hpar in Hq.
    destruct (way_is_free _ _ _ q Hm Hrel Hsrc Hq)
      as [(_ & _ & ->)|(? & ? & _ & _ & _ & _ & H)]; auto. }
  assert (∀ q, is_Some (fs w !! q) → m1 !! q = fs w !! q) as Hsame.
  { intros q [n Hn]. destruct (Hkept q) as [H|(H & _)]; congruence. }
  assert (∀ q, m1 !! q ≠ fs w !! q →
               ∃ r k, q = out_root ++ r ∧ rel = r ++ k ∧ k ≠ [] ∧ m1 !! q = Some Dir ∧
                      m0 !! (root ++ r) = Some Dir) as Hnew.
  { intros q Hq. destruct (Hkept q) as [H|(Hnone & Hd & _ & Hpre)]; [done|].
    cbn in Hpre. rewrite Hpar in Hpre.
    destruct (way_is_free _ _ _ q Hm Hrel Hsrc Hpre)
      as [(_ & _ & H)|(r & k & -> & -> & Hk & Hr0 & _)]; [congruence|].
    by exists r, k. }
  set (w1 := set_fs m1 w).
  assert (mkdir_parents (parent dst) w = (Ok tt, w1)) as Hstep1.
  { unfold mkdir_parents. by rewrite Hmk. }
  (* the prompt *)
  assert (m1 !! (root ++ rel) = Some (File (Some text))) as Hsrc1.
  { rewrite Hsame; rewrite Hframe by apply out_root_not_above; [done|by eexists]. }
  assert (read_file (str (root ++ rel)) w1 = (Ok (universal_newlines text), w1)) as Hread.
  { rewrite read_file_unfold, Path_str by (by eapply well_formed_names).
    cbn. by rewrite Hsrc1. }
  destruct (Hbuild _ _ _ Hread) as [prompt_ Hprompt].
  (* the reply *)
  destruct (Hreply (user_message prompt_) (max_tokens args) (temperature args) w1)
    as (reply & Hcall & HP).
  set (req := Request MODEL_NAME (max_tokens args) (temperature args)
                (user_message prompt_)) in Hcall.
  (* the write *)
  assert (m1 !! dst ≠ Some Dir) as Hnd.
  { intros Hd. destruct (decide (m1 !! dst = fs w !! dst)) as [Heq|Hneq].
    - rewrite Heq in Hd. apply Hdir in Hd. congruence.
    - destruct (Hnew _ Hneq) as (r & k & Hq & Hsplit & Hk & _).
      apply app_inv_head in Hq. subst r.
      rewrite <- (app_nil_r rel) in Hsplit at 1. by apply app_inv_head in Hsplit. }
  assert (m1 !! parent dst = Some Dir) as Hpd.
  { apply Hmade; [|done]. apply under_spec. exists (parent dst). split; [|done].
    rewrite Hpar. pose proof out_root_nonempty. by destruct out_root. }
  assert (write_text dst reply (sent req w1)
          = (Ok tt, set_fs (<[dst := File (Some reply)]> m1) (sent req w1))) as Hwrite.
  { apply write_text_ok; [done| |done].
    pose proof out_root_nonempty. unfold dst. by destruct out_root. }
  eexists. split.
  { unfold process_file, relative_to. rewrite strip_prefix_app.
    rewrite (bind_Ok _ _ w w (rel)) by done. fold dst.
    rewrite (bind_Ok _ _ _ _ _ Hstep1), (bind_Ok _ _ _ _ _ Hprompt).
    rewrite (bind_Ok _ _ _ _ _ Hcall), (bind_Ok _ _ _ _ _ Hwrite).
    reflexivity. }
  cbn. split; [|split; [|split; [|split; [done|split]]]].
  - split; [|split].
    + intros q Hq. rewrite lookup_insert_ne by (intros <-; apply Hq; by eexists).
      destruct (decide (m1 !! q = fs w !! q)) as [->|Hneq]; [by apply Hframe|].
      destruct (Hnew _ Hneq) as (r & k & -> & _). destruct Hq. by eexists.
    + intros r t Hr. destruct (decide (r = rel)) as [->|Hneq].
      * rewrite lookup_insert_eq in Hr. injection Hr as <-.
        split; [apply is_file_in_spec; eauto|]. split; [done|]. eauto.
      * rewrite lookup_insert_ne in Hr by (unfold dst; intros H%app_inv_head; done).
        destruct (decide (m1 !! (out_root ++ r) = fs w !! (out_root ++ r)))
          as [Heq|Hneq'].
        -- rewrite Heq in Hr. by apply Hfile in Hr.
        -- destruct (Hnew _ Hneq') as (? & ? & _ & _ & _ & Hd & _). congruence.
    + intros r Hr. destruct (decide (r = rel)) as [->|Hneq].
      * by rewrite lookup_insert_eq in Hr.
      * rewrite lookup_insert_ne in Hr by (unfold dst; intros H%app_inv_head; done).
        destruct (decide (m1 !! (out_root ++ r) = fs w !! (out_root ++ r)))
          as [Heq|Hneq'].
        -- rewrite Heq in Hr. by apply Hdir.
        -- destruct (Hnew _ Hneq') as (r' & k & Hq & _ & _ & _ & Hr0).
           apply app_inv_head in Hq. by subst r'.
  - intros q [t Hq]%is_file_in_spec. apply is_file_in_spec.
    destruct (decide (q = dst)) as [->|Hneq].
    + rewrite lookup_insert_eq. eauto.
    + rewrite lookup_insert_ne by done. rewrite Hsame by eauto. eauto.
  - apply is_file_in_spec. rewrite lookup_insert_eq. eauto.
  - reflexivity.
  - by rewrite length_app, Nat.add_1_r.
Qed.

(** The entries below the root stay what they were while the output tree
    grows: the enumeration of the sources does not see the writes. *)
Lemma mirrored_entries (m : gmap path node) (p : path) :
  mirrored m → p ∈ entries_under root m ↔ p ∈ entries_under root m0.
Proof.
  intros (Hframe & _). rewrite !elem_of_entries_under.
  split; intros [Hu Hp]; (split; [done|]);
    pose proof Hu as (rel & _ & ->)%under_spec;
    [rewrite <- Hframe|rewrite Hframe]; try done; apply out_root_not_above.
Qed.

(** The whole loop. *)
Lemma process_files_ok (rels : list path) (count : nat) (w : world) :
  mirrored (fs w) →
  Forall (λ rel, rel ≠ [] ∧
                 (∃ text, m0 !! (root ++ rel) = Some (File (Some text))) ∧
                 has_supported_ext (root ++ rel) = true) rels →
  ∃ w', process_files service mode args root out_root (app root <$> rels) count w
        = (Ok (count + length rels), w') ∧
        mirrored (fs w') ∧
        (∀ q, is_file_in (fs w) q = true → is_file_in (fs w') q = true) ∧
        (∀ rel, rel ∈ rels → is_file_in (fs w') (out_root ++ rel) = true) ∧
        cwd w' = cwd w ∧
        stdout w' = stdout w ++ ((λ rel, ok_line (root ++ rel) rel) <$> rels) ∧
        length (calls w') = length (calls w) + length rels.
Proof.
  intros Hm Hall. revert count w Hm.
  induction Hall as [|rel rels (Hrel & [text Hsrc] & Hext) _ IH]; intros count w Hm.
  { exists w. cbn. rewrite Nat.add_0_r, app_nil_r.
    split; [done|]. split; [done|]. split; [done|].
    split; [by intros rel ?%elem_of_nil|]. done. }
  destruct (process_file_ok rel text w Hm Hrel Hsrc Hext)
    as (w1 & Hstep & Hm1 & Hmono1 & Hdst & Hcwd1 & Hout1 & Hcalls1).
  destruct (IH (S count) w1 Hm1)
    as (w2 & Hrest & Hm2 & Hmono2 & Hdsts & Hcwd2 & Hout2 & Hcalls2).
  exists w2. cbn [fmap list_fmap process_files].
  rewrite (bind_Ok _ _ _ _ _ Hstep), Hrest. split; [|split; [done|split; [|split]]].
  - cbn. do 2 f_equal. lia.
  - auto.
  - intros rel' [->|Hin]%elem_of_cons; auto.
  - split; [congruence|]. split.
    + rewrite Hout2, Hout1, <- app_assoc. reflexivity.
    + rewrite Hcalls2, Hcalls1. cbn. lia.
Qed.

Lemma under_list (l : list path) :
  Forall (under root) l → ∃ rels, l = app root <$> rels.
Proof.
  induction 1 as [|p l (rel & _ & ->)%under_spec _ [rels ->]].
  - by exists [].
  - by exists (rel :: rels).
Qed.

(** A batch run over a well-formed tree whose supported files are valid
    UTF-8 and whose output root does not exist yet. *)
Lemma run_folder_ok (folder : string) (w : world) :
  Path folder = root → fs w = m0 →
  sources_readable root m0 = true → absent out_root m0 = true →
  ∃ w' rels,
    run_folder service mode folder args w = (Ok tt, w') ∧
    mirrored (fs w') ∧
    NoDup rels ∧
    (∀ rel, rel ∈ rels ↔
            is_file_in m0 (root ++ rel) = true ∧ has_supported_ext (root ++ rel) = true) ∧
    (∀ rel, rel ∈ rels → is_file_in (fs w') (out_root ++ rel) = true) ∧
    stdout w' = stdout w ++ banner
                ++ ((λ rel, ok_line (root ++ rel) rel) <$> rels)
                ++ [done_line mode (length rels) out_root] ∧
    length (calls w') = length (calls w) + length rels.
Proof.
  intros Hpath Hfs Hreadable Habsent.
  unfold sources_readable in Hreadable. unfold absent in Habsent.
  rewrite fs_forall_spec in Hreadable. rewrite fs_forall_spec in Habsent.
  (* the files of the loop *)
  set (files := List.filter (λ p, is_file_in m0 p && has_supported_ext p)
                            (entries_under root m0)).
  assert (∀ p, p ∈ files ↔
               under root p ∧ is_file_in m0 p = true ∧ has_supported_ext p = true)
    as Hfiles.
  { intros p. unfold files.
    rewrite elem_of_List_filter, elem_of_entries_under, andb_true_iff.
    split; [tauto|]. intros (Hu & [t Hf]%is_file_in_spec & Hs).
    split; [split; [done|by eexists]|]. split; [|done].
    apply is_file_in_spec. by eexists. }
  destruct (under_list files) as [rels Hrels].
  { apply Forall_forall. intros p Hp. by apply Hfiles in Hp as [? _]. }
  assert (Inj (=) (=) (app root)) as Hinj by (intros ???; by eapply app_inv_head).
  assert (∀ rel, rel ∈ rels ↔
                 is_file_in m0 (root ++ rel) = true ∧
                 has_supported_ext (root ++ rel) = true) as Hmem.
  { intros rel. rewrite <- (list_elem_of_fmap_inj (app root)), <- Hrels, Hfiles.
    split; [tauto|]. intros [Hf Hs]. split; [|done].
    apply under_spec. exists rel. split; [|done].
    intros ->. rewrite app_nil_r in Hf. apply is_file_in_spec in Hf as [t Hf].
    congruence. }
  assert (NoDup rels) as Hnodup.
  { apply (NoDup_fmap_1 (app root)). rewrite <- Hrels.
    apply NoDup_List_filter, NoDup_entries_under. }
  (* the state before the loop *)
  set (w1 := World (fs w) (cwd w) (stdout w ++ banner) (calls w)).
  assert (mirrored (fs w1)) as Hm1.
  { cbn. rewrite Hfs. split; [done|]. split.
    - intros rel t Hout. apply Habsent in Hout.
      apply negb_true_iff, bool_decide_eq_false in Hout. destruct Hout. by eexists.
    - intros rel Hout. apply Habsent in Hout.
      apply negb_true_iff, bool_decide_eq_false in Hout. destruct Hout. by eexists. }
  destruct (process_files_ok rels 0 w1 Hm1)
    as (w2 & Hloop & Hm2 & _ & Hdsts & _ & Hout2 & Hcalls2).
  { apply Forall_forall. intros rel Hrel. pose proof Hrel as [Hf Hs]%Hmem.
    apply is_file_in_spec in Hf as [t Hf].
    split; [|split; [|done]].
    - intros ->. rewrite app_nil_r in Hf. congruence.
    - specialize (Hreadable _ _ Hf). rewrite Hs, andb_true_r in Hreadable.
      rewrite bool_decide_eq_true_2 in Hreadable.
      + destruct t as [text|]; [by eexists|done].
      + apply under_spec. exists rel. split; [|done].
        intros ->. rewrite app_nil_r in Hf. congruence. }
  exists (World (fs w2) (cwd w2) (stdout w2 ++ [done_line mode (length rels) out_root])
                (calls w2)), rels.
  split; [|split; [done|split; [done|split; [done|split; [done|split]]]]].
  - unfold run_folder. rewrite Hpath.
    unfold bind at 1. unfold exists_ at 1.
    rewrite Hfs, Hroot, bool_decide_eq_true_2 by eauto.
    unfold bind at 1. unfold is_dir at 1, is_dir_in. rewrite Hfs, Hroot. cbn [negb orb].
    rewrite with_name_ok by done. fold (output_root mode root).
    unfold bind at 1. unfold ret at 1.
    unfold bind at 1. unfold print at 1. cbn [fs cwd stdout calls].
    trans ((files <- iter_code_files root ;;
            count <- process_files service mode args root out_root files 0 ;;
            print (done_line mode count out_root)) w1).
    { unfold w1, banner. destruct (warn_line mode) as [l|].
      - unfold bind at 1. unfold print at 1. cbn. by rewrite <- app_assoc.
      - reflexivity. }
    assert (iter_code_files root w1 = (Ok files, w1)) as Hiter.
    { unfold iter_code_files, bind, rglob, w1, files. cbn [fs]. by rewrite Hfs. }
    rewrite (bind_Ok _ _ _ _ _ Hiter), Hrels, (bind_Ok _ _ _ _ _ Hloop).
    reflexivity.
  - cbn. rewrite Hout2. cbn. by rewrite <- !app_assoc.
  - cbn. by rewrite Hcalls2.
Qed.

End Batch.

(** ** The batch modes *)

Lemma folder_modes_run service args run mode folder :
  (run, mode, folder) ∈ folder_modes service args →
  run args = run_folder service mode folder args ∧
  out_suffix mode ≠ "" ∧
  (∀ path_ text w, read_file path_ w = (Ok text, w) →
                   ∃ p, build_prompt mode path_ w = (Ok p, w)) ∧
  mode ∈ [fix_mode; refactor_mode; rewrite_mode].
Proof.
  unfold folder_modes. intros H. rewrite !elem_of_cons, elem_of_nil in H.
  destruct H as [[= -> -> ->]|[[= -> -> ->]|[[= -> -> ->]|[]]]];
    (split; [reflexivity|split; [done|]]);
    (split; [|repeat constructor]); intros path_ text w Hread; eexists.
  - by apply build_fix_prompt_eq.
  - by apply build_refactor_prompt_eq.
  - by apply build_rewrite_prompt_eq.
Qed.

(** Without an interrupt, the completion client always returns. *)
Lemma call_claude_returns service msgs mt t w :
  raises_only_Exception service →
  ∃ r, call_claude service msgs mt t w = (Ok r, sent (Request MODEL_NAME mt t msgs) w)
       ∧ True.
Proof.
  intros Hsvc. rewrite call_claude_cases. cbv zeta.
  destruct (service _ _) as [r|e] eqn:E.
  - destruct (blocks r) as [|[s|cls] bs]; by eexists.
  - rewrite (Hsvc _ _ _ E). by eexists.
Qed.

Lemma has_supported_ext_app (p q rel : path) :
  rel ≠ [] → has_supported_ext (p ++ rel) = has_supported_ext (q ++ rel).
Proof. intros H. unfold has_supported_ext. by rewrite !suffix_app. Qed.

(** C1, as the code has it.  For a well-formed file system, a root whose
    path has no [".."] and that is a directory with a name (not the current
    directory itself), supported files that are all valid UTF-8, no output
    root yet, and a service call that is not interrupted: each of the three
    batch modes returns normally, and afterwards the files below the output
    root are exactly the supported files below the root, at the same
    relative paths; so no file below the output root has an unsupported
    extension, and nothing outside the output root has changed. *)
Theorem batch_mirrors_supported_files service run mode folder (args : Args) (w : world) :
  (run, mode, folder) ∈ folder_modes service args →
  raises_only_Exception service →
  well_formed (fs w) = true →
  fs w !! Path folder = Some Dir →
  Path folder ≠ [] →
  (".." ∉ Path folder) →
  sources_readable (Path folder) (fs w) = true →
  absent (output_root mode (Path folder)) (fs w) = true →
  ∃ w', run args w = (Ok tt, w') ∧
    (∀ rel, is_file_in (fs w') (output_root mode (Path folder) ++ rel) = true ↔
            is_file_in (fs w) (Path folder ++ rel) = true ∧
            has_supported_ext (Path folder ++ rel) = true) ∧
    (∀ q, output_root mode (Path folder) `prefix_of` q →
          is_file_in (fs w') q = true → has_supported_ext q = true) ∧
    (∀ q, ¬ output_root mode (Path folder) `prefix_of` q → fs w' !! q = fs w !! q).
Proof.
  intros Hmode Hsvc Hwf Hroot Hne _ Hreadable Habsent.
  destruct (folder_modes_run _ _ _ _ _ Hmode) as (-> & Hsfx & Hbuild & Hin).
  destruct (run_folder_ok service mode args (Path folder) (fs w) (λ _, True)
              Hsfx Hbuild (λ msgs mt t w, call_claude_returns service msgs mt t w Hsvc)
              Hwf Hroot Hne folder w eq_refl eq_refl Hreadable Habsent)
    as (w' & rels & Hrun & (Hframe & Hfile & Hdir) & _ & Hmem & Hdsts & _).
  exists w'. split; [done|]. split; [|split; [|done]].
  - intros rel. split.
    + intros [t Ht]%is_file_in_spec. apply Hfile in Ht. tauto.
    + intros H. by apply Hdsts, Hmem.
  - intros q [rel ->] [t Ht]%is_file_in_spec.
    apply Hfile in Ht as (Hf & Hs & _).
    rewrite (has_supported_ext_app _ (Path folder)); [done|].
    intros ->. rewrite app_nil_r in Hf. apply is_file_in_spec in Hf as [t' Hf].
    congruence.
Qed.

(** [--fix-folder proj] on the sample tree. *)
Lemma batch_mirrors_supported_files_witness :
  ∃ w', run_fix_folder echo_service fix_proj sample_world = (Ok tt, w') ∧
    (∀ rel, is_file_in (fs w') (output_root fix_mode (Path "proj") ++ rel) = true ↔
            is_file_in (fs sample_world) (Path "proj" ++ rel) = true ∧
            has_supported_ext (Path "proj" ++ rel) = true) ∧
    (∀ q, output_root fix_mode (Path "proj") `prefix_of` q →
          is_file_in (fs w') q = true → has_supported_ext q = true) ∧
    (∀ q, ¬ output_root fix_mode (Path "proj") `prefix_of` q →
          fs w' !! q = fs sample_world !! q).
Proof.
  apply (batch_mirrors_supported_files echo_service (run_fix_folder echo_service)
           fix_mode "proj" fix_proj sample_world).
  - apply list_elem_of_here.
  - intros n req e H. discriminate H.
  - vm_compute. reflexivity.
  - vm_compute. reflexivity.
  - vm_compute. discriminate.
  - rewrite list_elem_of_In. vm_compute. not_in_list.
  - vm_compute. reflexivity.
  - vm_compute. reflexivity.
Defined.

(** C1 as stated fails: [legacy/main.c] has a supported extension and is
    not valid UTF-8; [--fix-folder legacy] stops with the decoding error of
    the read, and no file stands at [legacy_fixed/main.c]. *)
Lemma batch_stops_at_undecodable_file :
  fs latin1_world !! Path "legacy" = Some Dir ∧
  is_file_in (fs latin1_world) ["legacy"; "main.c"] = true ∧
  has_supported_ext ["legacy"; "main.c"] = true ∧
  ∃ msg w',
    run_fix_folder echo_service fix_legacy latin1_world
    = (Raised (Exn UnicodeDecodeError msg), w') ∧
    is_file_in (fs w') ["legacy_fixed"; "main.c"] = false.
Proof.
  split; [vm_compute; reflexivity|]. split; [vm_compute; reflexivity|].
  split; [vm_compute; reflexivity|]. do 2 eexists. vm_compute. split; reflexivity.
Qed.

(** [--fix-folder .]: the current directory passes the guard, and the
    output root cannot be named ([with_name] on a path without a name). *)
Example fix_folder_current_directory :
  run_folder echo_service fix_mode "." fix_proj sample_world
  = (Raised (Exn ValueError "PosixPath('.') has an empty name"), sample_world).
Proof. vm_compute. reflexivity. Qed.

(** ** The course of a batch run does not depend on the service *)

Lemma similar_insert_dir (out q : path) (m1 m2 : gmap path node) :
  similar out m1 m2 → similar out (<[q := Dir]> m1) (<[q := Dir]> m2).
Proof.
  intros H p. destruct (decide (q = p)) as [->|Hne].
  - by rewrite !lookup_insert_eq.
  - rewrite !lookup_insert_ne by done. apply H.
Qed.

Lemma similar_insert_file (out rel : path) (s1 s2 : string) (m1 m2 : gmap path node) :
  similar out m1 m2 →
  similar out (<[out ++ rel := File (Some s1)]> m1) (<[out ++ rel := File (Some s2)]> m2).
Proof.
  intros H p. destruct (decide (out ++ rel = p)) as [<-|Hne].
  - rewrite !lookup_insert_eq. split; [done|]. intros []. by eexists.
  - rewrite !lookup_insert_ne by done. apply H.
Qed.

(** [mkdir_from] looks at the kinds of the nodes only. *)
Lemma mkdir_from_similar (out todo done_ : path) (m1 m2 : gmap path node) :
  similar out m1 m2 →
  (∃ m1' m2', mkdir_from done_ todo m1 = Ok m1' ∧ mkdir_from done_ todo m2 = Ok m2' ∧
              similar out m1' m2') ∨
  (∃ e, mkdir_from done_ todo m1 = Raised e ∧ mkdir_from done_ todo m2 = Raised e).
Proof.
  revert done_ m1 m2. induction todo as [|c todo IH]; intros done_ m1 m2 Hsim.
  { left. by exists m1, m2. }
  cbn [mkdir_from]. cbv zeta. destruct (Hsim (done_ ++ [c])) as [Hk _].
  destruct (m1 !! (done_ ++ [c])) as [[|t1]|], (m2 !! (done_ ++ [c])) as [[|t2]|];
    try discriminate Hk.
  - by apply IH.
  - right. by eexists.
  - by apply IH, similar_insert_dir.
Qed.

Lemma write_text_similar (out rel : path) (s1 s2 : string) (w1 w2 : world) :
  alike out w1 w2 →
  (∃ w1' w2', write_text (out ++ rel) s1 w1 = (Ok tt, w1') ∧
              write_text (out ++ rel) s2 w2 = (Ok tt, w2') ∧ alike out w1' w2') ∨
  (∃ e, write_text (out ++ rel) s1 w1 = (Raised e, w1) ∧
        write_text (out ++ rel) s2 w2 = (Raised e, w2)).
Proof.
  intros (Hsim & Hcwd & Hout & Hcalls). unfold write_text.
  destruct (Hsim (out ++ rel)) as [Hk _].
  destruct (Hsim (parent (out ++ rel))) as [Hkp _].
  destruct (fs w1 !! (out ++ rel)) as [[|t1]|], (fs w2 !! (out ++ rel)) as [[|t2]|];
    try discriminate Hk; try (right; by eexists);
    destruct (out ++ rel) as [|c p] eqn:Ep; try (right; by eexists);
    destruct (fs w1 !! parent (c :: p)) as [[|u1]|],
             (fs w2 !! parent (c :: p)) as [[|u2]|];
    try discriminate Hkp; try (right; by eexists);
    left; do 2 eexists; (split; [done|split; [done|]]);
    (split; [|done]); cbn; rewrite <- Ep; by apply similar_insert_file.
Qed.

Section Independence.
Variables service1 service2 : nat → request → outcome.
Variable mode : batch_mode.
Variable args : Args.
Variable root : path.
(** The file system before the run. *)
Variable m0 : gmap path node.

Hypothesis Hsvc1 : raises_only_Exception service1.
Hypothesis Hsvc2 : raises_only_Exception service2.
Hypothesis Hsuffix : out_suffix mode ≠ "".
Hypothesis Hbuild_reads : ∀ path_, reads_only (build_prompt mode path_).
Hypothesis Hbuild_same : ∀ path_ w1 w2,
  fs w1 !! Path path_ = fs w2 !! Path path_ →
  (build_prompt mode path_ w1).1 = (build_prompt mode path_ w2).1.
Hypothesis Hwf : well_formed m0 = true.
Hypothesis Hne : root ≠ [].

Local Abbreviation out_root := (output_root mode root).
Local Abbreviation alike := (alike (output_root mode root)).

(** One turn of the loop, under two services. *)
Lemma process_file_alike (rel : path) (n : node) (w1 w2 : world) :
  alike w1 w2 → m0 !! (root ++ rel) = Some n →
  ∃ r w1' w2',
    process_file service1 mode args root out_root (root ++ rel) w1 = (r, w1') ∧
    process_file service2 mode args root out_root (root ++ rel) w2 = (r, w2') ∧
    alike w1' w2'.
Proof.
  intros Hw Hsrc. pose proof Hw as (Hsim & Hcwd & Hout & Hcalls).
  unfold process_file, relative_to. rewrite strip_prefix_app.
  rewrite !(bind_Ok (ret rel) _ _ _ rel) by done.
  (* the directories *)
  unfold mkdir_parents.
  destruct (mkdir_from_similar out_root (parent (out_root ++ rel)) [] _ _ Hsim)
    as [(m1 & m2 & Hmk1 & Hmk2 & Hsim')|(e & Hmk1 & Hmk2)].
  2:{ exists (Raised e), w1, w2. unfold bind. by rewrite Hmk1, Hmk2. }
  set (w1a := set_fs m1 w1). set (w2a := set_fs m2 w2).
  assert (alike w1a w2a) as Hwa by done.
  rewrite (bind_Ok _ _ w1 w1a tt) by (by rewrite Hmk1).
  rewrite (bind_Ok _ _ w2 w2a tt) by (by rewrite Hmk2).
  (* the prompt *)
  assert (Path (str (root ++ rel)) = root ++ rel) as Hpath.
  { apply Path_str. by eapply well_formed_names. }
  assert (m1 !! (root ++ rel) = m2 !! (root ++ rel)) as Hsame.
  { apply Hsim'. by apply out_root_not_above. }
  pose proof (Hbuild_same (str (root ++ rel)) w1a w2a) as Hb.
  rewrite Hpath in Hb. specialize (Hb Hsame).
  destruct (build_prompt mode (str (root ++ rel)) w1a) as [b1 w1b] eqn:E1.
  destruct (build_prompt mode (str (root ++ rel)) w2a) as [b2 w2b] eqn:E2.
  pose proof (Hbuild_reads _ _ _ _ E1) as ->.
  pose proof (Hbuild_reads _ _ _ _ E2) as ->.
  cbn in Hb. subst b2. destruct b1 as [prompt_|e].
  2:{ exists (Raised e), w1a, w2a.
      by rewrite (bind_Raised _ _ _ _ _ E1), (bind_Raised _ _ _ _ _ E2). }
  rewrite (bind_Ok _ _ _ _ _ E1), (bind_Ok _ _ _ _ _ E2).
  (* the replies *)
  destruct (call_claude_returns service1 (user_message prompt_) (max_tokens args)
              (temperature args) w1a Hsvc1) as (r1 & Hc1 & _).
  destruct (call_claude_returns service2 (user_message prompt_) (max_tokens args)
              (temperature args) w2a Hsvc2) as (r2 & Hc2 & _).
  rewrite (bind_Ok _ _ _ _ _ Hc1), (bind_Ok _ _ _ _ _ Hc2).
  set (req := Request MODEL_NAME (max_tokens args) (temperature args)
                (user_message prompt_)).
  assert (alike (sent req w1a) (sent req w2a)) as Hws.
  { destruct Hwa as (Hs' & Hcwd' & Hout' & Hcalls').
    unfold w1a, w2a in *. cbn in *.
    split; [done|]. split; [done|]. split; [done|]. cbn. congruence. }
  (* the write *)
  destruct (write_text_similar out_root rel r1 r2 _ _ Hws)
    as [(w1c & w2c & Hwr1 & Hwr2 & Hwc)|(e & Hwr1 & Hwr2)].
  2:{ exists (Raised e), (sent req w1a), (sent req w2a).
      by rewrite (bind_Raised _ _ _ _ _ Hwr1), (bind_Raised _ _ _ _ _ Hwr2). }
  rewrite (bind_Ok _ _ _ _ _ Hwr1), (bind_Ok _ _ _ _ _ Hwr2).
  do 3 eexists. split; [reflexivity|]. split; [reflexivity|].
  destruct Hwc as (? & ? & Ho & ?). split; [done|]. split; [done|].
  split; [|done]. cbn. by rewrite Ho.
Qed.

(** The loop, under two services. *)
Lemma process_files_alike (rels : list path) (count : nat) (w1 w2 : world) :
  alike w1 w2 → Forall (λ rel, is_Some (m0 !! (root ++ rel))) rels →
  ∃ r w1' w2',
    process_files service1 mode args root out_root (app root <$> rels) count w1
    = (r, w1') ∧
    process_files service2 mode args root out_root (app root <$> rels) count w2
    = (r, w2') ∧
    alike w1' w2'.
Proof.
  intros Hw Hall. revert count w1 w2 Hw.
  induction Hall as [|rel rels [n Hrel] _ IH]; intros count w1 w2 Hw.
  { by exists (Ok count), w1, w2. }
  cbn [fmap list_fmap process_files].
  destruct (process_file_alike rel n w1 w2 Hw Hrel) as (r & w1' & w2' & H1 & H2 & Hw').
  destruct r as [[]|e].
  - rewrite (bind_Ok _ _ _ _ _ H1), (bind_Ok _ _ _ _ _ H2). by apply IH.
  - exists (Raised e), w1', w2'.
    by rewrite (bind_Raised _ _ _ _ _ H1), (bind_Raised _ _ _ _ _ H2).
Qed.

End Independence.

Lemma builders_read_only (mode : batch_mode) (path_ : string) :
  mode ∈ [fix_mode; refactor_mode; rewrite_mode] →
  reads_only (build_prompt mode path_).
Proof.
  rewrite !elem_of_cons, elem_of_nil. intros [->|[->|[->|[]]]]; cbn;
    [unfold build_fix_prompt|unfold build_refactor_prompt|unfold build_rewrite_prompt];
    reads_only_tac.
Qed.

Lemma builders_same (mode : batch_mode) (path_ : string) (w1 w2 : world) :
  mode ∈ [fix_mode; refactor_mode; rewrite_mode] →
  fs w1 !! Path path_ = fs w2 !! Path path_ →
  (build_prompt mode path_ w1).1 = (build_prompt mode path_ w2).1.
Proof.
  rewrite !elem_of_cons, elem_of_nil. intros [->|[->|[->|[]]]] H; cbn;
    [unfold build_fix_prompt|unfold build_refactor_prompt|unfold build_rewrite_prompt];
    unfold bind; rewrite !read_file_unfold, H;
    by destruct (fs w2 !! Path path_) as [[|[s|]]|].
Qed.

Lemma always_fails_no_interrupt (service : nat → request → outcome) :
  always_fails service → raises_only_Exception service.
Proof.
  intros H n req e He. destruct (H n req) as (e' & He' & Hexc). congruence.
Qed.

Lemma similar_refl (out : path) (m : gmap path node) : similar out m m.
Proof. by intros q. Qed.

(** [run_folder], up to the loop. *)
Lemma run_folder_unfold service (mode : batch_mode) (folder : string)
    (args : Args) (w : world) :
  run_folder service mode folder args w =
  match fs w !! Path folder with
  | Some Dir =>
      match Path folder with
      | [] => (Raised (Exn ValueError "PosixPath('.') has an empty name"), w)
      | _ =>
          (count <- process_files service mode args (Path folder)
                      (output_root mode (Path folder))
                      (List.filter (λ p, is_file_in (fs w) p && has_supported_ext p)
                                   (entries_under (Path folder) (fs w))) 0 ;;
           print (done_line mode count (output_root mode (Path folder))))
            (World (fs w) (cwd w) (stdout w ++ banner mode (Path folder)) (calls w))
      end
  | _ => (Ok tt, World (fs w) (cwd w) (stdout w ++ [error_line (Path folder)]) (calls w))
  end.
Proof.
  unfold run_folder, bind, exists_, is_dir, is_dir_in, with_name, iter_code_files,
    rglob, banner, print, ret, raise, output_root.
  destruct (fs w !! Path folder) as [[|t]|] eqn:E; cbn; [|reflexivity..].
  destruct (Path folder) as [|c p] eqn:Er; [reflexivity|].
  destruct (warn_line mode); cbn; rewrite <- ?app_assoc; reflexivity.
Qed.

(** A whole batch run, under two services that are not interrupted: the
    same result, the same lines printed, the same requests sent, and file
    systems that differ in the text of the output files only. *)
Lemma run_folder_alike service1 service2 (mode : batch_mode) (folder : string)
    (args : Args) (w : world) :
  mode ∈ [fix_mode; refactor_mode; rewrite_mode] →
  raises_only_Exception service1 → raises_only_Exception service2 →
  well_formed (fs w) = true →
  ∃ r w1 w2,
    run_folder service1 mode folder args w = (r, w1) ∧
    run_folder service2 mode folder args w = (r, w2) ∧
    alike (output_root mode (Path folder)) w1 w2.
Proof.
  intros Hmode Hsvc1 Hsvc2 Hwf. rewrite !run_folder_unfold.
  assert (∀ w', alike (output_root mode (Path folder)) w' w') as Hrefl.
  { intros w'. split; [apply similar_refl|done]. }
  destruct (fs w !! Path folder) as [[|t]|]; [|by do 3 eexists..].
  destruct (decide (Path folder = [])) as [->|Hne]; [by do 3 eexists|].
  assert (∀ (X Y : result unit * world), match Path folder with [] => X | _ => Y end = Y)
    as Hcons by (intros; by destruct (Path folder)).
  rewrite !Hcons. clear Hcons.
  set (files := List.filter _ _).
  assert (∃ rels, files = app (Path folder) <$> rels ∧
                  Forall (λ rel, is_Some (fs w !! (Path folder ++ rel))) rels)
    as (rels & -> & Hrels).
  { assert (Forall (λ p, under (Path folder) p ∧ is_Some (fs w !! p)) files) as Hall.
    { apply Forall_forall. intros p [Hp _]%elem_of_List_filter.
      by apply elem_of_entries_under in Hp. }
    clearbody files.
    induction Hall as [|p l [(rel & _ & ->)%under_spec Hp] _ (rels & -> & IH)].
    - by exists [].
    - exists (rel :: rels). split; [done|]. by constructor. }
  assert (out_suffix mode ≠ "") as Hsfx.
  { rewrite !elem_of_cons, elem_of_nil in Hmode.
    by destruct Hmode as [->|[->|[->|[]]]]. }
  set (wb := World _ _ _ _).
  destruct (process_files_alike service1 service2 mode args (Path folder) (fs w)
              Hsvc1 Hsvc2 Hsfx (λ p, builders_read_only mode p Hmode)
              (λ p w1 w2, builders_same mode p w1 w2 Hmode) Hwf Hne rels 0 wb wb
              (Hrefl wb) Hrels)
    as (r & w1 & w2 & H1 & H2 & Hw12).
  unfold bind. rewrite H1, H2. destruct r as [count|e].
  - do 3 eexists. split; [reflexivity|]. split; [reflexivity|].
    destruct Hw12 as (? & ? & Ho & ?). split; [done|]. split; [done|].
    split; [|done]. cbn. by rewrite Ho.
  - by exists (Raised e), w1, w2.
Qed.

(** * Further properties *)

(** ** Requests of a run *)

Lemma silent_sends {A} (Q : request → Prop) (m : M A) : silent m → sends Q m.
Proof.
  intros H w r w' Hm. exists []. rewrite app_nil_r. split; [by eapply H|constructor].
Qed.

Lemma sends_bind {A B} (Q : request → Prop) (m : M A) (k : A → M B) :
  sends Q m → (∀ a, sends Q (k a)) → sends Q (bind m k).
Proof.
  intros Hm Hk w r w'. unfold bind. destruct (m w) as [[a|e] w1] eqn:E.
  - intros H. apply Hk in H as (new2 & H2 & HQ2). apply Hm in E as (new1 & H1 & HQ1).
    exists (new1 ++ new2). rewrite H2, H1, app_assoc. split; [done|].
    by apply Forall_app.
  - intros [= _ <-]. by apply Hm in E.
Qed.

Lemma sends_call_claude service (prompt_ : string) (mt : Z) (t : Q) :
  sends (sampled mt t) (call_claude service (user_message prompt_) mt t).
Proof.
  intros w r w'. rewrite call_claude_cases. cbv zeta. intros H.
  exists [Request MODEL_NAME mt t (user_message prompt_)].
  split.
  - destruct (service _ _) as [resp|e].
    + destruct (blocks resp) as [|[s|cls] bs]; by injection H as _ <-.
    + destruct (is_Exception (exn_cls e)); by injection H as _ <-.
  - repeat constructor. by exists prompt_.
Qed.

Lemma silent_relative_to (p root : path) : silent (relative_to p root).
Proof.
  apply reads_only_silent. unfold relative_to.
  destruct (strip_prefix root p); by intros w r w' [= _ <-].
Qed.

Lemma sends_process_file service (mode : batch_mode) (args : Args)
    (root out_root src : path) :
  (∀ path_, reads_only (build_prompt mode path_)) →
  sends (sampled (max_tokens args) (temperature args))
        (process_file service mode args root out_root src).
Proof.
  intros Hb. unfold process_file.
  apply sends_bind; [apply silent_sends, silent_relative_to|]. intros rel.
  apply sends_bind; [apply silent_sends, silent_mkdir_parents|]. intros _.
  apply sends_bind; [apply silent_sends, reads_only_silent, Hb|]. intros prompt_.
  apply sends_bind; [apply sends_call_claude|]. intros reply.
  apply sends_bind; [apply silent_sends, silent_write_text|]. intros _.
  apply silent_sends, silent_print.
Qed.

Lemma sends_process_files service (mode : batch_mode) (args : Args)
    (root out_root : path) (files : list path) (count : nat) :
  (∀ path_, reads_only (build_prompt mode path_)) →
  sends (sampled (max_tokens args) (temperature args))
        (process_files service mode args root out_root files count).
Proof.
  intros Hb. revert count. induction files as [|src files IH]; intros count; cbn.
  - apply silent_sends. by intros w r w' [= _ <-].
  - apply sends_bind; [by apply sends_process_file|]. intros _. apply IH.
Qed.

Lemma sends_run_folder service (mode : batch_mode) (folder : string) (args : Args) :
  mode ∈ [fix_mode; refactor_mode; rewrite_mode] →
  sends (sampled (max_tokens args) (temperature args))
        (run_folder service mode folder args).
Proof.
  intros Hmode. unfold run_folder.
  apply sends_bind; [apply silent_sends; by intros w r w' [= _ <-]|]. intros found.
  apply sends_bind; [apply silent_sends; by intros w r w' [= _ <-]|]. intros isdir.
  destruct (negb found || negb isdir); [apply silent_sends, silent_print|].
  apply sends_bind.
  { apply silent_sends. unfold with_name.
    destruct (Path folder); by intros w r w' [= _ <-]. }
  intros out_root.
  apply sends_bind; [apply silent_sends, silent_print|]. intros _.
  apply sends_bind.
  { apply silent_sends. destruct (warn_line mode); [apply silent_print|].
    by intros w r w' [= _ <-]. }
  intros _. apply sends_bind.
  { apply silent_sends. unfold iter_code_files, bind, rglob.
    by intros w r w' [= _ <-]. }
  intros files. apply sends_bind.
  - apply sends_process_files. intros p. by apply builders_read_only.
  - intros count. apply silent_sends, silent_print.
Qed.

Lemma sampled_spelled (mt : Z) (t : Q) (new : list request) :
  Forall (sampled mt t) new →
  Forall (λ q, model q = MODEL_NAME ∧
               req_max_tokens q = mt ∧ req_temperature q = t ∧
               ∃ prompt_, messages q = [ {| role := "user"; content := prompt_ |} ])
         new.
Proof.
  intros H. eapply Forall_impl; [exact H|]. by intros q ([? ?] & ? & ?).
Qed.

(** X1.  In any world, with any service, and whether the run completes or
    stops with an exception: a batch mode only appends to the log of
    requests, and every request it sends names the model of the
    configuration, carries the [--max-tokens] and [--temperature] of the
    command line, and holds exactly one message, whose role is ["user"]. *)
Theorem batch_requests_carry_flags service (args : Args) (w : world) :
  Forall (λ run : Args → M unit,
            ∃ new, calls (run args w).2 = calls w ++ new ∧
                   Forall (λ q, model q = MODEL_NAME ∧
                                req_max_tokens q = max_tokens args ∧
                                req_temperature q = temperature args ∧
                                ∃ prompt_,
                                  messages q = [ {| role := "user"; content := prompt_ |} ])
                          new)
         [ run_fix_folder service; run_refactor_folder service;
           run_rewrite_folder service ].
Proof.
  assert (∀ mode folder, mode ∈ [fix_mode; refactor_mode; rewrite_mode] →
            ∃ new, calls (run_folder service mode folder args w).2 = calls w ++ new ∧
                   Forall (sampled (max_tokens args) (temperature args)) new) as H.
  { intros mode folder Hmode.
    destruct (run_folder service mode folder args w) as [r w'] eqn:E.
    by apply (sends_run_folder service mode folder args Hmode) in E. }
  repeat constructor;
    (edestruct H as (new & H1 & H2); [|exists new; split; [exact H1|]];
     [|by apply sampled_spelled]); repeat constructor.
Qed.

(** [--fix-folder proj --max-tokens 100 --temperature 0.7] on the sample
    tree: two requests, each for the model of the configuration, with 100
    and 0.7, and with one message of role ["user"]. *)
Lemma batch_requests_carry_flags_witness :
  Forall (λ run : Args → M unit,
            ∃ new, calls (run fix_proj_with_flags sample_world).2
                   = calls sample_world ++ new ∧
                   Forall (λ q, model q = MODEL_NAME ∧
                                req_max_tokens q = 100%Z ∧
                                req_temperature q = 7 # 10 ∧
                                ∃ prompt_,
                                  messages q = [ {| role := "user"; content := prompt_ |} ])
                          new)
         [ run_fix_folder echo_service; run_refactor_folder echo_service;
           run_rewrite_folder echo_service ] ∧
  envelope <$> calls (run_fix_folder echo_service fix_proj_with_flags sample_world).2
  = [ ("claude-3-haiku-20240307", 100%Z, 7 # 10, ["user"]);
      ("claude-3-haiku-20240307", 100%Z, 7 # 10, ["user"]) ].
Proof.
  split.
  - apply (batch_requests_carry_flags echo_service fix_proj_with_flags sample_world).
  - vm_compute. reflexivity.
Defined.

(** ** The modes that send one request *)

Lemma single_modes_shape service (args : Args) run build mt t :
  (run, build, mt, t) ∈ single_modes service args →
  run args = single_call service build mt t args ∧ reads_only build.
Proof.
  unfold single_modes. rewrite !elem_of_cons, elem_of_nil.
  intros [H|[H|[H|[H|[H|[H|[H|[H|[]]]]]]]]]; injection H as -> -> -> ->;
    (split; [|first [apply reads_only_ret
                    | unfold build_single_prompt; destruct (truthy (file args))
                    | unfold build_explain_prompt | unfold build_fix_prompt
                    | unfold build_refactor_prompt | unfold build_folder_analysis_prompt
                    | unfold build_project_qa_prompt | unfold build_diff_prompt ];
               reads_only_tac]); try reflexivity.
  unfold run_diff. by destruct (default ("", "") (diff args)) as [file_a file_b].
Qed.

Lemma single_call_run service (build : M string) mt t (args : Args) (w : world)
    (prompt_ reply : string) (w1 : world) :
  build w = (Ok prompt_, w) →
  call_claude service (user_message prompt_) mt t w = (Ok reply, w1) →
  single_call service build mt t args w = write_output_if_needed args reply w1.
Proof.
  intros Hb Hc. unfold single_call.
  by rewrite (bind_Ok _ _ _ _ _ Hb), (bind_Ok _ _ _ _ _ Hc).
Qed.

(** X2.  A mode that sends one request and runs without [--out] prints the
    text of the reply as it is, and nothing else; the file system is left
    as it was.  A failure of the service is not reported as an error: the
    run returns normally and what it prints is the error sentinel.  Only
    what is not an [Exception] (an interrupt) ends the run, after the
    request, with nothing printed. *)
Theorem single_mode_prints_reply service (args : Args) (w : world) run build mt t
    (prompt_ : string) :
  (run, build, mt, t) ∈ single_modes service args →
  build w = (Ok prompt_, w) →
  truthy (out args) = false →
  let req := Request MODEL_NAME mt t (user_message prompt_) in
  (∀ text bs, service (length (calls w)) req = Returns (Response (TextBlock text :: bs)) →
     run args w = (Ok tt, World (fs w) (cwd w) (stdout w ++ [text]) (calls w ++ [req]))) ∧
  (∀ e, service (length (calls w)) req = Raises e → is_Exception (exn_cls e) = true →
     run args w = (Ok tt, World (fs w) (cwd w)
                            (stdout w ++ ["[API ERROR] " +:+ exn_str e])
                            (calls w ++ [req]))) ∧
  (∀ e, service (length (calls w)) req = Raises e → is_Exception (exn_cls e) = false →
     run args w = (Raised e, World (fs w) (cwd w) (stdout w) (calls w ++ [req]))).
Proof.
  intros [-> _]%single_modes_shape Hb Hout req.
  pose proof (call_claude_cases service (user_message prompt_) mt t w) as Hc.
  cbv zeta in Hc. fold req in Hc.
  split; [|split].
  - intros text bs Hs. rewrite Hs in Hc. cbn in Hc.
    rewrite (single_call_run _ _ _ _ _ _ _ _ _ Hb Hc).
    unfold write_output_if_needed. by rewrite Hout.
  - intros e Hs He. rewrite Hs, He in Hc.
    rewrite (single_call_run _ _ _ _ _ _ _ _ _ Hb Hc).
    unfold write_output_if_needed. by rewrite Hout.
  - intros e Hs He. rewrite Hs, He in Hc. unfold single_call.
    by rewrite (bind_Ok _ _ _ _ _ Hb), (bind_Raised _ _ _ _ _ Hc).
Qed.

(** [--explain proj/a.py] with a service that answers ["OK"]. *)
Lemma single_mode_prints_reply_witness :
  run_explain echo_service explain_a sample_world
  = (Ok tt, World sample_fs "/home/user" ["OK"]
              [Request MODEL_NAME 4096 (1 # 10) (user_message explain_a_prompt)]).
Proof.
  apply (proj1 (single_mode_prints_reply echo_service explain_a sample_world
                  (run_explain echo_service)
                  (build_explain_prompt "proj/a.py") 4096%Z (1 # 10) explain_a_prompt
                  ltac:(unfold single_modes; apply list_elem_of_further, list_elem_of_here)
                  ltac:(vm_compute; reflexivity) eq_refl) "OK" []).
  reflexivity.
Defined.

(** X3.  When the file named by [--explain], [--fix], [--refactor] or (in
    one-shot mode) [--file] cannot be read, the run stops with the
    exception of [read_file] before anything is sent, printed or written;
    for a missing file it is [FileNotFoundError] with the path as given. *)
Theorem unreadable_file_aborts service (args : Args) (w : world) run (path_ : string) :
  (run, path_) ∈ file_modes service args →
  (∀ text, fs w !! Path path_ ≠ Some (File (Some text))) →
  ∃ e, read_file path_ w = (Raised e, w) ∧
       run args w = (Raised e, w) ∧
       (fs w !! Path path_ = None →
        e = Exn FileNotFoundError ("File not found: " +:+ path_)).
Proof.
  intros Hrun Hbad.
  assert (∃ e, read_file path_ w = (Raised e, w) ∧
               (fs w !! Path path_ = None →
                e = Exn FileNotFoundError ("File not found: " +:+ path_)))
    as (e & He & Hmsg).
  { rewrite read_file_unfold.
    destruct (fs w !! Path path_) as [[|[s|]]|] eqn:E; try (by eexists).
    by destruct (Hbad s). }
  exists e. split; [done|]. split; [|done].
  unfold file_modes in Hrun. apply elem_of_app in Hrun as [Hrun|Hrun].
  - rewrite !elem_of_cons, elem_of_nil in Hrun.
    destruct Hrun as [H|[H|[H|[]]]]; injection H as -> ->.
    + unfold run_explain, build_explain_prompt.
      by rewrite (bind_Raised _ _ _ _ _ (bind_Raised _ _ _ _ _ He)).
    + unfold run_fix, build_fix_prompt. cbv zeta.
      by rewrite (bind_Raised _ _ _ _ _ (bind_Raised _ _ _ _ _ He)).
    + unfold run_refactor, build_refactor_prompt. cbv zeta.
      by rewrite (bind_Raised _ _ _ _ _ (bind_Raised _ _ _ _ _ He)).
  - destruct (truthy (file args)) eqn:Hf; [|by apply elem_of_nil in Hrun].
    apply list_elem_of_singleton in Hrun. injection Hrun as -> ->.
    unfold run_one_shot, build_single_prompt. rewrite Hf.
    by rewrite (bind_Raised _ _ _ _ _ (bind_Raised _ _ _ _ _ He)).
Qed.

(** [--explain proj/missing.py]. *)
Lemma unreadable_file_aborts_witness :
  ∃ e, read_file "proj/missing.py" sample_world = (Raised e, sample_world) ∧
       run_explain echo_service explain_missing sample_world = (Raised e, sample_world) ∧
       (fs sample_world !! Path "proj/missing.py" = None →
        e = Exn FileNotFoundError "File not found: proj/missing.py").
Proof.
  apply (unreadable_file_aborts echo_service explain_missing sample_world
           (run_explain echo_service) "proj/missing.py").
  - apply list_elem_of_here.
  - intros text. vm_compute. discriminate.
Defined.

Lemma sends_once_single_call service (build : M string) mt t (args : Args) :
  reads_only build → sends_once (sampled mt t) (single_call service build mt t args).
Proof.
  intros Hb w r w' Hrun.
  destruct (single_call_requests service build mt t args w Hb) as [H|[p H]];
    rewrite Hrun in H; cbn in H.
  - exists []. rewrite app_nil_r. split; [done|]. split; [constructor|cbn; lia].
  - exists [Request MODEL_NAME mt t (user_message p)]. split; [done|].
    split; [|cbn; lia]. repeat constructor. by exists p.
Qed.

Lemma sampled_well_addressed (mt : Z) (t : Q) (new : list request) :
  Forall (sampled mt t) new → Forall well_addressed new.
Proof. intros H. eapply Forall_impl; [exact H|]. by intros q [Hq _]. Qed.

(** X4.  Whatever the command line, the world and the service: [main] only
    appends to the log of requests; every request it sends names the model
    of the configuration and holds exactly one message, whose role is
    ["user"]; and outside the three batch modes it sends at most one
    request. *)
Theorem main_requests service (args : Args) (w : world) :
  ∃ new, calls (main service args w).2 = calls w ++ new ∧
         Forall (λ q, model q = MODEL_NAME ∧
                      ∃ prompt_,
                        messages q = [ {| role := "user"; content := prompt_ |} ])
                new ∧
         (select_mode args ∉ batch_modes → length new ≤ 1).
Proof.
  assert (∀ run build mt t, (run, build, mt, t) ∈ single_modes service args →
            ∃ new, calls (run args w).2 = calls w ++ new ∧
                   Forall well_addressed new ∧ length new ≤ 1) as Hsingle.
  { intros run build mt t [-> Hb]%single_modes_shape.
    destruct (single_call service build mt t args w) as [r w'] eqn:E.
    apply (sends_once_single_call service build mt t args Hb) in E
      as (new & H1 & H2 & H3).
    exists new. split; [done|]. split; [by eapply sampled_well_addressed|done]. }
  assert (∀ mode folder, mode ∈ [fix_mode; refactor_mode; rewrite_mode] →
            ∃ new, calls (run_folder service mode folder args w).2 = calls w ++ new ∧
                   Forall well_addressed new) as Hbatch.
  { intros mode folder Hmode.
    destruct (run_folder service mode folder args w) as [r w'] eqn:E.
    apply (sends_run_folder service mode folder args Hmode) in E as (new & H1 & H2).
    exists new. split; [done|]. by eapply sampled_well_addressed. }
  assert (∀ run : Args → M unit, (∃ new, calls (run args w).2 = calls w ++ new ∧
                         Forall well_addressed new ∧ length new ≤ 1) →
            ∀ m, ∃ new, calls (run args w).2 = calls w ++ new ∧
                        Forall well_addressed new ∧ (m ∉ batch_modes → length new ≤ 1))
    as Hweak.
  { intros run (new & H1 & H2 & H3) m. exists new. by repeat split. }
  assert (∀ (m : mode) (run : Args → M unit), m ∈ batch_modes →
            (∃ new, calls (run args w).2 = calls w ++ new ∧ Forall well_addressed new) →
            ∃ new, calls (run args w).2 = calls w ++ new ∧
                   Forall well_addressed new ∧ (m ∉ batch_modes → length new ≤ 1))
    as Hin.
  { intros m run Hm (new & H1 & H2). exists new. by repeat split. }
  change (∃ new, calls (main service args w).2 = calls w ++ new ∧
                 Forall well_addressed new ∧
                 (select_mode args ∉ batch_modes → length new ≤ 1)).
  unfold main. destruct (select_mode args); cbn [run_mode].
  - apply Hweak. eapply Hsingle. do 1 apply list_elem_of_further. apply list_elem_of_here.
  - apply Hweak. eapply Hsingle. do 2 apply list_elem_of_further. apply list_elem_of_here.
  - apply Hweak. eapply Hsingle. do 3 apply list_elem_of_further. apply list_elem_of_here.
  - apply Hweak. eapply Hsingle. do 4 apply list_elem_of_further. apply list_elem_of_here.
  - apply Hweak. eapply Hsingle. do 5 apply list_elem_of_further. apply list_elem_of_here.
  - apply Hweak. eapply Hsingle. do 6 apply list_elem_of_further. apply list_elem_of_here.
  - apply Hweak. eapply Hsingle. do 7 apply list_elem_of_further. apply list_elem_of_here.
  - apply Hin; [apply list_elem_of_here|]. apply Hbatch, list_elem_of_here.
  - apply Hin; [apply list_elem_of_further, list_elem_of_here|].
    apply Hbatch, list_elem_of_further, list_elem_of_here.
  - apply Hin; [do 2 apply list_elem_of_further; apply list_elem_of_here|].
    apply Hbatch. do 2 apply list_elem_of_further. apply list_elem_of_here.
  - apply Hweak. eapply Hsingle. apply list_elem_of_here.
Qed.

(** [--explain proj/a.py --max-tokens 100 --temperature 0.7]: one request,
    for the model of the configuration, with one message of role
    ["user"]. *)
Lemma main_requests_witness :
  (∃ new, calls (main echo_service explain_with_flags sample_world).2
          = calls sample_world ++ new ∧
          Forall (λ q, model q = MODEL_NAME ∧
                       ∃ prompt_,
                         messages q = [ {| role := "user"; content := prompt_ |} ])
                 new ∧
          (select_mode explain_with_flags ∉ batch_modes → length new ≤ 1)) ∧
  envelope <$> calls (main echo_service explain_with_flags sample_world).2
  = [ ("claude-3-haiku-20240307", 4096%Z, 1 # 10, ["user"]) ] ∧
  envelope <$> calls (main echo_service fix_proj sample_world).2
  = [ ("claude-3-haiku-20240307", 4096%Z, 1 # 10, ["user"]);
      ("claude-3-haiku-20240307", 4096%Z, 1 # 10, ["user"]) ].
Proof.
  split.
  - apply (main_requests echo_service explain_with_flags sample_world).
  - vm_compute. split; reflexivity.
Defined.

(** ** Output to a file *)

Lemma prefix_of_parent (q p : path) :
  p ≠ [] → q `prefix_of` parent p ↔ q `prefix_of` p ∧ q ≠ p.
Proof.
  intros Hp. pose proof (path_snoc p Hp) as Hsn. revert Hsn.
  generalize (parent p) (name p). intros l c ->. split.
  - intros [k ->]. split.
    + exists (k ++ [c]). by rewrite <- app_assoc.
    + intros H. apply (f_equal length) in H. rewrite !length_app in H. cbn in H. lia.
  - intros [[k Hk] Hne]. destruct (decide (k = [])) as [->|Hk'].
    + by rewrite app_nil_r in Hk.
    + rewrite (path_snoc k Hk'), app_assoc in Hk.
      apply app_inj_tail in Hk as [-> _]. by apply prefix_app_r.
Qed.

Lemma write_output_to_file (args : Args) (content_ : string) (w : world) :
  truthy (out args) = true →
  Path (value (out args)) ≠ [] →
  fs w !! [] = Some Dir →
  (∀ q, q `prefix_of` Path (value (out args)) → q ≠ Path (value (out args)) →
        fs w !! q = None ∨ fs w !! q = Some Dir) →
  fs w !! Path (value (out args)) ≠ Some Dir →
  ∃ w', write_output_if_needed args content_ w = (Ok tt, w') ∧
        fs w' !! Path (value (out args)) = Some (File (Some content_)) ∧
        (∀ q, q `prefix_of` Path (value (out args)) → q ≠ Path (value (out args)) →
              fs w' !! q = Some Dir) ∧
        (∀ q, ¬ q `prefix_of` Path (value (out args)) → fs w' !! q = fs w !! q) ∧
        cwd w' = cwd w ∧ calls w' = calls w ∧
        ∃ abs, stdout w' = stdout w ++ [nl +:+ "[OK] Written to " +:+ abs +:+ nl].
Proof.
  set (p := Path (value (out args))). intros Hout Hp Hcwd Hway Hnd.
  destruct (mkdir_from_ok (parent p) [] (fs w)) as (m & Hmk & Hdirs & Hframe).
  { intros q _ Hq. cbn in Hq. apply prefix_of_parent in Hq as [Hq Hne]; [|done].
    by apply Hway. }
  cbn [app] in Hdirs, Hframe.
  assert (∀ q, q `prefix_of` p → q ≠ p → m !! q = Some Dir) as Hdirs'.
  { intros q Hq Hne. destruct q as [|c q].
    - destruct (Hframe []) as [->|(_ & _ & [_ H] & _)]; done.
    - apply Hdirs; [|by apply prefix_of_parent].
      split; [apply prefix_nil|done]. }
  assert (∀ q, ¬ q `prefix_of` p → m !! q = fs w !! q) as Hframe'.
  { intros q Hq. destruct (Hframe q) as [->|(_ & _ & _ & H)]; [done|].
    destruct Hq. by apply prefix_of_parent in H as [H _]. }
  assert (m !! p = fs w !! p) as Hsame.
  { destruct (Hframe p) as [->|(_ & _ & _ & H)]; [done|].
    by apply prefix_of_parent in H as [_ H]. }
  assert (write_text p content_ (set_fs m w)
          = (Ok tt, set_fs (<[p := File (Some content_)]> m) (set_fs m w))) as Hwr.
  { apply write_text_ok; cbn [fs set_fs]; [by rewrite Hsame|done|].
    assert (parent p `prefix_of` parent p) as H by done.
    apply prefix_of_parent in H as [H1 H2]; [|done]. by apply Hdirs'. }
  eexists. split.
  { unfold write_output_if_needed. rewrite Hout. cbn [negb]. fold p.
    unfold bind at 1. unfold mkdir_parents at 1. rewrite Hmk.
    unfold bind at 1. rewrite Hwr. reflexivity. }
  cbn. split; [by rewrite lookup_insert_eq|].
  split; [intros q Hq Hne; by rewrite lookup_insert_ne, Hdirs'|].
  split.
  { intros q Hq. rewrite lookup_insert_ne; [by apply Hframe'|]. by intros <-. }
  split; [done|]. split; [done|]. by eexists.
Qed.

Lemma call_claude_world service msgs mt t (w w' : world) (r : result string) :
  call_claude service msgs mt t w = (r, w') →
  w' = sent (Request MODEL_NAME mt t msgs) w.
Proof.
  rewrite call_claude_cases. cbv zeta. destruct (service _ _) as [resp|e].
  - destruct (blocks resp) as [|[s|cls] bs]; by intros [= _ <-].
  - destruct (is_Exception (exn_cls e)); by intros [= _ <-].
Qed.

Lemma call_claude_reply service msgs mt t (w : world) (reply : string) :
  (call_claude service msgs mt t w).1 = Ok reply →
  call_claude service msgs mt t w = (Ok reply, sent (Request MODEL_NAME mt t msgs) w).
Proof.
  destruct (call_claude service msgs mt t w) as [r w'] eqn:E. cbn. intros ->.
  by rewrite (call_claude_world _ _ _ _ _ _ _ E).
Qed.

(** X5.  With [--out], a mode that sends one request stores what
    [call_claude] returns (the reply, or the error sentinel) in the named
    file and prints only the confirmation line, not the reply.  For an
    output path without [..] it is enough that the current directory
    exists, that nothing but directories stands on the way to the file, and
    that the path itself is not a directory: missing directories on the way
    are created, an earlier file at the path is overwritten, and nothing
    else in the file system changes. *)
Theorem single_mode_stores_reply service (args : Args) (w : world) run build mt t
    (prompt_ reply : string) :
  let out_path := Path (value (out args)) in
  let req := Request MODEL_NAME mt t (user_message prompt_) in
  (run, build, mt, t) ∈ single_modes service args →
  build w = (Ok prompt_, w) →
  (call_claude service (user_message prompt_) mt t w).1 = Ok reply →
  truthy (out args) = true →
  out_path ≠ [] → (".." ∉ out_path) →
  fs w !! [] = Some Dir →
  (∀ q, q `prefix_of` out_path → q ≠ out_path →
        fs w !! q = None ∨ fs w !! q = Some Dir) →
  fs w !! out_path ≠ Some Dir →
  ∃ w', run args w = (Ok tt, w') ∧
        fs w' !! out_path = Some (File (Some reply)) ∧
        (∀ q, q `prefix_of` out_path → q ≠ out_path → fs w' !! q = Some Dir) ∧
        (∀ q, ¬ q `prefix_of` out_path → fs w' !! q = fs w !! q) ∧
        calls w' = calls w ++ [req] ∧
        ∃ abs, stdout w' = stdout w ++ [nl +:+ "[OK] Written to " +:+ abs +:+ nl].
Proof.
  intros out_path req [-> _]%single_modes_shape Hb Hc%call_claude_reply
         Hout Hne _ Hcwd Hway Hnd.
  rewrite (single_call_run _ _ _ _ _ _ _ _ _ Hb Hc).
  destruct (write_output_to_file args reply (sent req w) Hout Hne Hcwd Hway Hnd)
    as (w' & Hrun & Hfile & Hdirs & Hframe & _ & Hcalls & Hline).
  exists w'. by repeat split.
Qed.

(** [--explain proj/a.py --out notes/a/explained.md]: both directories are
    created. *)
Lemma single_mode_stores_reply_witness :
  ∃ w', run_explain echo_service explain_to_file sample_world = (Ok tt, w') ∧
        fs w' !! ["notes"; "a"; "explained.md"] = Some (File (Some "OK")) ∧
        (∀ q, q `prefix_of` ["notes"; "a"; "explained.md"] →
              q ≠ ["notes"; "a"; "explained.md"] → fs w' !! q = Some Dir) ∧
        (∀ q, ¬ q `prefix_of` ["notes"; "a"; "explained.md"] →
              fs w' !! q = fs sample_world !! q) ∧
        calls w' = [Request MODEL_NAME 4096 (1 # 10) (user_message explain_a_prompt)] ∧
        ∃ abs, stdout w' = [nl +:+ "[OK] Written to " +:+ abs +:+ nl].
Proof.
  apply (single_mode_stores_reply echo_service explain_to_file sample_world
           (run_explain echo_service) (build_explain_prompt "proj/a.py")
           4096%Z (1 # 10) explain_a_prompt "OK").
  - unfold single_modes. apply list_elem_of_further, list_elem_of_here.
  - vm_compute. reflexivity.
  - reflexivity.
  - reflexivity.
  - discriminate.
  - intros H. change (".." ∈ ["notes"; "a"; "explained.md"]) in H.
    rewrite !elem_of_cons, elem_of_nil in H.
    destruct H as [H|[H|[H|[]]]]; discriminate H.
  - vm_compute. reflexivity.
  - intros q [k Hk] Hne. change (Path (value (out explain_to_file)))
      with ["notes"; "a"; "explained.md"] in Hk, Hne.
    destruct q as [|c1 [|c2 [|c3 [|c4 q]]]]; cbn in Hk; simplify_eq;
      vm_compute; auto.
  - vm_compute. discriminate.
Defined.

(** X6.  When [--out] names an existing directory, a mode that sends one
    request still sends it, and then stops with [IsADirectoryError]: the
    reply is neither printed nor stored, and the file system is left as it
    was. *)
Theorem out_directory_loses_reply service (args : Args) (w : world) run build mt t
    (prompt_ reply : string) :
  let req := Request MODEL_NAME mt t (user_message prompt_) in
  (run, build, mt, t) ∈ single_modes service args →
  build w = (Ok prompt_, w) →
  (call_claude service (user_message prompt_) mt t w).1 = Ok reply →
  truthy (out args) = true →
  well_formed (fs w) = true →
  fs w !! Path (value (out args)) = Some Dir →
  ∃ msg, run args w
         = (Raised (Exn IsADirectoryError msg),
            World (fs w) (cwd w) (stdout w) (calls w ++ [req])).
Proof.
  intros req [-> _]%single_modes_shape Hb Hc%call_claude_reply Hout Hwf Hdir.
  rewrite (single_call_run _ _ _ _ _ _ _ _ _ Hb Hc).
  set (p := Path (value (out args))) in *.
  assert (mkdir_from [] (parent p) (fs w) = Ok (fs w)) as Hmk.
  { destruct (mkdir_from_ok (parent p) [] (fs w)) as (m & Hmk & _ & Hframe).
    - intros q _ Hq. right. cbn in Hq.
      destruct (decide (p = [])) as [Hp|Hp].
      + rewrite Hp in Hq. cbn in Hq. apply prefix_nil_inv in Hq. by rewrite Hq, <- Hp.
      + apply prefix_of_parent in Hq as [[k Hk] Hne]; [|done].
        apply (well_formed_above (fs w) q k Dir Hwf); [by rewrite <- Hk|].
        intros ->. by rewrite app_nil_r in Hk.
    - rewrite Hmk. f_equal. apply map_eq. intros q.
      destruct (Hframe q) as [->|(Hnone & _ & _ & Hq)]; [done|]. cbn in Hq.
      destruct (decide (p = [])) as [Hp|Hp].
      + rewrite Hp in Hq. cbn in Hq. apply prefix_nil_inv in Hq. congruence.
      + apply prefix_of_parent in Hq as [[k Hk] Hne]; [|done].
        rewrite (well_formed_above (fs w) q k Dir Hwf) in Hnone; [done|by rewrite <- Hk|].
        intros ->. by rewrite app_nil_r in Hk. }
  eexists. unfold write_output_if_needed. rewrite Hout. cbn [negb]. fold p.
  unfold bind at 1. unfold mkdir_parents at 1. cbn [fs sent]. rewrite Hmk.
  unfold bind at 1. unfold write_text at 1. cbn [fs set_fs sent]. rewrite Hdir.
  reflexivity.
Qed.

(** [--explain proj/a.py --out proj/sub], where [proj/sub] is a directory. *)
Lemma out_directory_loses_reply_witness :
  ∃ msg, run_explain echo_service explain_to_directory sample_world
         = (Raised (Exn IsADirectoryError msg),
            World sample_fs "/home/user" []
                  [Request MODEL_NAME 4096 (1 # 10) (user_message explain_a_prompt)]).
Proof.
  apply (out_directory_loses_reply echo_service explain_to_directory sample_world
           (run_explain echo_service) (build_explain_prompt "proj/a.py")
           4096%Z (1 # 10) explain_a_prompt "OK").
  - unfold single_modes. apply list_elem_of_further, list_elem_of_here.
  - vm_compute. reflexivity.
  - reflexivity.
  - reflexivity.
  - vm_compute. reflexivity.
  - vm_compute. reflexivity.
Defined.

(** X7.  A batch mode whose folder has no name of its own (the current
    directory, written [.], [./] or as the empty string) passes the guard
    and then stops with the [ValueError] of [with_name]: nothing is
    printed, sent or written. *)
Theorem batch_on_nameless_root service run mode folder (args : Args) (w : world) :
  (run, mode, folder) ∈ folder_modes service args →
  Path folder = [] →
  fs w !! [] = Some Dir →
  ∃ msg, run args w = (Raised (Exn ValueError msg), w).
Proof.
  intros (-> & _)%folder_modes_run Hp Hcwd.
  rewrite run_folder_unfold, Hp, Hcwd. by eexists.
Qed.

(** [--fix-folder ./]. *)
Lemma batch_on_nameless_root_witness :
  ∃ msg, run_fix_folder echo_service fix_here sample_world
         = (Raised (Exn ValueError msg), sample_world).
Proof.
  apply (batch_on_nameless_root echo_service (run_fix_folder echo_service)
           fix_mode "./" fix_here sample_world).
  - apply list_elem_of_here.
  - reflexivity.
  - vm_compute. reflexivity.
Defined.

(** ** The classifier and the files of a batch *)

Lemma supported_iff_language (p : path) :
  has_supported_ext p = true ↔ detect_language p ≠ "text".
Proof.
  unfold has_supported_ext, detect_language, SUPPORTED_EXTS, in_strs.
  generalize (lower (suffix p)); intros ext. cbn [existsb].
  repeat (destruct (String.eqb ext _); [cbn [orb]; split; [discriminate|reflexivity]|cbn [orb]]).
  split; [discriminate|]. by intros [].
Qed.

(** X8.  [iter_code_files] yields, each once, exactly the regular files
    below the root for which [detect_language] finds a language other than
    ["text"]: the set of supported extensions and the chain of tests of the
    classifier agree.  A directory is never yielded, whatever its name. *)
Theorem code_files_have_a_language (root : path) (w : world) :
  ∃ files, iter_code_files root w = (Ok files, w) ∧
           NoDup files ∧
           ∀ p, p ∈ files ↔
                under root p ∧ (∃ t, fs w !! p = Some (File t)) ∧
                detect_language p ≠ "text".
Proof.
  exists (List.filter (λ p, is_file_in (fs w) p && has_supported_ext p)
                      (entries_under root (fs w))).
  split; [reflexivity|]. split.
  - apply NoDup_List_filter, NoDup_entries_under.
  - intros p. rewrite elem_of_List_filter, elem_of_entries_under, andb_true_iff,
      is_file_in_spec, supported_iff_language.
    split; [tauto|]. intros (Hu & [t Ht] & Hl).
    split; [split; [done|by eexists]|]. split; [by eexists|done].
Qed.

Lemma lower_char_dot (c : ascii) :
  Ascii.eqb (lower_char c) "." = Ascii.eqb c "." ∧
  Ascii.eqb (upper_char c) "." = Ascii.eqb c "." ∧
  lower_char (lower_char c) = lower_char c ∧
  lower_char (upper_char c) = lower_char c.
Proof. destruct c as [[] [] [] [] [] [] [] []]; vm_compute; done. Qed.

Section Case.
(** [f] is [lower] or [upper]. *)
Variable f : string → string.
Variable g : ascii → ascii.
Hypothesis f_nil : f "" = "".
Hypothesis f_cons : ∀ c s, f (String c s) = String (g c) (f s).
Hypothesis g_dot : ∀ c, Ascii.eqb (g c) "." = Ascii.eqb c ".".
Hypothesis g_lower : ∀ c, lower_char (g c) = lower_char c.

Lemma rfind_dot_case (s : string) : rfind_dot (f s) = rfind_dot s.
Proof.
  induction s as [|c s IH]; [by rewrite f_nil|].
  rewrite f_cons. cbn. by rewrite IH, g_dot.
Qed.

Lemma length_case (s : string) : String.length (f s) = String.length s.
Proof.
  induction s as [|c s IH]; [by rewrite f_nil|]. rewrite f_cons. cbn. by rewrite IH.
Qed.

Lemma drop_str_case (i : nat) (s : string) : drop_str i (f s) = f (drop_str i s).
Proof.
  revert s. induction i as [|i IH]; intros s; [done|].
  destruct s as [|c s]; [by rewrite f_nil|]. rewrite f_cons. cbn. apply IH.
Qed.

Lemma lower_case (s : string) : lower (f s) = lower s.
Proof.
  induction s as [|c s IH]; [by rewrite f_nil|]. rewrite f_cons. cbn.
  by rewrite IH, g_lower.
Qed.

Lemma lower_suffix_case (n : string) : lower (suffix [f n]) = lower (suffix [n]).
Proof.
  change (suffix [f n]) with
    (match rfind_dot (f n) with
     | Some i => if (0 <? i)%nat && (i <? String.length (f n) - 1)%nat
                 then drop_str i (f n) else ""
     | None => ""
     end).
  change (suffix [n]) with
    (match rfind_dot n with
     | Some i => if (0 <? i)%nat && (i <? String.length n - 1)%nat
                 then drop_str i n else ""
     | None => ""
     end).
  rewrite rfind_dot_case, length_case.
  destruct (rfind_dot n) as [i|]; [|done].
  destruct ((0 <? i)%nat && (i <? String.length n - 1)%nat); [|done].
  by rewrite drop_str_case, lower_case.
Qed.

End Case.

(** X9.  The language of a file depends on its name only, not on the
    directory it lies in, and not on the case of the letters of the name:
    [src/Main.KT], [main.kt] and [MAIN.KT] are classified alike, and the
    batch modes pick up all of them or none. *)
Theorem detect_language_ignores_case (dir dir' : path) (n : string) :
  detect_language (dir ++ [n]) = detect_language (dir' ++ [lower n]) ∧
  detect_language (dir ++ [n]) = detect_language (dir' ++ [upper n]) ∧
  has_supported_ext (dir ++ [n]) = has_supported_ext (dir' ++ [lower n]) ∧
  has_supported_ext (dir ++ [n]) = has_supported_ext (dir' ++ [upper n]).
Proof.
  assert (lower (suffix (dir ++ [n])) = lower (suffix (dir' ++ [lower n]))) as Hl.
  { rewrite !suffix_app by done.
    symmetry. apply (lower_suffix_case lower lower_char); try done;
      intros c; apply lower_char_dot. }
  assert (lower (suffix (dir ++ [n])) = lower (suffix (dir' ++ [upper n]))) as Hu.
  { rewrite !suffix_app by done.
    symmetry. apply (lower_suffix_case upper upper_char); try done;
      intros c; apply lower_char_dot. }
  unfold detect_language, has_supported_ext. cbv zeta.
  rewrite <- Hl, <- Hu. done.
Qed.

(** ** The modes over a folder that have no guard, and diff *)

Lemma single_call_sends service (build : M string) mt t (args : Args) (w : world)
    (prompt_ : string) :
  build w = (Ok prompt_, w) →
  calls (single_call service build mt t args w).2
  = calls w ++ [Request MODEL_NAME mt t (user_message prompt_)].
Proof.
  intros Hb. unfold single_call. rewrite (bind_Ok _ _ _ _ _ Hb).
  destruct (call_claude service (user_message prompt_) mt t w) as [[reply|e] w1] eqn:E;
    pose proof (call_claude_world _ _ _ _ _ _ _ E) as ->.
  - rewrite (bind_Ok _ _ _ _ _ E).
    destruct (write_output_if_needed args reply _) as [r w2] eqn:E2.
    by apply silent_write_output in E2.
  - by rewrite (bind_Raised _ _ _ _ _ E).
Qed.

Lemma nothing_under_a_non_directory (m : gmap path node) (root : path) :
  well_formed m = true → m !! root ≠ Some Dir → entries_under root m = [].
Proof.
  intros Hwf Hroot. apply elem_of_nil_inv. intros p.
  rewrite elem_of_entries_under. intros [(rel & Hrel & ->)%under_spec [n Hn]].
  destruct Hroot. by eapply well_formed_above.
Qed.

Lemma unguarded_modes_single service (args : Args) run folder prompt_ mt t :
  (run, folder, prompt_, mt, t) ∈ unguarded_modes service args →
  ∃ build, run args = single_call service build mt t args ∧
           ∀ w, file_list_of (Path folder) w = (Ok "", w) →
                build w = (Ok prompt_, w).
Proof.
  unfold unguarded_modes. rewrite !elem_of_cons, elem_of_nil.
  intros [H|[H|[]]]; injection H as -> -> -> -> ->.
  - exists (build_folder_analysis_prompt (value (analyze_folder args))).
    split; [done|]. intros w Hlist.
    unfold build_folder_analysis_prompt. cbv zeta.
    rewrite (bind_Ok _ _ _ _ _ Hlist). unfold ret, analysis_prompt_without_files.
    reflexivity.
  - exists (build_project_qa_prompt (value (project_qa args)) (value (question args))).
    split; [done|]. intros w Hlist.
    unfold build_project_qa_prompt. cbv zeta.
    rewrite (bind_Ok _ _ _ _ _ Hlist). unfold ret, qa_prompt_without_files.
    reflexivity.
Qed.

(** X10.  Unlike the batch modes, analyze-folder and project-qa do not test
    their folder.  When the folder (a relative path without [".."]) does
    not exist or is a regular file, the run is the run over an empty
    folder: the prompt is the template with an empty list of files, it is
    sent in one request, and, without [--out], what [call_claude] returns
    for it is printed as the only line.  No error is reported: the result
    is normal and no line but the reply is printed. *)
Theorem folder_prompts_have_no_guard service (args : Args) (w : world) run
    (folder prompt_ reply : string) (mt : Z) (t : Q) :
  (run, folder, prompt_, mt, t) ∈ unguarded_modes service args →
  well_formed (fs w) = true →
  fs w !! Path folder ≠ Some Dir →
  (".." ∉ Path folder) →
  startswith "/" folder = false →
  truthy (out args) = false →
  (call_claude service [ {| role := "user"; content := prompt_ |} ] mt t w).1
  = Ok reply →
  build_folder_analysis_prompt folder w
  = (Ok (analysis_prompt_without_files (str (Path folder))), w) ∧
  (∀ question_, build_project_qa_prompt folder question_ w
                = (Ok (qa_prompt_without_files (str (Path folder)) question_), w)) ∧
  run args w
  = (Ok tt,
     World (fs w) (cwd w) (stdout w ++ [reply])
           (calls w ++ [ {| model := MODEL_NAME; req_max_tokens := mt;
                            req_temperature := t;
                            messages := [ {| role := "user"; content := prompt_ |} ] |} ])).
Proof.
  intros Hrun Hwf Hnd _ _ Hout Hreply.
  assert (file_list_of (Path folder) w = (Ok "", w)) as Hlist.
  { rewrite file_list_of_eq. unfold listed_files.
    by rewrite nothing_under_a_non_directory. }
  split; [|split].
  - unfold build_folder_analysis_prompt. cbv zeta.
    rewrite (bind_Ok _ _ _ _ _ Hlist). unfold ret, analysis_prompt_without_files.
    reflexivity.
  - intros question_. unfold build_project_qa_prompt. cbv zeta.
    rewrite (bind_Ok _ _ _ _ _ Hlist). unfold ret, qa_prompt_without_files.
    reflexivity.
  - destruct (unguarded_modes_single _ _ _ _ _ _ _ Hrun) as (build & -> & Hb).
    apply call_claude_reply in Hreply.
    rewrite (single_call_run service build mt t args w prompt_ reply _ (Hb w Hlist) Hreply).
    unfold write_output_if_needed. by rewrite Hout.
Qed.

(** [--analyze-folder nowhere] on the sample tree, with a service that
    answers ["OK"]. *)
Lemma folder_prompts_have_no_guard_witness :
  build_folder_analysis_prompt "nowhere" sample_world
  = (Ok (analysis_prompt_without_files "nowhere"), sample_world) ∧
  (∀ question_, build_project_qa_prompt "nowhere" question_ sample_world
                = (Ok (qa_prompt_without_files "nowhere" question_), sample_world)) ∧
  run_analyze_folder echo_service analyze_missing sample_world
  = (Ok tt,
     World sample_fs "/home/user" ["OK"]
           [ {| model := "claude-3-haiku-20240307"; req_max_tokens := 4096;
                req_temperature := 1 # 10;
                messages :=
                  [ {| role := "user";
                       content := analysis_prompt_without_files "nowhere" |} ] |} ]).
Proof.
  apply (folder_prompts_have_no_guard echo_service analyze_missing sample_world
           (run_analyze_folder echo_service) "nowhere"
           (analysis_prompt_without_files "nowhere") "OK" 4096%Z (1 # 10)).
  - apply list_elem_of_here.
  - vm_compute. reflexivity.
  - vm_compute. discriminate.
  - rewrite list_elem_of_In. vm_compute. not_in_list.
  - reflexivity.
  - reflexivity.
  - reflexivity.
Defined.

(** X11.  [--diff A B] reads A, then B.  When A cannot be read the run stops
    with the exception of reading A, whatever B is; when only B cannot be
    read it stops with the exception of reading B; in both cases nothing is
    sent, printed or written.  When both can be read, one request is sent,
    whose prompt ends with the two paths as given, each followed by the
    text of its file, A before B. *)
Theorem diff_reads_both_files service (args : Args) (w : world) (file_a file_b : string) :
  diff args = Some (file_a, file_b) →
  (∀ e, read_file file_a w = (Raised e, w) →
        run_diff service args w = (Raised e, w)) ∧
  (∀ text_a e, read_file file_a w = (Ok text_a, w) →
               read_file file_b w = (Raised e, w) →
               run_diff service args w = (Raised e, w)) ∧
  (∀ text_a text_b,
     read_file file_a w = (Ok text_a, w) → read_file file_b w = (Ok text_b, w) →
     ∃ pre, calls (run_diff service args w).2
            = calls w ++
              [Request MODEL_NAME DEFAULT_MAX_TOKENS DEFAULT_TEMPERATURE
                 (user_message
                    (pre +:+ "File A: " +:+ file_a +:+ nl +:+ text_a +:+ nl +:+ nl
                     +:+ "File B: " +:+ file_b +:+ nl +:+ text_b +:+ nl +:+ nl
                     +:+ "Now produce the full analysis."))]).
Proof.
  intros Hd.
  assert (run_diff service args
          = single_call service (build_diff_prompt file_a file_b)
              DEFAULT_MAX_TOKENS DEFAULT_TEMPERATURE args) as ->.
  { unfold run_diff. by rewrite Hd. }
  unfold single_call. split; [|split].
  - intros e Ha. unfold build_diff_prompt.
    by rewrite (bind_Raised _ _ _ _ _ (bind_Raised _ _ _ _ _ Ha)).
  - intros text_a e Ha Hb.
    assert (build_diff_prompt file_a file_b w = (Raised e, w)) as H.
    { unfold build_diff_prompt.
      by rewrite (bind_Ok _ _ _ _ _ Ha), (bind_Raised _ _ _ _ _ Hb). }
    by rewrite (bind_Raised _ _ _ _ _ H).
  - intros text_a text_b Ha Hb.
    exists ("You are an expert senior engineer. Compare the following two files." +:+ nl
            +:+ "Provide:" +:+ nl
            +:+ "- a unified diff" +:+ nl
            +:+ "- summary of functional changes" +:+ nl
            +:+ "- improvements introduced" +:+ nl
            +:+ "- potential regressions" +:+ nl
            +:+ "- style / architecture changes" +:+ nl
            +:+ "- recommendations for further improvements" +:+ nl +:+ nl).
    fold (single_call service (build_diff_prompt file_a file_b)
            DEFAULT_MAX_TOKENS DEFAULT_TEMPERATURE args).
    rewrite <- (single_call_sends service (build_diff_prompt file_a file_b)
                  DEFAULT_MAX_TOKENS DEFAULT_TEMPERATURE args w); [done|].
    unfold build_diff_prompt.
    rewrite (bind_Ok _ _ _ _ _ Ha), (bind_Ok _ _ _ _ _ Hb). unfold ret.
    by rewrite !str_app_assoc.
Qed.

(** [--diff proj/a.py proj/sub/notes.txt]. *)
Lemma diff_reads_both_files_witness :
  ∃ pre, calls (run_diff echo_service diff_a_b sample_world).2
         = [Request MODEL_NAME 4096 (1 # 10)
              (user_message
                 (pre +:+ "File A: proj/a.py" +:+ nl +:+ "print(1)" +:+ nl +:+ nl
                  +:+ "File B: proj/sub/notes.txt" +:+ nl +:+ "hello" +:+ nl +:+ nl
                  +:+ "Now produce the full analysis."))].
Proof.
  apply (proj2 (proj2 (diff_reads_both_files echo_service diff_a_b sample_world
                         "proj/a.py" "proj/sub/notes.txt" eq_refl))
               "print(1)" "hello").
  - vm_compute. reflexivity.
  - vm_compute. reflexivity.
Defined.

(** ** What a batch run leaves alone *)

Lemma preserves_bind {A B : Type} (Inv : world → Prop) (m : M A) (k : A → M B) :
  preserves Inv m → (∀ a, preserves Inv (k a)) → preserves Inv (bind m k).
Proof.
  intros Hm Hk w r w'. unfold bind. destruct (m w) as [[a|e] w1] eqn:E.
  - intros H Hw. eapply Hk; [done|]. by eapply Hm.
  - intros [= _ <-] Hw. by eapply Hm.
Qed.

Lemma preserves_same_fs {A : Type} (Inv : gmap path node → Prop) (m : M A) :
  (∀ w r w', m w = (r, w') → fs w' = fs w) → preserves (λ w, Inv (fs w)) m.
Proof. intros H w r w' Hm. by rewrite (H _ _ _ Hm). Qed.

Lemma mkdir_from_frame (todo done_ : path) (m m' : gmap path node) :
  mkdir_from done_ todo m = Ok m' →
  ∀ q, m' !! q = m !! q ∨
       (m !! q = None ∧ m' !! q = Some Dir ∧ under done_ q ∧ q `prefix_of` done_ ++ todo).
Proof.
  revert done_ m. induction todo as [|c todo IH]; intros done_ m; cbn [mkdir_from].
  - intros [= <-] q. by left.
  - cbv zeta. destruct (m !! (done_ ++ [c])) as [[|t]|] eqn:E; [|done|].
    + intros H q. destruct (IH _ _ H q) as [->|(H1 & H2 & H3 & H4)]; [by left|].
      right. split; [done|]. split; [done|]. split; [by eapply under_snoc_weaken|].
      by rewrite <- app_assoc in H4.
    + intros H q. destruct (decide (q = done_ ++ [c])) as [->|Hq].
      * right. split; [done|]. split.
        -- destruct (IH _ _ H (done_ ++ [c])) as [->|(H1 & _)].
           ++ by rewrite lookup_insert_eq.
           ++ by rewrite lookup_insert_eq in H1.
        -- split.
           ++ split; [by apply prefix_app_r|]. intros Heq.
              apply (f_equal length) in Heq. rewrite length_app in Heq. cbn in Heq. lia.
           ++ apply prefix_app, prefix_cons, prefix_nil.
      * destruct (IH _ _ H q) as [->|(H1 & H2 & H3 & H4)].
        -- left. by rewrite lookup_insert_ne.
        -- right. rewrite lookup_insert_ne in H1 by done.
           split; [done|]. split; [done|]. split; [by eapply under_snoc_weaken|].
           by rewrite <- app_assoc in H4.
Qed.

Lemma parent_prefix (p : path) : parent p `prefix_of` p.
Proof.
  destruct (decide (p = [])) as [->|Hp]; [done|].
  rewrite (path_snoc p Hp) at 2. by apply prefix_app_r.
Qed.

Lemma reads_only_relative_to (p root : path) : reads_only (relative_to p root).
Proof.
  unfold relative_to. destruct (strip_prefix root p); by intros w r w' [= _ <-].
Qed.

Section Frame.
Variable service : nat → request → outcome.
Variable mode : batch_mode.
Variable args : Args.
Variable root : path.
Variable m0 : gmap path node.

Local Abbreviation out_dir := (output_root mode root).
Local Abbreviation outside_kept := (λ w : world, unchanged_outside out_dir m0 (fs w)).

Hypothesis Hbuild : ∀ path_, reads_only (build_prompt mode path_).
Hypothesis Hway : ∀ q, q `prefix_of` out_dir → q ≠ out_dir → m0 !! q = Some Dir.

Lemma preserves_mkdir_below (rel : path) :
  preserves outside_kept (mkdir_parents (parent (out_dir ++ rel))).
Proof.
  intros w r w'. unfold mkdir_parents.
  destruct (mkdir_from [] (parent (out_dir ++ rel)) (fs w)) as [m|e] eqn:E;
    intros [= _ <-] Hw; [|done].
  intros q Hq. cbn.
  destruct (mkdir_from_frame _ _ _ _ E q) as [->|(Hnone & _ & _ & Hpre)]; [by apply Hw|].
  cbn in Hpre.
  assert (q `prefix_of` out_dir ++ rel) as Hpre'.
  { etrans; [exact Hpre|apply parent_prefix]. }
  destruct (prefix_weak_total q out_dir (out_dir ++ rel) Hpre') as [H|H];
    [by apply prefix_app_r| |done].
  rewrite (Hw q Hq), Hway in Hnone; [done|done|]. by intros ->.
Qed.

Lemma preserves_write_below (rel : path) (s : string) :
  preserves outside_kept (write_text (out_dir ++ rel) s).
Proof.
  intros w r w'. unfold write_text.
  assert (∀ m, unchanged_outside out_dir m0 m →
               unchanged_outside out_dir m0 (<[out_dir ++ rel := File (Some s)]> m)) as Hins.
  { intros m Hm q Hq. rewrite lookup_insert_ne; [by apply Hm|].
    intros <-. destruct Hq. by apply prefix_app_r. }
  destruct (fs w !! (out_dir ++ rel)) as [[|t]|]; [by intros [= _ <-]| |];
    (destruct (out_dir ++ rel) as [|c p] eqn:Ep; [by intros [= _ <-]|]);
    (destruct (fs w !! parent (c :: p)) as [[|t']|]; intros [= _ <-] Hw;
     [by apply Hins|done|done]).
Qed.

Lemma preserves_process_file (src : path) :
  preserves outside_kept (process_file service mode args root out_dir src).
Proof.
  unfold process_file.
  apply preserves_bind.
  { apply (preserves_same_fs (unchanged_outside out_dir m0)). intros w r w' H.
    by rewrite (reads_only_relative_to _ _ _ _ _ H). }
  intros rel. apply preserves_bind; [apply preserves_mkdir_below|]. intros _.
  apply preserves_bind.
  { apply (preserves_same_fs (unchanged_outside out_dir m0)). intros w r w' H.
    by rewrite (Hbuild _ _ _ _ H). }
  intros prompt_. apply preserves_bind.
  { apply (preserves_same_fs (unchanged_outside out_dir m0)). intros w r w' H.
    by rewrite (call_claude_world _ _ _ _ _ _ _ H). }
  intros reply. apply preserves_bind; [apply preserves_write_below|]. intros _.
  apply (preserves_same_fs (unchanged_outside out_dir m0)). by intros w r w' [= _ <-].
Qed.

Lemma preserves_process_files (files : list path) (count : nat) :
  preserves outside_kept (process_files service mode args root out_dir files count).
Proof.
  revert count. induction files as [|src files IH]; intros count; cbn.
  - by intros w r w' [= _ <-].
  - apply preserves_bind; [apply preserves_process_file|]. intros _. apply IH.
Qed.

End Frame.

Lemma run_folder_frame service (mode : batch_mode) (folder : string) (args : Args)
    (w : world) :
  mode ∈ [fix_mode; refactor_mode; rewrite_mode] →
  well_formed (fs w) = true →
  unchanged_outside (output_root mode (Path folder)) (fs w)
    (fs (run_folder service mode folder args w).2).
Proof.
  intros Hmode Hwf. rewrite run_folder_unfold.
  destruct (fs w !! Path folder) as [[|t]|] eqn:Hroot; [|by intros q|by intros q].
  destruct (Path folder) as [|c p] eqn:Hp; [by intros q|]. rewrite <- Hp in *.
  set (w1 := World _ _ _ _).
  assert (preserves (λ v : world, unchanged_outside (output_root mode (Path folder))
                                    (fs w) (fs v))
            (count <- process_files service mode args (Path folder)
                        (output_root mode (Path folder))
                        (List.filter (λ p, is_file_in (fs w) p && has_supported_ext p)
                                     (entries_under (Path folder) (fs w))) 0 ;;
             print (done_line mode count (output_root mode (Path folder))))) as Hpres.
  { apply preserves_bind; [|by intros count w2 r2 w2' [= _ <-]].
    apply preserves_process_files.
    - intros path_. by apply builders_read_only.
    - intros q Hq Hne.
      destruct (out_root_strict_prefix mode (Path folder)) with (q := q)
        as (k & Hk & Hqk); [by rewrite Hp|done|done|].
      apply (well_formed_above (fs w) q k Dir Hwf); [by rewrite <- Hqk|done]. }
  destruct (bind _ _ w1) as [r w'] eqn:E.
  apply (Hpres w1 r w' E). by intros q.
Qed.



Lemma str_app_inj (a b c : string) : a +:+ b = a +:+ c → b = c.
Proof.
  induction a as [|x a IH]; [done|]. rewrite !str_app_cons. intros [= H]. by apply IH.
Qed.

Lemma output_roots_apart (mode mode' : batch_mode) (root q : path) :
  out_suffix mode ≠ out_suffix mode' →
  output_root mode' root `prefix_of` q → ¬ output_root mode root `prefix_of` q.
Proof.
  intros Hsfx H' H. assert (output_root mode root = output_root mode' root) as Heq.
  { destruct (prefix_weak_total _ _ _ H H') as [Hp|Hp].
    - apply (prefix_length_eq _ _ Hp). unfold output_root. by rewrite !length_app.
    - symmetry. apply (prefix_length_eq _ _ Hp). unfold output_root.
      by rewrite !length_app. }
  unfold output_root in Heq. apply app_inv_head in Heq. injection Heq as Heq.
  by apply str_app_inj in Heq.
Qed.

(** X14.  The three batch modes keep apart: a run of one of them over a
    folder leaves the output trees of the other two over the same folder
    exactly as they are, whatever the outcome of the run. *)
Theorem batch_modes_keep_apart service run mode folder (args : Args) (w : world)
    (mode' : batch_mode) :
  (run, mode, folder) ∈ folder_modes service args →
  mode' ∈ [fix_mode; refactor_mode; rewrite_mode] →
  mode' ≠ mode →
  well_formed (fs w) = true →
  ∀ q, output_root mode' (Path folder) `prefix_of` q →
       fs (run args w).2 !! q = fs w !! q.
Proof.
  intros (-> & _ & _ & Hmode)%folder_modes_run Hmode' Hne Hwf q Hq.
  apply run_folder_frame; [done|done|].
  apply (output_roots_apart mode mode'); [|done].
  rewrite !elem_of_cons, elem_of_nil in Hmode, Hmode'.
  destruct Hmode as [->|[->|[->|[]]]]; destruct Hmode' as [->|[->|[->|[]]]];
    done || (cbn; discriminate).
Qed.

(** [--fix-folder proj] and the output tree of [--refactor-folder proj]. *)
Lemma batch_modes_keep_apart_witness :
  fs (run_fix_folder echo_service fix_proj sample_world).2
    !! ["proj_refactored"; "a.py"]
  = fs sample_world !! ["proj_refactored"; "a.py"].
Proof.
  apply (batch_modes_keep_apart echo_service (run_fix_folder echo_service)
           fix_mode "proj" fix_proj sample_world refactor_mode).
  - apply list_elem_of_here.
  - apply list_elem_of_further, list_elem_of_here.
  - discriminate.
  - vm_compute. reflexivity.
  - by exists ["a.py"].
Defined.

(** ** What the other modes write *)

Lemma write_text_frame (p : path) (s : string) (w w' : world) (r : result unit) :
  write_text p s w = (r, w') → ∀ q, q ≠ p → fs w' !! q = fs w !! q.
Proof.
  unfold write_text. intros H q Hq.
  assert (fs (set_fs (<[p := File (Some s)]> (fs w)) w) !! q = fs w !! q) as Hins.
  { cbn. by rewrite lookup_insert_ne. }
  destruct (fs w !! p) as [[|t]|]; [by injection H as _ <-| |];
    (destruct p as [|c p]; [by injection H as _ <-|]);
    (destruct (fs w !! parent (c :: p)) as [[|t']|]; by injection H as _ <-).
Qed.

Lemma write_output_frame (args : Args) (content_ : string) (w w' : world)
    (r : result unit) :
  write_output_if_needed args content_ w = (r, w') →
  (truthy (out args) = false → fs w' = fs w) ∧
  ∀ q, ¬ q `prefix_of` Path (value (out args)) → fs w' !! q = fs w !! q.
Proof.
  unfold write_output_if_needed. destruct (truthy (out args)); cbn [negb].
  2:{ by intros [= _ <-]. }
  set (p := Path (value (out args))). intros H. split; [done|]. intros q Hq.
  revert H. unfold bind at 1. unfold mkdir_parents at 1.
  destruct (mkdir_from [] (parent p) (fs w)) as [m|e] eqn:Emk; [|by intros [= _ <-]].
  assert (m !! q = fs w !! q) as Hm.
  { destruct (mkdir_from_frame _ _ _ _ Emk q) as [->|(_ & _ & _ & H)]; [done|].
    destruct Hq. etrans; [exact H|apply parent_prefix]. }
  unfold bind at 1.
  destruct (write_text p content_ (set_fs m w)) as [[[]|e] w1] eqn:Ewr.
  - intros [= _ <-]. cbn. rewrite (write_text_frame _ _ _ _ _ Ewr q); [done|].
    by intros ->.
  - intros [= _ <-]. rewrite (write_text_frame _ _ _ _ _ Ewr q); [done|].
    by intros ->.
Qed.

Lemma main_single service (args : Args) :
  select_mode args ∉ batch_modes →
  ∃ build mt t, reads_only build ∧
                main service args = single_call service build mt t args.
Proof.
  assert (∀ run build mt t, (run, build, mt, t) ∈ single_modes service args →
            ∃ build mt t, reads_only build ∧
                          run args = single_call service build mt t args) as H.
  { intros run build mt t [-> Hb]%single_modes_shape. by exists build, mt, t. }
  unfold main, batch_modes. intros Hnot. destruct (select_mode args); cbn [run_mode].
  - eapply H. do 1 apply list_elem_of_further. apply list_elem_of_here.
  - eapply H. do 2 apply list_elem_of_further. apply list_elem_of_here.
  - eapply H. do 3 apply list_elem_of_further. apply list_elem_of_here.
  - eapply H. do 4 apply list_elem_of_further. apply list_elem_of_here.
  - eapply H. do 5 apply list_elem_of_further. apply list_elem_of_here.
  - eapply H. do 6 apply list_elem_of_further. apply list_elem_of_here.
  - eapply H. do 7 apply list_elem_of_further. apply list_elem_of_here.
  - destruct Hnot. apply list_elem_of_here.
  - destruct Hnot. apply list_elem_of_further, list_elem_of_here.
  - destruct Hnot. do 2 apply list_elem_of_further. apply list_elem_of_here.
  - eapply H. apply list_elem_of_here.
Qed.



(** ** A batch run that meets a source it cannot decode *)

Section Stop.
Variable service : nat → request → outcome.
Variable mode : batch_mode.
Variable args : Args.
Variable root : path.
Variable m0 : gmap path node.
Variable P : string → Prop.

Hypothesis Hsuffix : out_suffix mode ≠ "".
Hypothesis Hbuild : ∀ path_ text w,
  read_file path_ w = (Ok text, w) → ∃ p, build_prompt mode path_ w = (Ok p, w).
Hypothesis Hfail : ∀ path_ e w,
  read_file path_ w = (Raised e, w) → build_prompt mode path_ w = (Raised e, w).
Hypothesis Hreply : ∀ msgs mt t w,
  ∃ r, call_claude service msgs mt t w = (Ok r, sent (Request MODEL_NAME mt t msgs) w)
       ∧ P r.
Hypothesis Hwf : well_formed m0 = true.
Hypothesis Hroot : m0 !! root = Some Dir.
Hypothesis Hne : root ≠ [].

Local Abbreviation out_root := (output_root mode root).
Local Abbreviation mirrored := (mirrored mode root m0 P).

Lemma process_file_undecodable (rel : path) (w : world) :
  mirrored (fs w) → rel ≠ [] →
  m0 !! (root ++ rel) = Some (File None) →
  ∃ w', process_file service mode args root out_root (root ++ rel) w
        = (Raised decode_error, w') ∧
        (∀ q, is_file_in (fs w') q = is_file_in (fs w) q) ∧
        stdout w' = stdout w ∧ calls w' = calls w.
Proof.
  intros Hm Hrel Hsrc. pose proof Hm as (Hframe & _).
  set (dst := out_root ++ rel).
  assert (parent dst = out_root ++ parent rel) as Hpar by (by apply parent_app).
  destruct (mkdir_from_ok (parent dst) [] (fs w)) as (m1 & Hmk & _ & Hkept).
  { intros q _ Hq. cbn in Hq. rewrite Hpar in Hq.
    destruct (way_is_free mode root m0 P Hwf Hroot Hne _ _ _ q Hm Hrel Hsrc Hq)
      as [(_ & _ & ->)|(? & ? & _ & _ & _ & _ & H)]; auto. }
  set (w1 := set_fs m1 w).
  assert (mkdir_parents (parent dst) w = (Ok tt, w1)) as Hstep1.
  { unfold mkdir_parents. by rewrite Hmk. }
  assert (m1 !! (root ++ rel) = Some (File None)) as Hsrc1.
  { destruct (Hkept (root ++ rel)) as [->|(Hnone & _)].
    - rewrite Hframe by (by apply out_root_not_above). done.
    - rewrite Hframe in Hnone by (by apply out_root_not_above). congruence. }
  assert (read_file (str (root ++ rel)) w1 = (Raised decode_error, w1)) as Hread.
  { rewrite read_file_unfold, Path_str by (by eapply well_formed_names).
    cbn. by rewrite Hsrc1. }
  exists w1. split; [|split; [|done]].
  - unfold process_file, relative_to. rewrite strip_prefix_app.
    rewrite (bind_Ok _ _ w w (rel)) by done. fold dst.
    rewrite (bind_Ok _ _ _ _ _ Hstep1).
    by rewrite (bind_Raised _ _ _ _ _ (Hfail _ _ _ Hread)).
  - intros q. cbn. unfold is_file_in.
    destruct (Hkept q) as [->|(-> & -> & _)]; done.
Qed.

End Stop.

Lemma builders_propagate (mode : batch_mode) (path_ : string) (e : exn) (w : world) :
  mode ∈ [fix_mode; refactor_mode; rewrite_mode] →
  read_file path_ w = (Raised e, w) → build_prompt mode path_ w = (Raised e, w).
Proof.
  rewrite !elem_of_cons, elem_of_nil. intros [->|[->|[->|[]]]] H; cbn;
    [unfold build_fix_prompt|unfold build_refactor_prompt|unfold build_rewrite_prompt];
    cbv zeta; by rewrite (bind_Raised _ _ _ _ _ H).
Qed.

(** ** The loop of a batch run, file by file *)

Lemma bind_Ok_inv {A B : Type} (m : M A) (k : A → M B) (w w' : world) (b : B) :
  bind m k w = (Ok b, w') → ∃ a w1, m w = (Ok a, w1) ∧ k a w1 = (Ok b, w').
Proof.
  unfold bind. destruct (m w) as [[a|e] w1]; [|done]. intros H. by exists a, w1.
Qed.

Lemma bind_ret {A B : Type} (a : A) (k : A → M B) : bind (ret a) k = k a.
Proof. reflexivity. Qed.

Lemma call_claude_reply_of service msgs mt t (w w' : world) (reply : string) :
  call_claude service msgs mt t w = (Ok reply, w') →
  reply = reply_of (service (length (calls w)) (Request MODEL_NAME mt t msgs)) ∧
  w' = sent (Request MODEL_NAME mt t msgs) w.
Proof.
  rewrite call_claude_cases. cbv zeta. unfold reply_of, error_sentinel.
  destruct (service _ _) as [resp|e].
  - destruct (blocks resp) as [|[s|cls] bs]; by intros [= <- <-].
  - destruct (is_Exception (exn_cls e)); [|done]. by intros [= <- <-].
Qed.

Lemma write_text_Ok_inv (p : path) (s : string) (w w' : world) :
  write_text p s w = (Ok tt, w') → w' = set_fs (<[p := File (Some s)]> (fs w)) w.
Proof.
  unfold write_text.
  destruct (fs w !! p) as [[|t]|]; [done| |];
    (destruct p as [|c p]; [done|]);
    (destruct (fs w !! parent (c :: p)) as [[|t']|]; [|done|done]);
    by intros [= <-].
Qed.

Lemma write_text_cases (p : path) (s : string) (w w' : world) (r : result unit) :
  write_text p s w = (r, w') →
  fs w' = fs w ∨ fs w' = <[p := File (Some s)]> (fs w).
Proof.
  unfold write_text.
  destruct (fs w !! p) as [[|t]|]; [intros [= _ <-]; by left| |];
    (destruct p as [|c p]; [intros [= _ <-]; by left|]);
    (destruct (fs w !! parent (c :: p)) as [[|t']|]; intros [= _ <-];
     by (left + right)).
Qed.

Section Loop.
Variable service : nat → request → outcome.
Variable mode : batch_mode.
Variable args : Args.
Variables root out_root : path.

Hypothesis Hbuild : ∀ path_, reads_only (build_prompt mode path_).

(** One turn that returns has sent one request and has left what
    [call_claude] returned for it at the destination. *)
Lemma process_file_writes (rel : path) (w w' : world) :
  process_file service mode args root out_root (root ++ rel) w = (Ok tt, w') →
  ∃ req, calls w' = calls w ++ [req] ∧
         fs w' !! (out_root ++ rel)
         = Some (File (Some (reply_of (service (length (calls w)) req)))).
Proof.
  unfold process_file, relative_to. rewrite strip_prefix_app.
  rewrite bind_ret. intros ([] & w1 & Hmk & H)%bind_Ok_inv.
  apply bind_Ok_inv in H as (prompt_ & w2 & Hb & H).
  apply bind_Ok_inv in H as (reply & w3 & Hc & H).
  apply bind_Ok_inv in H as ([] & w4 & Hwr & H).
  injection H as <-.
  pose proof (silent_mkdir_parents _ _ _ _ Hmk) as Hcalls1.
  pose proof (Hbuild _ _ _ _ Hb) as Hw2. subst w2.
  apply call_claude_reply_of in Hc as [Hreply Hw3]. subst reply w3.
  apply write_text_Ok_inv in Hwr. subst w4.
  eexists. cbn. rewrite lookup_insert_eq, Hcalls1. done.
Qed.

(** A property of the file system that making directories and writing a
    destination keep. *)
Variable kept : gmap path node → Prop.
Variable touched : path → Prop.
Hypothesis Hdir : ∀ m q, kept m → m !! q = None → kept (<[q := Dir]> m).
Hypothesis Hfile : ∀ m rel s,
  ¬ touched rel → kept m → kept (<[out_root ++ rel := File (Some s)]> m).

Lemma mkdir_from_kept (todo done_ : path) (m m' : gmap path node) :
  mkdir_from done_ todo m = Ok m' → kept m → kept m'.
Proof.
  revert done_ m. induction todo as [|c todo IH]; intros done_ m; cbn [mkdir_from].
  - by intros [= <-].
  - cbv zeta. destruct (m !! (done_ ++ [c])) as [[|t]|] eqn:E; [|done|].
    + apply IH.
    + intros H Hm. eapply IH; [exact H|]. by apply Hdir.
Qed.

Lemma process_file_kept (rel : path) :
  ¬ touched rel →
  preserves (λ w, kept (fs w))
    (process_file service mode args root out_root (root ++ rel)).
Proof.
  intros Hrel. unfold process_file, relative_to. rewrite strip_prefix_app.
  rewrite bind_ret. apply preserves_bind.
  { intros w r w'. unfold mkdir_parents.
    destruct (mkdir_from [] _ (fs w)) as [m|e] eqn:E; intros [= _ <-]; [|done].
    cbn. by eapply mkdir_from_kept. }
  intros _. apply preserves_bind.
  { apply (preserves_same_fs kept). intros w r w' H. by rewrite (Hbuild _ _ _ _ H). }
  intros prompt_. apply preserves_bind.
  { apply (preserves_same_fs kept). intros w r w' H.
    by rewrite (call_claude_world _ _ _ _ _ _ _ H). }
  intros reply. apply preserves_bind.
  { intros w r w' H Hw. destruct (write_text_cases _ _ _ _ _ H) as [->| ->]; [done|].
    by apply Hfile. }
  intros _. apply (preserves_same_fs kept). by intros w r w' [= _ <-].
Qed.

Lemma process_files_kept (rels : list path) (count : nat) :
  Forall (λ rel, ¬ touched rel) rels →
  preserves (λ w, kept (fs w))
    (process_files service mode args root out_root (app root <$> rels) count).
Proof.
  intros Hall. revert count.
  induction Hall as [|rel rels Hrel _ IH]; intros count; cbn [fmap list_fmap process_files].
  - by intros w r w' [= _ <-].
  - apply preserves_bind; [by apply process_file_kept|]. intros _. apply IH.
Qed.

End Loop.

(** While the loop runs, a file stays what it is unless the loop writes
    it. *)
Lemma process_files_keep_file service (mode : batch_mode) (args : Args)
    (root out_root : path) (rels : list path) (count : nat) (w w' : world)
    (r : result nat) (q : path) (t : option string) :
  (∀ path_, reads_only (build_prompt mode path_)) →
  process_files service mode args root out_root (app root <$> rels) count w = (r, w') →
  (∀ rel, rel ∈ rels → q ≠ out_root ++ rel) →
  fs w !! q = Some (File t) → fs w' !! q = Some (File t).
Proof.
  intros Hbuild Hrun Hq.
  apply (process_files_kept service mode args root out_root Hbuild
           (λ m, m !! q = Some (File t)) (λ rel, q = out_root ++ rel))
    with (rels := rels) (count := count) (r := r) (w := w);
    [| |by apply Forall_forall|done].
  - intros m q' Hm Hnone. cbn. rewrite lookup_insert_ne; [done|congruence].
  - intros m rel s Hne Hm. cbn. rewrite lookup_insert_ne; [done|congruence].
Qed.

(** Where the loop does not write, no file appears and none goes. *)
Lemma process_files_keep_kind service (mode : batch_mode) (args : Args)
    (root out_root : path) (rels : list path) (count : nat) (w w' : world)
    (r : result nat) (q : path) :
  (∀ path_, reads_only (build_prompt mode path_)) →
  process_files service mode args root out_root (app root <$> rels) count w = (r, w') →
  (∀ rel, rel ∈ rels → q ≠ out_root ++ rel) →
  is_file_in (fs w') q = is_file_in (fs w) q.
Proof.
  intros Hbuild Hrun Hq.
  apply (process_files_kept service mode args root out_root Hbuild
           (λ m, is_file_in m q = is_file_in (fs w) q) (λ rel, q = out_root ++ rel))
    with (rels := rels) (count := count) (r := r) (w := w);
    [| |by apply Forall_forall|done|done].
  - intros m q' Hm Hnone. cbn in *. rewrite <- Hm. unfold is_file_in.
    destruct (decide (q' = q)) as [->|Hne].
    + by rewrite lookup_insert_eq, Hnone.
    + by rewrite lookup_insert_ne.
  - intros m rel s Hne Hm. cbn in *. rewrite <- Hm. unfold is_file_in.
    rewrite lookup_insert_ne; [done|congruence].
Qed.

(** A loop that returns has sent one request per file, in the order of the
    enumeration, and each destination holds what [call_claude] returned
    for the request of its own file. *)
Lemma process_files_writes service (mode : batch_mode) (args : Args)
    (root out_root : path) (rels : list path) (count n : nat) (w w' : world) :
  (∀ path_, reads_only (build_prompt mode path_)) →
  NoDup rels →
  process_files service mode args root out_root (app root <$> rels) count w = (Ok n, w') →
  ∃ reqs, calls w' = calls w ++ reqs ∧ length reqs = length rels ∧
    ∀ i rel req, rels !! i = Some rel → reqs !! i = Some req →
      fs w' !! (out_root ++ rel)
      = Some (File (Some (reply_of (service (length (calls w) + i) req)))).
Proof.
  intros Hbuild Hnd. revert count w.
  induction Hnd as [|rel rels Hnotin Hnd IH]; intros count w;
    cbn [fmap list_fmap process_files].
  { intros [= _ <-]. exists []. rewrite app_nil_r. split; [done|]. split; [done|].
    intros i rel req Hrel. by rewrite lookup_nil in Hrel. }
  intros ([] & w1 & Hstep & Hrest)%bind_Ok_inv.
  destruct (process_file_writes service mode args root out_root Hbuild rel w w1 Hstep)
    as (req0 & Hcalls1 & Hdst).
  destruct (IH _ _ Hrest) as (reqs & Hcalls & Hlen & Hall).
  exists (req0 :: reqs). split; [|split].
  - by rewrite Hcalls, Hcalls1, <- app_assoc.
  - cbn. by rewrite Hlen.
  - intros [|i] rel' req Hrel' Hreq; cbn in Hrel', Hreq.
    + injection Hrel' as <-. injection Hreq as <-. rewrite Nat.add_0_r.
      apply (process_files_keep_file service mode args root out_root rels (S count)
               w1 w' (Ok n)); [done|done| |done].
      intros rel' Hin Heq. apply app_inv_head in Heq. by subst rel'.
    + rewrite (Hall i rel' req Hrel' Hreq). rewrite Hcalls1, length_app. cbn.
      by replace (length (calls w) + 1 + i) with (length (calls w) + S i) by lia.
Qed.

(** ** The course of a complete batch run *)

Lemma absent_mirrored (mode : batch_mode) (root : path) (m0 : gmap path node)
    (P : string → Prop) :
  absent (output_root mode root) m0 = true → mirrored mode root m0 P m0.
Proof.
  unfold absent. rewrite fs_forall_spec. intros Habsent.
  split; [done|]. split.
  - intros rel t Hout. apply Habsent in Hout.
    apply negb_true_iff, bool_decide_eq_false in Hout. destruct Hout. by eexists.
  - intros rel Hout. apply Habsent in Hout.
    apply negb_true_iff, bool_decide_eq_false in Hout. destruct Hout. by eexists.
Qed.

Lemma process_files_app service (mode : batch_mode) (args : Args)
    (root out_root : path) (l1 l2 : list path) (count : nat) (w : world) :
  process_files service mode args root out_root (l1 ++ l2) count w
  = (n <- process_files service mode args root out_root l1 count ;;
     process_files service mode args root out_root l2 n) w.
Proof.
  revert count w. induction l1 as [|src l1 IH]; intros count w; [done|].
  cbn [app process_files]. unfold bind.
  destruct (process_file service mode args root out_root src w) as [[[]|e] w']; [|done].
  rewrite IH. reflexivity.
Qed.

Section Course.
Variable service : nat → request → outcome.
Variable mode : batch_mode.
Variable args : Args.
Variable root : path.
Variable m0 : gmap path node.
Variable P : string → Prop.

Hypothesis Hsuffix : out_suffix mode ≠ "".
Hypothesis Hbuild : ∀ path_ text w,
  read_file path_ w = (Ok text, w) → ∃ p, build_prompt mode path_ w = (Ok p, w).
Hypothesis Hreply : ∀ msgs mt t w,
  ∃ r, call_claude service msgs mt t w = (Ok r, sent (Request MODEL_NAME mt t msgs) w)
       ∧ P r.
Hypothesis Hwf : well_formed m0 = true.
Hypothesis Hroot : m0 !! root = Some Dir.
Hypothesis Hne : root ≠ [].

Local Abbreviation out_root := (output_root mode root).
Local Abbreviation mirrored := (mirrored mode root m0 P).

(** The supported files below the root, as the enumeration finds them in
    a tree that holds the sources and, maybe, the output of an earlier
    run. *)
Lemma supported_files_of (w : world) :
  mirrored (fs w) →
  ∃ rels,
    iter_code_files root w = (Ok (app root <$> rels), w) ∧
    NoDup rels ∧
    (∀ rel, rel ∈ rels ↔
            rel ≠ [] ∧ is_file_in m0 (root ++ rel) = true ∧
            has_supported_ext (root ++ rel) = true).
Proof.
  intros Hm.
  assert (∀ rel, fs w !! (root ++ rel) = m0 !! (root ++ rel)) as Hsrc.
  { intros rel. apply Hm. by apply out_root_not_above. }
  set (files := List.filter (λ p, is_file_in (fs w) p && has_supported_ext p)
                            (entries_under root (fs w))).
  assert (∀ p, p ∈ files ↔
               under root p ∧ is_file_in m0 p = true ∧ has_supported_ext p = true)
    as Hfiles.
  { intros p. unfold files.
    rewrite elem_of_List_filter, (mirrored_entries mode root m0 P Hsuffix Hne _ _ Hm),
      elem_of_entries_under, andb_true_iff.
    split.
    - intros [[Hu _] [Hf Hs]]. split; [done|]. split; [|done].
      pose proof Hu as (rel & _ & ->)%under_spec.
      unfold is_file_in in *. by rewrite <- Hsrc.
    - intros (Hu & Hf & Hs). pose proof Hu as (rel & _ & ->)%under_spec.
      split; [split; [done|]|split; [|done]].
      + apply is_file_in_spec in Hf as [t Hf]. by eexists.
      + unfold is_file_in in *. by rewrite Hsrc. }
  destruct (under_list root files) as [rels Hrels].
  { apply Forall_forall. intros p Hp. by apply Hfiles in Hp as [? _]. }
  assert (Inj (=) (=) (app root)) as Hinj by (intros ???; by eapply app_inv_head).
  exists rels. split; [|split].
  - by rewrite <- Hrels.
  - apply (NoDup_fmap_1 (app root)). rewrite <- Hrels.
    apply NoDup_List_filter, NoDup_entries_under.
  - intros rel. rewrite <- (list_elem_of_fmap_inj (app root)), <- Hrels, Hfiles.
    rewrite under_spec. split.
    + by intros ((rel' & Hrel' & ->%app_inv_head) & Hf & Hs).
    + intros (Hrel & Hf & Hs). split; [by exists rel|done].
Qed.

(** [run_folder] once the guard has been passed, in terms of the
    enumeration. *)
Lemma run_folder_enumerated (folder : string) (w : world) (files : list path) :
  Path folder = root → fs w !! root = Some Dir →
  iter_code_files root w = (Ok files, w) →
  run_folder service mode folder args w
  = (count <- process_files service mode args root out_root files 0 ;;
     print (done_line mode count out_root))
      (World (fs w) (cwd w) (stdout w ++ banner mode root) (calls w)).
Proof.
  intros Hpath Hdir Hfiles. rewrite run_folder_unfold, Hpath, Hdir.
  injection Hfiles as <-. destruct root; [done|reflexivity].
Qed.

(** The run over a tree whose supported files are valid UTF-8. *)
Lemma run_folder_course (folder : string) (w : world) :
  Path folder = root → mirrored (fs w) →
  sources_readable root m0 = true →
  ∃ w2 rels,
    iter_code_files root w = (Ok (app root <$> rels), w) ∧
    process_files service mode args root out_root (app root <$> rels) 0
      (World (fs w) (cwd w) (stdout w ++ banner mode root) (calls w))
    = (Ok (length rels), w2) ∧
    run_folder service mode folder args w
    = (Ok tt, World (fs w2) (cwd w2)
                    (stdout w2 ++ [done_line mode (length rels) out_root]) (calls w2)) ∧
    mirrored (fs w2) ∧
    NoDup rels ∧
    (∀ rel, rel ∈ rels ↔
            rel ≠ [] ∧ is_file_in m0 (root ++ rel) = true ∧
            has_supported_ext (root ++ rel) = true) ∧
    (∀ rel, rel ∈ rels → is_file_in (fs w2) (out_root ++ rel) = true) ∧
    (∀ q, is_file_in (fs w) q = true → is_file_in (fs w2) q = true) ∧
    stdout w2 = stdout w ++ banner mode root
                ++ ((λ rel, ok_line mode root (root ++ rel) rel) <$> rels) ∧
    length (calls w2) = length (calls w) + length rels.
Proof.
  intros Hpath Hm Hreadable.
  unfold sources_readable in Hreadable. rewrite fs_forall_spec in Hreadable.
  destruct (supported_files_of w Hm) as (rels & Hiter & Hnodup & Hmem).
  set (w1 := World (fs w) (cwd w) (stdout w ++ banner mode root) (calls w)).
  destruct (process_files_ok service mode args root m0 P Hsuffix Hbuild Hreply
              Hwf Hroot Hne rels 0 w1 Hm)
    as (w2 & Hloop & Hm2 & Hmono & Hdsts & _ & Hout2 & Hcalls2).
  { apply Forall_forall. intros rel (Hrel & [t Hf]%is_file_in_spec & Hs)%Hmem.
    split; [done|]. split; [|done].
    specialize (Hreadable _ _ Hf). rewrite Hs, andb_true_r in Hreadable.
    rewrite bool_decide_eq_true_2 in Hreadable.
    - destruct t as [text|]; [by eexists|done].
    - apply under_spec. by exists rel. }
  assert (fs w !! root = Some Dir) as Hdir_.
  { destruct Hm as [Hframe _]. rewrite <- (app_nil_r root), Hframe, app_nil_r; [done|].
    by apply out_root_not_above. }
  exists w2, rels.
  split; [done|]. split; [done|]. split.
  { rewrite (run_folder_enumerated folder w _ Hpath Hdir_ Hiter).
    by rewrite (bind_Ok _ _ _ _ _ Hloop). }
  split; [done|]. split; [done|]. split; [done|]. split; [done|]. split; [done|].
  split; [|done]. rewrite Hout2. unfold w1. cbn. by rewrite <- app_assoc.
Qed.

(** The run that meets a supported file it cannot decode: it stops at the
    first such file of the enumeration. *)
Hypothesis Hfail : ∀ path_ e w,
  read_file path_ w = (Raised e, w) → build_prompt mode path_ w = (Raised e, w).
Hypothesis Hreads : ∀ path_, reads_only (build_prompt mode path_).

Lemma run_folder_stops (folder : string) (w : world) :
  Path folder = root → mirrored (fs w) →
  (∃ p, under root p ∧ has_supported_ext p = true ∧ m0 !! p = Some (File None)) →
  ∃ w2 done_ bad rest,
    iter_code_files root w = (Ok (app root <$> (done_ ++ bad :: rest)), w) ∧
    NoDup (done_ ++ bad :: rest) ∧
    Forall (λ rel, ∃ text, m0 !! (root ++ rel) = Some (File (Some text))) done_ ∧
    m0 !! (root ++ bad) = Some (File None) ∧
    has_supported_ext (root ++ bad) = true ∧
    run_folder service mode folder args w = (Raised decode_error, w2) ∧
    (∀ rel, rel ∈ done_ → is_file_in (fs w2) (out_root ++ rel) = true) ∧
    (∀ q, (∀ rel, rel ∈ done_ → q ≠ out_root ++ rel) →
          is_file_in (fs w2) q = is_file_in (fs w) q) ∧
    stdout w2 = stdout w ++ banner mode root
                ++ ((λ rel, ok_line mode root (root ++ rel) rel) <$> done_) ∧
    length (calls w2) = length (calls w) + length done_.
Proof.
  intros Hpath Hm (p & Hup & Hsp & Hp).
  destruct (supported_files_of w Hm) as (rels & Hiter & Hnodup & Hmem).
  set (w1 := World (fs w) (cwd w) (stdout w ++ banner mode root) (calls w)).
  assert (fs w !! root = Some Dir) as Hdir_.
  { destruct Hm as [Hframe _]. rewrite <- (app_nil_r root), Hframe, app_nil_r; [done|].
    by apply out_root_not_above. }
  (* the first file that cannot be decoded *)
  assert (∃ done_ bad rest,
            rels = done_ ++ bad :: rest ∧
            Forall (λ rel, ∃ text, m0 !! (root ++ rel) = Some (File (Some text))) done_ ∧
            m0 !! (root ++ bad) = Some (File None))
    as (done_ & bad & rest & Hsplit & Hdone & Hbad).
  { assert (Exists (λ rel, m0 !! (root ++ rel) = Some (File None)) rels) as Hex.
    { pose proof Hup as (rel & Hrel & ->)%under_spec.
      apply Exists_exists. exists rel. split; [|done].
      apply Hmem. split; [done|]. split; [|done]. apply is_file_in_spec. by eexists. }
    assert (Forall (λ rel, ∃ t, m0 !! (root ++ rel) = Some (File t)) rels) as Hall.
    { apply Forall_forall. by intros rel (_ & ?%is_file_in_spec & _)%Hmem. }
    clear Hmem Hnodup Hiter.
    induction Hall as [|rel rels [[text|] Hrel] _ IH].
    - by apply Exists_nil in Hex.
    - apply Exists_cons in Hex as [Hex|Hex]; [congruence|].
      destruct (IH Hex) as (done_ & bad & rest & -> & Hdone & Hbad).
      exists (rel :: done_), bad, rest. split; [done|]. split; [|done].
      constructor; [by eexists|done].
    - exists [], rel, rels. by repeat split. }
  subst rels.
  assert (∀ rel, rel ∈ done_ → rel ≠ [] ∧ has_supported_ext (root ++ rel) = true)
    as Hdone_mem.
  { intros rel Hrel. assert (rel ∈ done_ ++ bad :: rest) as Hin
      by (apply elem_of_app; by left).
    apply Hmem in Hin. tauto. }
  assert (bad ≠ [] ∧ has_supported_ext (root ++ bad) = true) as [Hbadne Hbads].
  { assert (bad ∈ done_ ++ bad :: rest) as Hin
      by (apply elem_of_app; right; apply list_elem_of_here).
    apply Hmem in Hin. tauto. }
  (* the files before it *)
  destruct (process_files_ok service mode args root m0 P Hsuffix Hbuild Hreply
              Hwf Hroot Hne done_ 0 w1 Hm)
    as (w2 & Hloop & Hm2 & _ & Hdsts & _ & Hout2 & Hcalls2).
  { apply Forall_forall. intros rel Hrel.
    destruct (Hdone_mem rel Hrel) as [Hrelne Hs].
    split; [done|]. split; [|done].
    rewrite Forall_forall in Hdone. by apply Hdone. }
  (* the file itself *)
  destruct (process_file_undecodable service mode args root m0 P Hsuffix Hfail
              Hwf Hroot Hne bad w2 Hm2 Hbadne Hbad)
    as (w3 & Hstep & Hfiles3 & Hout3 & Hcalls3).
  exists w3, done_, bad, rest.
  split; [done|]. split; [done|]. split; [done|]. split; [done|]. split; [done|].
  assert (process_files service mode args root out_root
            (app root <$> (done_ ++ bad :: rest)) 0 w1 = (Raised decode_error, w3))
    as Hrun.
  { rewrite fmap_app, process_files_app, (bind_Ok _ _ _ _ _ Hloop).
    cbn [fmap list_fmap process_files]. by rewrite (bind_Raised _ _ _ _ _ Hstep). }
  split; [|split; [|split; [|split]]].
  - rewrite (run_folder_enumerated folder w _ Hpath Hdir_ Hiter).
    by rewrite (bind_Raised _ _ _ _ _ Hrun).
  - intros rel Hrel. rewrite Hfiles3. by apply Hdsts.
  - intros q Hq. rewrite Hfiles3.
    apply (process_files_keep_kind service mode args root out_root done_ 0 w1 w2
             (Ok (0 + length done_))); [done|done|done].
  - rewrite Hout3, Hout2. unfold w1. cbn. by rewrite <- app_assoc.
  - by rewrite Hcalls3, Hcalls2.
Qed.

End Course.

(** ** A batch run with a service that fails on every call *)

Lemma folder_modes_verbs_run service (args : Args) run mode folder verb :
  (run, mode, folder, verb) ∈ folder_modes_verbs service args →
  (run, mode, folder) ∈ folder_modes service args ∧ done_verb mode = verb.
Proof.
  unfold folder_modes_verbs, folder_modes. rewrite !elem_of_cons, !elem_of_nil.
  intros [H|[H|[H|[]]]]; injection H as -> -> -> ->; (split; [|done]); auto.
Qed.




(** ** Running a batch mode again *)

(** X13.  A batch run may be repeated.  After a first run under the
    conditions of a complete run (a well-formed tree, a root without
    [".."] that is a directory with a name, readable sources, a fresh
    output root, a service that is not interrupted), a second run of the
    same mode over the same folder returns normally as well.  The output
    of the first run is not taken for input: the second run sends as many
    requests as the first, the tree holds the same files as after the
    first run, and nothing outside the output root differs from the state
    before the first run.  The output files are overwritten: after the
    first run each of them holds what [call_claude] returned for a request
    of the first run, and after the second run each of them holds what it
    returned for a request of the second run. *)
Theorem batch_rerun_overwrites service run mode folder (args : Args) (w : world) :
  (run, mode, folder) ∈ folder_modes service args →
  raises_only_Exception service →
  well_formed (fs w) = true →
  fs w !! Path folder = Some Dir →
  Path folder ≠ [] →
  (".." ∉ Path folder) →
  sources_readable (Path folder) (fs w) = true →
  absent (output_root mode (Path folder)) (fs w) = true →
  ∃ w1 w2 reqs1 reqs2,
    run args w = (Ok tt, w1) ∧ run args w1 = (Ok tt, w2) ∧
    calls w1 = calls w ++ reqs1 ∧ calls w2 = calls w1 ++ reqs2 ∧
    length reqs2 = length reqs1 ∧
    (∀ q, is_file_in (fs w2) q = is_file_in (fs w1) q) ∧
    (∀ q, ¬ output_root mode (Path folder) `prefix_of` q → fs w2 !! q = fs w !! q) ∧
    (∀ rel, is_file_in (fs w1) (output_root mode (Path folder) ++ rel) = true →
       ∃ i req, reqs1 !! i = Some req ∧
                fs w1 !! (output_root mode (Path folder) ++ rel)
                = Some (File (Some (reply_of (service (length (calls w) + i) req))))) ∧
    (∀ rel, is_file_in (fs w2) (output_root mode (Path folder) ++ rel) = true →
       ∃ j req, reqs2 !! j = Some req ∧
                fs w2 !! (output_root mode (Path folder) ++ rel)
                = Some (File (Some (reply_of (service (length (calls w1) + j) req))))).
Proof.
  intros (-> & Hsfx & Hbuild & Hmode)%folder_modes_run Hsvc Hwf Hroot Hne _
         Hreadable Habsent.
  pose proof (λ msgs mt t w, call_claude_returns service msgs mt t w Hsvc) as Hreply.
  pose proof (λ p, builders_read_only mode p Hmode) as Hreads.
  set (root := Path folder) in *. set (out := output_root mode root).
  (* the first run *)
  destruct (run_folder_course service mode args root (fs w) (λ _, True)
              Hsfx Hbuild Hreply Hwf Hroot Hne folder w eq_refl
              (absent_mirrored _ _ _ _ Habsent) Hreadable)
    as (v1 & rels1 & _ & Hloop1 & Hrun1 & Hm1 & Hnd1 & Hmem1 & Hdst1 & _ & _ & _).
  destruct (process_files_writes service mode args root _ rels1 0 _ _ _
              Hreads Hnd1 Hloop1) as (reqs1 & Hreqs1 & Hlen1 & Hcontent1).
  cbn [calls] in Hreqs1, Hcontent1.
  set (w1 := World (fs v1) (cwd v1)
                   (stdout v1 ++ [done_line mode (length rels1) out]) (calls v1)) in *.
  (* the second run *)
  destruct (run_folder_course service mode args root (fs w) (λ _, True)
              Hsfx Hbuild Hreply Hwf Hroot Hne folder w1 eq_refl Hm1 Hreadable)
    as (v2 & rels2 & _ & Hloop2 & Hrun2 & Hm2 & Hnd2 & Hmem2 & Hdst2 & Hmono & _ & _).
  destruct (process_files_writes service mode args root _ rels2 0 _ _ _
              Hreads Hnd2 Hloop2) as (reqs2 & Hreqs2 & Hlen2 & Hcontent2).
  cbn [calls fs] in Hreqs2, Hcontent2, Hmono.
  assert (length rels1 = length rels2) as Hlen.
  { apply Permutation_length, NoDup_Permutation; [done|done|].
    intros rel. by rewrite Hmem1, Hmem2. }
  assert (∀ (v : world) (rels : list path), mirrored mode root (fs w) (λ _, True) (fs v) →
            (∀ rel, rel ∈ rels ↔
                    rel ≠ [] ∧ is_file_in (fs w) (root ++ rel) = true ∧
                    has_supported_ext (root ++ rel) = true) →
            ∀ rel, is_file_in (fs v) (out ++ rel) = true → rel ∈ rels) as Hback.
  { intros v rels (_ & Hfile & _) Hmem rel [t Ht]%is_file_in_spec.
    destruct (Hfile rel t Ht) as (Hf & Hs & _). apply Hmem. split; [|done].
    intros ->. rewrite app_nil_r in Hf. apply is_file_in_spec in Hf as [t' Hf].
    rewrite Hroot in Hf. done. }
  exists w1, (World (fs v2) (cwd v2)
                     (stdout v2 ++ [done_line mode (length rels2) out]) (calls v2)),
         reqs1, reqs2.
  split; [exact Hrun1|]. split; [exact Hrun2|]. cbn [fs calls].
  split; [done|]. split; [done|]. split; [lia|]. split; [|split; [|split]].
  - intros q. apply eq_true_iff_eq. split; [|apply Hmono].
    intros Hq. destruct (decide (out `prefix_of` q)) as [[rel ->]|Hout].
    + apply Hdst1, Hmem1, Hmem2. by apply (Hback v2 rels2).
    + destruct Hm1 as (Hf1 & _). destruct Hm2 as (Hf2 & _).
      unfold is_file_in in *. by rewrite Hf1, <- Hf2.
  - by destruct Hm2 as (Hf2 & _).
  - intros rel Hrel. apply (Hback v1 rels1 Hm1 Hmem1) in Hrel.
    apply list_elem_of_lookup in Hrel as [i Hi].
    destruct (lookup_lt_is_Some_2 reqs1 i) as [req Hreq].
    { rewrite Hlen1. by eapply lookup_lt_Some. }
    exists i, req. split; [done|]. by apply Hcontent1.
  - intros rel Hrel. apply (Hback v2 rels2 Hm2 Hmem2) in Hrel.
    apply list_elem_of_lookup in Hrel as [j Hj].
    destruct (lookup_lt_is_Some_2 reqs2 j) as [req Hreq].
    { rewrite Hlen2. by eapply lookup_lt_Some. }
    exists j, req. split; [done|]. by apply Hcontent2.
Qed.

Lemma batch_rerun_overwrites_witness :
  (∃ w1 w2 reqs1 reqs2,
    run_fix_folder counting_service fix_proj sample_world = (Ok tt, w1) ∧
    run_fix_folder counting_service fix_proj w1 = (Ok tt, w2) ∧
    calls w1 = calls sample_world ++ reqs1 ∧ calls w2 = calls w1 ++ reqs2 ∧
    length reqs2 = length reqs1 ∧
    (∀ q, is_file_in (fs w2) q = is_file_in (fs w1) q) ∧
    (∀ q, ¬ output_root fix_mode (Path "proj") `prefix_of` q →
          fs w2 !! q = fs sample_world !! q) ∧
    (∀ rel, is_file_in (fs w1) (output_root fix_mode (Path "proj") ++ rel) = true →
       ∃ i req, reqs1 !! i = Some req ∧
                fs w1 !! (output_root fix_mode (Path "proj") ++ rel)
                = Some (File (Some (reply_of
                    (counting_service (length (calls sample_world) + i) req))))) ∧
    (∀ rel, is_file_in (fs w2) (output_root fix_mode (Path "proj") ++ rel) = true →
       ∃ j req, reqs2 !! j = Some req ∧
                fs w2 !! (output_root fix_mode (Path "proj") ++ rel)
                = Some (File (Some (reply_of
                    (counting_service (length (calls w1) + j) req)))))) ∧
  (let w1 := (run_fix_folder counting_service fix_proj sample_world).2 in
   let w2 := (run_fix_folder counting_service fix_proj w1).2 in
   fs w1 !! ["proj_fixed"; "a.py"] = Some (File (Some "reply 0")) ∧
   fs w1 !! ["proj_fixed"; "sub"; "b.KT"] = Some (File (Some "reply 1")) ∧
   fs w2 !! ["proj_fixed"; "a.py"] = Some (File (Some "reply 2")) ∧
   fs w2 !! ["proj_fixed"; "sub"; "b.KT"] = Some (File (Some "reply 3")) ∧
   fs w2 !! ["proj_fixed"; "notes.txt"] = None ∧
   length (calls w1) = 2 ∧ length (calls w2) = 4).
Proof.
  split.
  - apply (batch_rerun_overwrites counting_service (run_fix_folder counting_service)
             fix_mode "proj" fix_proj sample_world).
    + apply list_elem_of_here.
    + intros n req e. discriminate.
    + vm_compute. reflexivity.
    + vm_compute. reflexivity.
    + discriminate.
    + rewrite list_elem_of_In. vm_compute. not_in_list.
    + vm_compute. reflexivity.
    + vm_compute. reflexivity.
  - vm_compute. repeat split; reflexivity.
Defined.

(** ** A source that cannot be decoded *)

(** X16.  The batch loop has no handler for a source it cannot decode.  When
    a file below the root has a supported extension and is not valid UTF-8
    (in a well-formed tree, a root without [".."] that is a directory with
    a name, a fresh output root and a service that is not interrupted),
    the run stops with [UnicodeDecodeError] at the first such file of the
    enumeration: the enumeration of the supported files is [done_], then
    [bad], then [rest], where every file of [done_] can be decoded and
    [bad] cannot.  The files of [done_] have been processed, one request
    each, and have their outputs; neither [bad] nor any file of [rest] has
    an output; the summary line is not printed. *)
Theorem batch_stops_at_unreadable_source service run mode folder (args : Args)
    (w : world) :
  (run, mode, folder) ∈ folder_modes service args →
  raises_only_Exception service →
  well_formed (fs w) = true →
  fs w !! Path folder = Some Dir →
  Path folder ≠ [] →
  (".." ∉ Path folder) →
  absent (output_root mode (Path folder)) (fs w) = true →
  (∃ p, under (Path folder) p ∧ has_supported_ext p = true ∧
        fs w !! p = Some (File None)) →
  ∃ msg w' done_ bad rest,
    iter_code_files (Path folder) w
    = (Ok (app (Path folder) <$> (done_ ++ bad :: rest)), w) ∧
    NoDup (done_ ++ bad :: rest) ∧
    Forall (λ rel, ∃ text, fs w !! (Path folder ++ rel) = Some (File (Some text))) done_ ∧
    run args w = (Raised (Exn UnicodeDecodeError msg), w') ∧
    fs w !! (Path folder ++ bad) = Some (File None) ∧
    has_supported_ext (Path folder ++ bad) = true ∧
    (bad ∉ done_) ∧
    (∀ rel, rel ∈ done_ →
            is_file_in (fs w) (Path folder ++ rel) = true ∧
            has_supported_ext (Path folder ++ rel) = true ∧
            is_file_in (fs w') (output_root mode (Path folder) ++ rel) = true) ∧
    (∀ rel, rel ∈ bad :: rest →
            is_file_in (fs w') (output_root mode (Path folder) ++ rel) = false) ∧
    stdout w' = stdout w ++ banner mode (Path folder)
                ++ ((λ rel, ok_line mode (Path folder) (Path folder ++ rel) rel) <$> done_) ∧
    length (calls w') = length (calls w) + length done_.
Proof.
  intros (-> & Hsfx & Hbuild & Hmode)%folder_modes_run Hsvc Hwf Hroot Hne _ Habsent Hbadfile.
  pose proof (λ msgs mt t w, call_claude_returns service msgs mt t w Hsvc) as Hreply.
  pose proof (λ path_ e w, builders_propagate mode path_ e w Hmode) as Hfail.
  pose proof (λ p, builders_read_only mode p Hmode) as Hreads.
  set (root := Path folder) in *. set (out := output_root mode root).
  destruct (run_folder_stops service mode args root (fs w) (λ _, True)
              Hsfx Hbuild Hreply Hwf Hroot Hne Hfail Hreads folder w eq_refl
              (absent_mirrored _ _ _ _ Habsent) Hbadfile)
    as (w2 & done_ & bad & rest & Hiter & Hnd & Hdone & Hbad & Hsbad & Hrun & Hdst
        & Hframe & Hout & Hcalls).
  assert (∀ q, fs w !! (out ++ q) = None) as Hfresh.
  { intros q. destruct (fs w !! (out ++ q)) as [x|] eqn:E; [|done].
    unfold absent in Habsent. rewrite fs_forall_spec in Habsent.
    apply Habsent in E. apply negb_true_iff, bool_decide_eq_false in E.
    destruct E. by eexists. }
  assert (∀ p, p ∈ app root <$> (done_ ++ bad :: rest) →
               is_file_in (fs w) p = true ∧ has_supported_ext p = true) as Hlisted.
  { intros p Hp. unfold iter_code_files, rglob, bind in Hiter.
    injection Hiter as Hiter. rewrite <- Hiter in Hp.
    apply elem_of_List_filter in Hp as [_ Hp]. by apply andb_true_iff in Hp. }
  exists (exn_str decode_error), w2, done_, bad, rest.
  split; [done|]. split; [done|]. split; [done|]. split; [exact Hrun|].
  split; [done|]. split; [done|]. split; [|split; [|split; [|done]]].
  - apply NoDup_app in Hnd as (_ & Hdisj & _).
    intros Hin. apply (Hdisj bad Hin), list_elem_of_here.
  - intros rel Hrel. destruct (Hlisted (root ++ rel)) as [Hf Hs].
    { apply list_elem_of_fmap. exists rel. split; [done|]. apply elem_of_app. by left. }
    auto.
  - intros rel Hrel. rewrite Hframe.
    + unfold is_file_in. by rewrite Hfresh.
    + intros rel' Hrel' Heq. apply app_inv_head in Heq. subst rel'.
      apply NoDup_app in Hnd as (_ & Hdisj & _). exact (Hdisj rel Hrel' Hrel).
Qed.

Lemma batch_stops_at_unreadable_source_witness :
  (∃ msg w' done_ bad rest,
    iter_code_files (Path "mixed") mixed_world
    = (Ok (app (Path "mixed") <$> (done_ ++ bad :: rest)), mixed_world) ∧
    NoDup (done_ ++ bad :: rest) ∧
    Forall (λ rel, ∃ text, fs mixed_world !! (Path "mixed" ++ rel)
                           = Some (File (Some text))) done_ ∧
    run_fix_folder echo_service fix_mixed mixed_world
    = (Raised (Exn UnicodeDecodeError msg), w') ∧
    fs mixed_world !! (Path "mixed" ++ bad) = Some (File None) ∧
    has_supported_ext (Path "mixed" ++ bad) = true ∧
    (bad ∉ done_) ∧
    (∀ rel, rel ∈ done_ →
            is_file_in (fs mixed_world) (Path "mixed" ++ rel) = true ∧
            has_supported_ext (Path "mixed" ++ rel) = true ∧
            is_file_in (fs w') (output_root fix_mode (Path "mixed") ++ rel) = true) ∧
    (∀ rel, rel ∈ bad :: rest →
            is_file_in (fs w') (output_root fix_mode (Path "mixed") ++ rel) = false) ∧
    stdout w' = stdout mixed_world ++ banner fix_mode (Path "mixed")
                ++ ((λ rel, ok_line fix_mode (Path "mixed") (Path "mixed" ++ rel) rel)
                      <$> done_) ∧
    length (calls w') = length (calls mixed_world) + length done_) ∧
  (let w' := (run_fix_folder echo_service fix_mixed mixed_world).2 in
   (iter_code_files (Path "mixed") mixed_world).1
   = Ok [ ["mixed"; "c.py"]; ["mixed"; "b.py"]; ["mixed"; "a.py"] ] ∧
   fs w' !! ["mixed_fixed"; "c.py"] = Some (File (Some "OK")) ∧
   fs w' !! ["mixed_fixed"; "b.py"] = None ∧
   fs w' !! ["mixed_fixed"; "a.py"] = None ∧
   length (calls w') = 1).
Proof.
  split.
  - apply (batch_stops_at_unreadable_source echo_service (run_fix_folder echo_service)
             fix_mode "mixed" fix_mixed mixed_world).
    + apply list_elem_of_here.
    + intros n req e. discriminate.
    + vm_compute. reflexivity.
    + vm_compute. reflexivity.
    + discriminate.
    + rewrite list_elem_of_In. vm_compute. not_in_list.
    + vm_compute. reflexivity.
    + exists ["mixed"; "b.py"]. split; [|split].
      * split; [by exists ["b.py"]|discriminate].
      * reflexivity.
      * vm_compute. reflexivity.
  - vm_compute. repeat split; reflexivity.
Defined.

(** ** Languages and templates *)

Ltac header_differs :=
  split; [ intros _; let H := fresh in intros H; vm_compute in H; discriminate H
         | intros _; reflexivity ].
Ltac header_generic :=
  split; [ intros H; discriminate H | intros H; destruct H; reflexivity ].
Ltac header_branch :=
  cbv iota; (split; [|split]); first [header_generic | header_differs].

(** X17.  The classifier knows fifteen languages, the templates eight: a
    file gets a header of its own in the fix, refactor and rewrite prompts
    exactly when it is classified as Python, C++, Java, Kotlin, JavaScript,
    TypeScript, HTML or CSS.  For C#, Go, Rust, PHP, JSON, YAML and XML the
    header is the generic one, the same as for a file that is not
    recognised at all. *)
Theorem header_of_their_own (p : path) :
  let lang := detect_language p in
  (in_strs lang HEADER_LANGUAGES = true ↔ _lang_header_fix lang ≠ _lang_header_fix "text") ∧
  (in_strs lang HEADER_LANGUAGES = true
   ↔ _lang_header_refactor lang ≠ _lang_header_refactor "text") ∧
  (in_strs lang HEADER_LANGUAGES = true
   ↔ _lang_header_rewrite lang ≠ _lang_header_rewrite "text").
Proof.
  unfold detect_language. cbv zeta. generalize (lower (suffix p)); intros ext.
  repeat
    match goal with
    | |- context [if ?b then _ else _] =>
        lazymatch b with
        | in_strs ext _ => destruct b; [header_branch|]
        | String.eqb ext _ => destruct b; [header_branch|]
        end
    end.
  header_branch.
Qed.
